(** * Verification of [scripts/diagrams.py]

    A shallow embedding of the review pipeline (load, clean, language
    filter, sentiment annotation, reshape, six charts) and the properties
    the specification states about it.

    Layout: the Python values the script computes with (floats, strings,
    dynamically typed cells), then the data frame and the pandas
    operations the script calls, then the script itself statement by
    statement, then the lemmas and theorems. *)

From stdpp Require Import base option list gmap strings pretty sorting.
From Stdlib Require Import ZArith QArith Qround Qabs Qpower Lia Lqa.
From Stdlib Require Qcanon.

Local Open Scope Z_scope.

(* ===================================================================== *)
(** * Python floats *)
(* ===================================================================== *)

(** A Python [float] is an IEEE-754 binary64 number.  Every finite one is
    a rational, so the finite values are carried as [Q], kept in lowest
    terms; arithmetic is the exact operation followed by [round64], the
    rounding to nearest (ties to even) of the format: 53 significant bits,
    least exponent -1074, overflow to infinity from 2^1024 on.  The sign of
    zero is not kept: none of [<], [>=], [*] or sorting can observe it. *)
Inductive pyfloat : Type :=
| Fin (q : Q)
| PInf
| NInf
| NaN.

#[global] Instance Q_eq_dec : EqDecision Q.
Proof. solve_decision. Defined.
#[global] Instance pyfloat_eq_dec : EqDecision pyfloat.
Proof. solve_decision. Defined.

(** [floor (log2 a)] for a rational [a > 0]. *)
Definition Qlog2 (a : Q) : Z :=
  let k := Z.log2 (Qnum a) - Z.log2 (Z.pos (Qden a)) in
  if Qle_bool (2 ^ k) a then k else k - 1.

Definition round_half_even (q : Q) : Z :=
  let f := Qfloor q in
  match Qcompare (q - inject_Z f) (1 # 2) with
  | Lt => f
  | Gt => f + 1
  | Eq => if Z.even f then f else f + 1
  end.

(** The exponent of the last place of [a > 0]: 52 below the leading bit,
    but never below the subnormal exponent. *)
Definition ulp_exp (a : Q) : Z := Z.max (Qlog2 a - 52) (-1074).

(** Rounding of a magnitude [a > 0], before the overflow test. *)
Definition round_mag (a : Q) : Q :=
  let e := ulp_exp a in
  Qred (inject_Z (round_half_even (a / 2 ^ e)) * 2 ^ e).

Definition overflows (r : Q) : bool := Qle_bool (2 ^ 1024) r.

Definition round64 (x : Q) : pyfloat :=
  match Qcompare x 0 with
  | Eq => Fin 0
  | Gt => let r := round_mag x in if overflows r then PInf else Fin r
  | Lt => let r := round_mag (- x) in if overflows r then NInf else Fin (- r)
  end.

Definition fneg (a : pyfloat) : pyfloat :=
  match a with
  | Fin q => Fin (- q)
  | PInf => NInf
  | NInf => PInf
  | NaN => NaN
  end.

(** Sign of an infinity times the sign of a finite factor. *)
Definition inf_times (positive_inf : bool) (x : Q) : pyfloat :=
  match Qcompare x 0 with
  | Eq => NaN
  | Gt => if positive_inf then PInf else NInf
  | Lt => if positive_inf then NInf else PInf
  end.

(** [a * b] on floats. *)
Definition fmul (a b : pyfloat) : pyfloat :=
  match a, b with
  | NaN, _ | _, NaN => NaN
  | Fin x, Fin y => round64 (x * y)
  | Fin x, PInf | PInf, Fin x => inf_times true x
  | Fin x, NInf | NInf, Fin x => inf_times false x
  | PInf, PInf | NInf, NInf => PInf
  | PInf, NInf | NInf, PInf => NInf
  end.

(** [a <= b] and [a < b] on floats: false as soon as one side is NaN. *)
Definition fle (a b : pyfloat) : bool :=
  match a, b with
  | NaN, _ | _, NaN => false
  | NInf, _ | _, PInf => true
  | Fin x, Fin y => Qle_bool x y
  | PInf, _ | _, NInf => false
  end.

Definition flt (a b : pyfloat) : bool :=
  match a, b with
  | NaN, _ | _, NaN => false
  | PInf, _ | _, NInf => false
  | Fin x, Fin y => negb (Qle_bool y x)
  | NInf, _ | _, PInf => true
  end.

Definition fge (a b : pyfloat) : bool := fle b a.
Definition fgt (a b : pyfloat) : bool := flt b a.

(** [float(z)] for a Python int that does not overflow; literals. *)
Definition float_of_Z (z : Z) : pyfloat := round64 (inject_Z z).

(** The literal [0.05] of [get_sentiment]: the double nearest to 1/20. *)
Definition lit_0_05 : pyfloat := round64 (5 # 100).

(** The unit roundoff of the format, and half its least positive number:
    the relative and the absolute part of a rounding error. *)
Definition u64 : Q := 2 ^ (-53).
Definition eta64 : Q := 2 ^ (-1075).

(* ===================================================================== *)
(** * Python strings *)
(* ===================================================================== *)

(** A Python [str] is a sequence of Unicode code points; [len] counts code
    points and [s[:n]] keeps the first [n] of them. *)
Abbreviation str := (list N).

(** An ASCII literal of the script as a [str]. *)
Definition lit (s : string) : str :=
  Ascii.N_of_ascii <$> String.list_ascii_of_string s.

Definition str_eqb (s t : str) : bool := bool_decide (s = t).

(** [s.split(sep)] for a one-character separator: never an empty list. *)
Fixpoint split (sep : N) (s : str) : list str :=
  match s with
  | [] => [[]]
  | c :: s' =>
      if N.eqb c sep then [] :: split sep s'
      else match split sep s' with
           | w :: ws => (c :: w) :: ws
           | [] => [[c]]
           end
  end.

(** The parts of a split written back with the separator between them. *)
Fixpoint join (sep : N) (parts : list str) : str :=
  match parts with
  | [] => []
  | [w] => w
  | w :: ws => w ++ sep :: join sep ws
  end.

(** [s.replace(old, new)] for a one-character [old]. *)
Definition replace (old : N) (new : str) (s : str) : str :=
  c ← s; if N.eqb c old then new else [c].

Fixpoint drop_while (p : N -> bool) (s : str) : str :=
  match s with
  | [] => []
  | c :: s' => if p c then drop_while p s' else s
  end.

(** Removal of the leading and trailing characters that satisfy [p]. *)
Definition trim (p : N -> bool) (s : str) : str :=
  reverse (drop_while p (reverse (drop_while p s))).

(** [s.strip(chars)] *)
Definition strip (chars : str) (s : str) : str :=
  trim (fun c => bool_decide (c ∈ chars)) s.

(** [s * n] *)
Definition str_repeat (s : str) (n : nat) : str := concat (replicate n s).

(** [str(z)] for an int. *)
Definition str_of_Z (z : Z) : str := lit (pretty z).

(** ** [float(s)] on a string *)

Definition is_digit (c : N) : bool := ((48 <=? c) && (c <=? 57))%N.

(** [Py_ISSPACE]: space, and tab to carriage return. *)
Definition is_ascii_space (c : N) : bool :=
  ((c =? 32) || ((9 <=? c) && (c <=? 13)))%N.

(** [Py_UNICODE_ISSPACE] beyond ASCII. *)
Definition is_unicode_space (c : N) : bool :=
  bool_decide (c ∈ [133; 160; 5760; 8232; 8233; 8239; 8287; 12288]%N)
  || ((8192 <=? c) && (c <=? 8202))%N.

Definition to_lower (c : N) : N :=
  if ((65 <=? c) && (c <=? 90))%N then (c + 32)%N else c.

(** An optional sign: [true] for minus. *)
Definition parse_sign (s : str) : bool * str :=
  match s with
  | 43%N :: r => (false, r)
  | 45%N :: r => (true, r)
  | _ => (false, s)
  end.

(** The longest prefix of decimal digits (as digit values) and the rest. *)
Fixpoint span_digits (s : str) : list Z * str :=
  match s with
  | c :: r =>
      if is_digit c
      then let '(ds, rest) := span_digits r in (Z.of_N (c - 48) :: ds, rest)
      else ([], s)
  | [] => ([], [])
  end.

Definition digits_value (ds : list Z) : Z :=
  foldl (fun acc d => 10 * acc + d) 0 ds.

(** Underscores may only stand between two digits; they are removed. *)
Fixpoint strip_underscores (prev : N) (s : str) : option str :=
  match s with
  | [] => if N.eqb prev 95 then None else Some []
  | c :: r =>
      if N.eqb c 95
      then (if is_digit prev then strip_underscores c r else None)
      else if N.eqb prev 95 && negb (is_digit c) then None
           else (c ::.) <$> strip_underscores c r
  end.

(** [inf], [infinity] and [nan], in any case, with an optional sign. *)
Definition parse_inf_or_nan (s : str) : option pyfloat :=
  let '(neg, r) := parse_sign s in
  let l := to_lower <$> r in
  if str_eqb l (lit "inf") || str_eqb l (lit "infinity")
  then Some (if neg then NInf else PInf)
  else if str_eqb l (lit "nan") then Some NaN else None.

(** A decimal numeral: digits with an optional point, at least one digit,
    and an optional exponent; the exact rational it denotes. *)
Definition parse_decimal (s : str) : option Q :=
  let '(neg, s1) := parse_sign s in
  let '(ip, s2) := span_digits s1 in
  let '(fp, s3) :=
    match s2 with
    | 46%N :: r => span_digits r
    | _ => ([], s2)
    end in
  let mant := digits_value (ip ++ fp) in
  let value (e : Z) : Q :=
    let v := (inject_Z mant * 10 ^ (e - Z.of_nat (length fp)))%Q in
    if neg then (- v)%Q else v in
  match ip ++ fp with
  | [] => None
  | _ :: _ =>
      match s3 with
      | [] => Some (value 0)
      | c :: r =>
          if N.eqb (to_lower c) 101
          then let '(eneg, r1) := parse_sign r in
               match span_digits r1 with
               | (d :: ds, []) =>
                   let e := digits_value (d :: ds) in
                   Some (value (if eneg then - e else e))
               | _ => None
               end
          else None
      end
  end.

Section FloatOfStr.
(** [Py_UNICODE_TODECIMAL] on the code points from 127 on: the digit
    value of a Unicode decimal digit.  The table belongs to the Unicode
    database, not to the script. *)
Variable to_decimal : N -> option N.

(** Spaces and decimal digits outside ASCII become their ASCII
    counterparts, any other character outside ASCII a question mark. *)
Definition to_ascii (c : N) : N :=
  if (c <? 127)%N then c
  else if is_unicode_space c then 32%N
  else match to_decimal c with
       | Some d => (48 + d)%N
       | None => 63%N
       end.

(** [float(s)]: [None] stands for [ValueError]. *)
Definition float_of_str (s : str) : option pyfloat :=
  s1 ← strip_underscores 0 (to_ascii <$> s);
  let body := trim is_ascii_space s1 in
  match parse_inf_or_nan body with
  | Some f => Some f
  | None => round64 <$> parse_decimal body
  end.
End FloatOfStr.

(* ===================================================================== *)
(** * Cells, rows and data frames *)
(* ===================================================================== *)

(** What a cell of the frame can hold at some point of the script.  A
    missing value is the float NaN, as pandas has it. *)
Inductive value : Type :=
| VStr (s : str)
| VFloat (f : pyfloat)
| VInt (z : Z)
| VList (l : list str).

#[global] Instance value_eq_dec : EqDecision value.
Proof. solve_decision. Defined.

Definition missing : value := VFloat NaN.

(** The exceptions that end the script. *)
Inductive exn : Type :=
| KeyError
| ValueError
| TypeError
| AttributeError
| OverflowError
| ExternalError.

Inductive result (A : Type) : Type :=
| Ok (a : A)
| Raise (e : exn).
Arguments Ok {A} a.
Arguments Raise {A} e.

#[global] Instance exn_eq_dec : EqDecision exn.
Proof. solve_decision. Defined.
#[global] Instance result_eq_dec {A : Type} `{EqDecision A} :
  EqDecision (result A).
Proof. solve_decision. Defined.

#[global] Instance result_ret : MRet result := fun A a => Ok a.
#[global] Instance result_bind : MBind result := fun A B f m =>
  match m with
  | Ok a => f a
  | Raise e => Raise e
  end.
#[global] Instance result_fmap : FMap result := fun A B f m =>
  match m with
  | Ok a => Ok (f a)
  | Raise e => Raise e
  end.

(** [f] on every element in order; the first exception ends the walk. *)
Fixpoint traverse {A B : Type} (f : A -> result B) (l : list A)
  : result (list B) :=
  match l with
  | [] => Ok []
  | x :: l' => y ← f x; ys ← traverse f l'; Ok (y :: ys)
  end.

(** A row maps column names to cells; a frame is the ordered list of its
    rows, each under its index label.  The columns of a frame are those of
    its rows. *)
Abbreviation row := (gmap string value).
Abbreviation frame := (list (Z * gmap string value)).

Definition index (df : frame) : list Z := fst <$> df.

(** [row[c]] *)
Definition get (r : row) (c : string) : result value :=
  match r !! c with
  | Some v => Ok v
  | None => Raise KeyError
  end.

(** [df[dst] = df[src].apply(f)] *)
Definition assign (src dst : string) (f : value -> result value)
  (df : frame) : result frame :=
  traverse (fun ir : Z * row =>
              v ← get ir.2 src; w ← f v; Ok (ir.1, <[dst := w]> ir.2)) df.

(** [df[c]]: the cells of a column, in the order of the rows. *)
Definition column (c : string) (df : frame) : result (list value) :=
  traverse (fun ir : Z * row => get ir.2 c) df.

(** One row before and after [df[dst] = df[src].apply(f)]. *)
Definition assigned (src dst : string) (f : value -> result value)
  (ir ir' : Z * row) : Prop :=
  exists v w, ir.2 !! src = Some v /\ f v = Ok w /\ ir' = (ir.1, <[dst := w]> ir.2).

(** [x == y] on cells. *)
Definition py_eq (x y : value) : bool :=
  match x, y with
  | VStr s, VStr t => str_eqb s t
  | VFloat a, VFloat b => fle a b && fle b a
  | VInt a, VInt b => Z.eqb a b
  | VInt a, VFloat b | VFloat b, VInt a =>
      fle (Fin (inject_Z a)) b && fle b (Fin (inject_Z a))
  | VList l, VList m => bool_decide (l = m)
  | _, _ => false
  end.

(** [df.loc[x, c]] read as a scalar.  With a repeated label pandas hands
    back a Series, whose truth value the [if] of the loops refuses with
    ValueError. *)
Definition loc (df : frame) (x : Z) (c : string) : result value :=
  match filter (fun ir : Z * row => ir.1 = x) df with
  | [] => Raise KeyError
  | [ir] => get ir.2 c
  | _ :: _ :: _ => Raise ValueError
  end.

(** [df.drop(x, inplace=True)]: every row labelled [x] goes. *)
Definition drop_label (x : Z) (df : frame) : result frame :=
  if bool_decide (x ∈ index df)
  then Ok (filter (fun ir : Z * row => ir.1 ≠ x) df)
  else Raise KeyError.

(** [for x in df.index: if test(df.loc[x, c]): df.drop(x, inplace=True)].
    [df.index] is evaluated once, so the walk is over the labels the frame
    had before the loop, while [loc] and [drop] act on the frame as the
    loop has left it. *)
Fixpoint drop_loop (test : value -> bool) (c : string) (labels : list Z)
  (df : frame) : result frame :=
  match labels with
  | [] => Ok df
  | x :: rest =>
      v ← loc df x c;
      df' ← (if test v then drop_label x df else Ok df);
      drop_loop test c rest df'
  end.

Definition drop_where (test : value -> bool) (c : string) (df : frame)
  : result frame :=
  drop_loop test c (index df) df.

(** [df.reset_index(drop=True, inplace=True)] *)
Definition reset_index (df : frame) : frame :=
  zip (seqZ 0 (Z.of_nat (length df))) (snd <$> df).

(** [pd.read_csv]: the records of the file, once parsed, under the labels
    0, 1, 2, ... *)
Definition read_csv (records : list row) : frame :=
  zip (seqZ 0 (Z.of_nat (length records))) records.

(** [df.drop_duplicates()]: a row equal to an earlier one goes; the others
    keep their labels. *)
Fixpoint drop_duplicates_from (seen : list row) (df : frame) : frame :=
  match df with
  | [] => []
  | ir :: df' =>
      if bool_decide (ir.2 ∈ seen) then drop_duplicates_from seen df'
      else ir :: drop_duplicates_from (ir.2 :: seen) df'
  end.

Definition drop_duplicates (df : frame) : frame := drop_duplicates_from [] df.

(** Lines 15-18. *)
Definition load (records : list row) : frame :=
  drop_duplicates (read_csv records).

(** [df.explode(c)]: a list cell becomes one row per element, under the
    label of the row it comes from; an empty list leaves one row with a
    missing value; any other cell is kept. *)
Definition explode_row (c : string) (ir : Z * row) : result frame :=
  v ← get ir.2 c;
  Ok match v with
     | VList [] => [(ir.1, <[c := missing]> ir.2)]
     | VList l => (fun s => (ir.1, <[c := VStr s]> ir.2)) <$> l
     | _ => [ir]
     end.

Definition explode (c : string) (df : frame) : result frame :=
  l ← traverse (explode_row c) df; Ok (concat l).

(** [v * n] for an int [n]. *)
Definition mul_int (v : value) (n : Z) : value :=
  match v with
  | VFloat f => VFloat (fmul f (float_of_Z n))
  | VInt z => VInt (z * n)
  | VStr s => VStr (str_repeat s (Z.to_nat n))
  | VList l => VList (concat (replicate (Z.to_nat n) l))
  end.

(** [df[cols] = df[cols] * n] *)
Definition scale_row (cols : list string) (n : Z) (r : row) : result row :=
  foldr (fun c acc => r' ← acc; v ← get r c; Ok (<[c := mul_int v n]> r'))
        (Ok r) cols.

Definition scale (cols : list string) (n : Z) (df : frame) : result frame :=
  traverse (fun ir : Z * row => r ← scale_row cols n ir.2; Ok (ir.1, r)) df.

(** ** [sort_values(by=..., ascending=False)] *)

(** The place of a float in a descending column: greater values first,
    missing values last.  [Lt] reads "before". *)
Definition desc_cmp (a b : pyfloat) : comparison :=
  match a, b with
  | NaN, NaN => Eq
  | NaN, _ => Gt
  | _, NaN => Lt
  | _, _ => if fgt a b then Lt else if flt a b then Gt else Eq
  end.

(** Several sort columns: the first decides, the next break its ties. *)
Fixpoint key_cmp (k1 k2 : list pyfloat) : comparison :=
  match k1, k2 with
  | a :: k1', b :: k2' =>
      match desc_cmp a b with
      | Eq => key_cmp k1' k2'
      | c => c
      end
  | _, _ => Eq
  end.

Definition get_float (r : row) (c : string) : result pyfloat :=
  v ← get r c;
  match v with
  | VFloat f => Ok f
  | _ => Raise TypeError
  end.

(** The sort key of a row.  Only float columns are sorted here. *)
Definition sort_key (by_ : list string) (r : row) : result (list pyfloat) :=
  traverse (get_float r) by_.

(** Stable insertion: before the first row that does not come strictly
    before the new one. *)
Fixpoint insert_desc {A : Type} (x : list pyfloat * A)
  (l : list (list pyfloat * A)) : list (list pyfloat * A) :=
  match l with
  | [] => [x]
  | y :: l' =>
      match key_cmp x.1 y.1 with
      | Gt => y :: insert_desc x l'
      | _ => x :: l
      end
  end.

Definition sort_desc {A : Type} (l : list (list pyfloat * A))
  : list (list pyfloat * A) :=
  foldr insert_desc [] l.

Definition sort_values (by_ : list string) (df : frame) : result frame :=
  keyed ← traverse (fun ir : Z * row => k ← sort_key by_ ir.2; Ok (k, ir)) df;
  Ok (snd <$> sort_desc keyed).

(** [df.head(n)] *)
Definition head (n : nat) (df : frame) : frame := take n df.

(** ** [df.melt(id_vars, value_vars, var_name, value_name)] *)



(** ** The orders and the filter pass the specification speaks of *)

(** [a] stands strictly above [b] in a descending column, and [a] and [b]
    tie: the comparison of floats, with a missing value below every
    number and level with another missing value. *)
Definition above (a b : pyfloat) : Prop :=
  match a, b with
  | NaN, _ => False
  | _, NaN => True
  | _, _ => fgt a b = true
  end.

Definition tied (a b : pyfloat) : Prop :=
  match a, b with
  | NaN, NaN => True
  | NaN, _ | _, NaN => False
  | _, _ => fgt a b = false /\ flt a b = false
  end.

(** Non-increasing under lexicographic comparison: the first component
    that does not tie decides. *)
Fixpoint lex_ge (k1 k2 : list pyfloat) : Prop :=
  match k1, k2 with
  | a :: k1', b :: k2' => above a b \/ (tied a b /\ lex_ge k1' k2')
  | _, _ => True
  end.

(** One keyed element may stand before another in the sorted list. *)
Definition before {A : Type} (x y : list pyfloat * A) : Prop :=
  key_cmp x.1 y.1 ≠ Gt.

(** The sort key of a row stands at or above that of another. *)
Definition row_ge (by_ : list string) (r1 r2 : Z * row) : Prop :=
  exists k1 k2,
    sort_key by_ r1.2 = Ok k1 /\ sort_key by_ r2.2 = Ok k2 /\ lex_ge k1 k2.

(** The order of the specification, read off the cells of two rows: the
    three scores of both are floats, and the (positive, neutral,
    negative) triple of the first stands at or above that of the second,
    the first score that does not tie deciding. *)
Definition tuple_ge (r1 r2 : Z * row) : Prop :=
  exists p1 u1 n1 p2 u2 n2 : pyfloat,
    r1.2 !! "positive" = Some (VFloat p1)
    /\ r1.2 !! "neutral" = Some (VFloat u1)
    /\ r1.2 !! "negative" = Some (VFloat n1)
    /\ r2.2 !! "positive" = Some (VFloat p2)
    /\ r2.2 !! "neutral" = Some (VFloat u2)
    /\ r2.2 !! "negative" = Some (VFloat n2)
    /\ (above p1 p2
        \/ (tied p1 p2
            /\ (above u1 u2
                \/ (tied u1 u2 /\ (above n1 n2 \/ tied n1 n2))))).

(** A filter pass: a new frame with exactly the rows whose cell in column
    [c] does not meet the drop test, in their order. *)
Definition meets (test : value -> bool) (c : string) (r : row) : bool :=
  match r !! c with
  | Some v => test v
  | None => false
  end.

Definition filter_pass (test : value -> bool) (c : string) (df : frame)
  : frame :=
  filter (fun ir : Z * row => meets test c ir.2 = false) df.

(** Every row of [d'] carries in column [c] the cell of some row of [d]. *)
Definition cells_from (c : string) (d d' : frame) : Prop :=
  forall ir', ir' ∈ d' -> exists ir, ir ∈ d /\ ir'.2 !! c = ir.2 !! c.

(** The category list of a row, and what it is to be the group of rows
    made of one row: one row per category, in the order of the list, under
    the label of the row and with its cells in every other column. *)
Definition category_list (ir : Z * row) : list str :=
  match ir.2 !! "category" with
  | Some (VList l) => l
  | _ => []
  end.

(** At line 74 every category cell is a list [split] made. *)
Definition split_cell (o : option value) : Prop :=
  exists s, o = Some (VList (split 124 s)).

Definition exploded_from (ir : Z * row) (grp : frame) : Prop :=
  (fun jr : Z * row => jr.2 !! "category") <$> grp
  = (fun s => Some (VStr s)) <$> category_list ir
  /\ Forall (fun jr : Z * row =>
               jr.1 = ir.1
               /\ forall c : string, c ≠ "category" -> jr.2 !! c = ir.2 !! c) grp.

(** The three labels of [get_sentiment], and a cell that holds one. *)
Definition labels : list str := [lit "Positivo"; lit "Negative"; lit "Neutral"].

Definition is_label (o : option value) : Prop :=
  exists s, o = Some (VStr s) /\ s ∈ labels.

(* ===================================================================== *)
(** * The script *)
(* ===================================================================== *)

(** What the sentiment analyzer returns for one text, in the order of its
    keys. *)
Record scores : Type := Scores {
  neg : pyfloat;
  neu : pyfloat;
  pos : pyfloat;
  compound : pyfloat;
}.

(** The six reports, in the order the script writes them. *)
Inductive chart : Type :=
| SentimentByCategory
| SentimentByRating
| SentimentDensity
| LengthVsSentiment
| CategoryStack
| ProductStack.

Definition all_charts : list chart :=
  [SentimentByCategory; SentimentByRating; SentimentDensity;
   LengthVsSentiment; CategoryStack; ProductStack].

(** A frame a chart is drawn from, against the slice of line 78: the rows
    of the slice, in their order and under their labels, with their cells
    in every column but the two that the chart blocks add or rewrite. *)
Definition drawn_from (slice e : frame) : Prop :=
  Forall2 (fun ir ir' : Z * row =>
             ir'.1 = ir.1
             /\ forall c : string,
                  c ≠ "review_length" -> c ≠ "product_name" ->
                  ir'.2 !! c = ir.2 !! c) slice e.

(** The two frames the script holds from line 74 on. *)
Record globals : Type := Globals {
  df : frame;
  df_exploded : frame;
}.

#[global] Instance globals_eq_dec : EqDecision globals.
Proof. solve_decision. Defined.

(** A number as the comparisons of Python read it: an int is compared by
    its exact value. *)
Definition number (v : value) : result pyfloat :=
  match v with
  | VFloat f => Ok f
  | VInt z => Ok (Fin (inject_Z z))
  | _ => Raise TypeError
  end.

(** Lines 56-62. *)
Definition get_sentiment (review : value) : result value :=
  x ← number review;
  if fge x lit_0_05 then Ok (VStr (lit "Positivo"))
  else if flt x (fneg lit_0_05) then Ok (VStr (lit "Negative"))
  else Ok (VStr (lit "Neutral")).

(** A method of the [.str] accessor: cells that are not strings come out
    missing. *)
Definition str_method (f : str -> str) (v : value) : value :=
  match v with
  | VStr s => VStr (f s)
  | _ => missing
  end.

(** The [.str] accessor of a column.  pandas hands it out for a column
    without rows and for one that holds a string (or another object that
    is no number); a column of numbers only, missing values among them,
    is refused with AttributeError. *)
Definition is_number (v : value) : bool :=
  match v with
  | VFloat _ | VInt _ => true
  | VStr _ | VList _ => false
  end.

Definition str_accessor (cells : list value) : result unit :=
  match cells with
  | [] => Ok tt
  | _ :: _ => if forallb is_number cells then Raise AttributeError else Ok tt
  end.

(** [fillna(0)] on one cell. *)
Definition fillna0 (v : value) : value :=
  match v with
  | VFloat NaN => VInt 0
  | _ => v
  end.

(** The characters line 26 strips: [",🔸*-_\t\n+"]. *)
Definition strip_chars : str :=
  lit "," ++ [128312%N] ++ lit "*-_" ++ [9%N; 10%N] ++ lit "+".

(** Line 29: [x.split("|")]. *)
Definition split_category (x : value) : result value :=
  match x with
  | VStr s => Ok (VList (split 124 s))
  | _ => Raise AttributeError
  end.

(** Line 195: [x[:10] + '...' if len(x) > 10 else x]. *)
Definition truncate (x : str) : str :=
  if (10 <? length x)%nat then take 10 x ++ lit "..." else x.

Definition truncate_name (x : value) : result value :=
  match x with
  | VStr s => Ok (VStr (truncate s))
  | VList l => if (10 <? length l)%nat then Raise TypeError else Ok x
  | _ => Raise TypeError
  end.

Definition score_columns : list string := ["negative"; "neutral"; "positive"].
Definition rank_columns : list string := ["positive"; "neutral"; "negative"].

Section Script.
(** The collaborators the script calls and does not define. *)

(** The decimal-digit table of the Unicode database, for [float]. *)
Variable to_decimal : N -> option N.
(** [langdetect.detect]. *)
Variable detect : value -> result value.
(** [sid.polarity_scores]. *)
Variable polarity_scores : value -> result scores.
(** [str(x)] of a cell that is neither a string nor an int. *)
Variable repr : value -> str.
(** The reshaping and rendering of one chart from the frame it is given
    (pandas group-by and melt, then plotly), up to the HTML written. *)
Variable html : Type.
Variable render : chart -> frame -> html.

(** [float(x)] *)
Definition py_float (x : value) : result pyfloat :=
  match x with
  | VStr s =>
      match float_of_str to_decimal s with
      | Some f => Ok f
      | None => Raise ValueError
      end
  | VFloat f => Ok f
  | VInt z =>
      match float_of_Z z with
      | Fin q => Ok (Fin q)
      | _ => Raise OverflowError
      end
  | VList _ => Raise TypeError
  end.

(** [str(x)] *)
Definition py_str (x : value) : str :=
  match x with
  | VStr s => s
  | VInt z => str_of_Z z
  | _ => repr x
  end.

(** Line 26: the column is read, its [.str] accessor is asked for, and
    the stripped column is assigned. *)
Definition strip_reviews (d : frame) : result frame :=
  cells ← column "review_content" d;
  _ ← str_accessor cells;
  assign "review_content" "review_content"
    (fun x => Ok (str_method (strip strip_chars) x)) d.

(** Line 29. *)
Definition split_categories : frame -> result frame :=
  assign "category" "category" split_category.

(** Lines 32-34. *)
Definition is_sentinel (x : value) : bool := py_eq x (VStr (lit "|")).

Definition drop_sentinel_ratings : frame -> result frame :=
  drop_where is_sentinel "rating".

(** Line 37. *)
Definition format_ratings : frame -> result frame :=
  assign "rating" "rating" (fun x => VFloat <$> py_float x).

(** The cell-wise reading of line 37. *)
Definition coerced (ir ir' : Z * row) : Prop :=
  exists v f, ir.2 !! "rating" = Some v /\ py_float v = Ok f
              /\ ir' = (ir.1, <["rating" := VFloat f]> ir.2).

(** Lines 32-37. *)
Definition repair_ratings (d : frame) : result frame :=
  d ← drop_sentinel_ratings d;
  format_ratings d.

(** Lines 40-42, on one cell and on the column. *)
Definition repair_rating_count (x : value) : result pyfloat :=
  py_float (str_method (replace 44 []) (VStr (py_str (fillna0 x)))).

Definition format_rating_count (d : frame) : result frame :=
  d ← assign "rating_count" "rating_count" (fun x => Ok (fillna0 x)) d;
  d ← assign "rating_count" "rating_count"
        (fun x => Ok (str_method (replace 44 []) (VStr (py_str x)))) d;
  assign "rating_count" "rating_count" (fun x => VFloat <$> py_float x) d.

(** Line 45. *)
Definition detect_language : frame -> result frame :=
  assign "review_content" "language" detect.

(** Lines 48-50. *)
Definition not_english (x : value) : bool := negb (py_eq x (VStr (lit "en"))).

Definition drop_non_english : frame -> result frame :=
  drop_where not_english "language".

(** Lines 45-52. *)
Definition language_filter (d : frame) : result frame :=
  d ← detect_language d;
  d ← drop_non_english d;
  Ok (reset_index d).

(** Lines 26-52, from the frame line 18 leaves. *)
Definition clean (d : frame) : result frame :=
  d ← strip_reviews d;
  d ← split_categories d;
  d ← repair_ratings d;
  d ← format_rating_count d;
  language_filter d.

(** Lines 67-69.  The four score columns are filled by position from the
    frame [apply] builds; on a frame without rows [apply] builds no
    frame and the assignment is refused. *)
Definition score_row (ir : Z * row) : result (Z * row) :=
  v ← get ir.2 "review_content";
  s ← polarity_scores v;
  Ok (ir.1, <["compound" := VFloat (compound s)]>
              (<["positive" := VFloat (pos s)]>
                 (<["neutral" := VFloat (neu s)]>
                    (<["negative" := VFloat (neg s)]> ir.2)))).

Definition score_reviews (d : frame) : result frame :=
  match d with
  | [] => Raise ValueError
  | _ :: _ => traverse score_row d
  end.

(** Line 71. *)
Definition label_compound : frame -> result frame :=
  assign "compound" "compound" get_sentiment.

(** What lines 67-71 make of one row. *)
Definition labelled (ir ir' : Z * row) : Prop :=
  exists v s label,
    ir.2 !! "review_content" = Some v /\ polarity_scores v = Ok s
    /\ get_sentiment (VFloat (compound s)) = Ok label
    /\ ir'.2 !! "compound" = Some label.

(** Lines 67-71. *)
Definition annotate (d : frame) : result frame :=
  d ← score_reviews d;
  label_compound d.

(** Line 74. *)
Definition stmt_explode (d : frame) : result globals :=
  e ← explode "category" d;
  Ok {| df := d; df_exploded := e |}.

(** Line 75. *)
Definition stmt_rescale (g : globals) : result globals :=
  e ← scale score_columns 100 (df_exploded g);
  Ok {| df := df g; df_exploded := e |}.

(** Line 78. *)
Definition stmt_top20 (g : globals) : result globals :=
  e ← sort_values rank_columns (df_exploded g);
  Ok {| df := df g; df_exploded := head 20 e |}.

(** Lines 74-78. *)
Definition reshape (d : frame) : result globals :=
  g ← stmt_explode d;
  g ← stmt_rescale g;
  stmt_top20 g.



(** Line 145. *)
Definition stmt_review_length (g : globals) : result globals :=
  e ← assign "review_content" "review_length"
        (fun x => Ok (VInt (Z.of_nat (length (py_str x))))) (df_exploded g);
  Ok {| df := df g; df_exploded := e |}.

(** Line 195. *)
Definition stmt_truncate_names (g : globals) : result globals :=
  e ← assign "product_name" "product_name" truncate_name (df_exploded g);
  Ok {| df := df g; df_exploded := e |}.

(** Lines 84-230: the six charts, each from [df_exploded] as it is when
    the chart is drawn.  A chart is written as soon as it is drawn, so a
    run leaves the reports written so far and the exception that ended
    it, if one did. *)
Definition draw (g : globals) : list html * option exn :=
  let c1 := render SentimentByCategory (df_exploded g) in
  let c2 := render SentimentByRating (df_exploded g) in
  let c3 := render SentimentDensity (df_exploded g) in
  match stmt_review_length g with
  | Raise e => ([c1; c2; c3], Some e)
  | Ok g =>
      let c4 := render LengthVsSentiment (df_exploded g) in
      let c5 := render CategoryStack (df_exploded g) in
      match stmt_truncate_names g with
      | Raise e => ([c1; c2; c3; c4; c5], Some e)
      | Ok g =>
          let c6 := render ProductStack (df_exploded g) in
          ([c1; c2; c3; c4; c5; c6], None)
      end
  end.

(** The frame chart 4 is drawn from. *)
Definition scatter_input (d : frame) : result frame :=
  d ← clean d;
  d ← annotate d;
  g ← reshape d;
  g ← stmt_review_length g;
  Ok (df_exploded g).

(** Lines 26-230, from the frame line 18 leaves. *)
Definition main (d : frame) : list html * option exn :=
  match d ← clean d; d ← annotate d; reshape d with
  | Raise e => ([], Some e)
  | Ok g => draw g
  end.

(** The whole script, from the records of the file. *)
Definition script (records : list row) : list html * option exn :=
  main (load records).

End Script.

(* ===================================================================== *)
(** * A sample run *)
(* ===================================================================== *)

(** Stand-ins for the collaborators, and the records of a small file: one
    record twice, one rating that is the sentinel, one missing rating
    count, one review that is not in English. *)
Definition sample_decimal (c : N) : option N := None.

Definition sample_detect (x : value) : result value :=
  match x with
  | VStr (104%N :: _) => Ok (VStr (lit "en"))
  | VStr _ => Ok (VStr (lit "es"))
  | _ => Raise TypeError
  end.

Definition sample_scores (x : value) : result scores :=
  match x with
  | VStr s =>
      let share := if Nat.even (length s) then (1 # 4)%Q else (3 # 4)%Q in
      Ok {| neg := Fin 0; neu := Fin (Qred (1 - share)); pos := Fin share;
            compound := Fin share |}
  | _ => Raise TypeError
  end.

Definition sample_repr (x : value) : str := lit "nan".

Definition sample_row (name category rating count review : value) : row :=
  <["product_name" := name]>
    (<["category" := category]>
       (<["rating" := rating]>
          (<["rating_count" := count]>
             (<["review_content" := review]> ∅)))).

Definition sample_records : list row :=
  [ sample_row (VStr (lit "A very long product name"))
      (VStr (lit "Electronics|Accessories")) (VStr (lit "4.2"))
      (VStr (lit "1,234")) (VStr (lit "hello world"));
    sample_row (VStr (lit "A very long product name"))
      (VStr (lit "Electronics|Accessories")) (VStr (lit "4.2"))
      (VStr (lit "1,234")) (VStr (lit "hello world"));
    sample_row (VStr (lit "Lamp")) (VStr (lit "Home"))
      (VStr (lit "|")) (VStr (lit "12")) (VStr (lit "hi there"));
    sample_row (VStr (lit "Kettle")) (VStr (lit "Home|Kitchen|Small"))
      (VStr (lit "3.0")) missing (VStr (lit "--hot, fast--"));
    sample_row (VStr (lit "Puzzle")) (VStr (lit "Toys"))
      (VStr (lit "5")) (VStr (lit "7")) (VStr (lit "muy bueno"));
    sample_row (VStr (lit "Robot")) (VStr (lit "Toys|Games"))
      (VStr (lit "4")) (VStr (lit "1,000,000")) (VStr (lit "happy")) ].

Definition sample_frame : frame := load sample_records.

(** What a step of the script returned, for the steps of the sample run
    (all of them return). *)
Definition returned (m : result frame) : frame :=
  match m with
  | Ok d => d
  | Raise _ => []
  end.

Definition globals_returned (m : result globals) : globals :=
  match m with
  | Ok g => g
  | Raise _ => {| df := []; df_exploded := [] |}
  end.

Definition sample_tagged : frame :=
  returned (d ← strip_reviews sample_frame;
            d ← split_categories d;
            d ← repair_ratings sample_decimal d;
            d ← format_rating_count sample_decimal sample_repr d;
            detect_language sample_detect d).
Definition sample_english : frame :=
  returned (language_filter sample_detect sample_frame).
Definition sample_counted : frame :=
  returned (format_rating_count sample_decimal sample_repr sample_frame).
Definition sample_clean : frame :=
  returned (clean sample_decimal sample_detect sample_repr sample_frame).
Definition sample_annotated : frame :=
  returned (annotate sample_scores sample_clean).
Definition sample_exploded : globals :=
  globals_returned (stmt_explode sample_annotated).
Definition sample_rescaled : globals :=
  globals_returned (stmt_rescale sample_exploded).
Definition sample_top : globals :=
  globals_returned (reshape sample_annotated).
Definition sample_named : globals :=
  globals_returned (stmt_truncate_names sample_top).
Definition sample_scatter : frame :=
  returned (scatter_input sample_decimal sample_detect sample_scores
              sample_repr sample_frame).

(** Frames for the edge cases.  One record with a missing category, a
    missing rating and a missing review: *)
Definition sample_gaps : frame :=
  [(0, sample_row (VStr (lit "Lamp")) missing missing (VStr (lit "12")) missing)].

(** one record with a missing rating: *)
Definition sample_unrated : frame :=
  [(0, sample_row (VStr (lit "Lamp")) (VStr (lit "Home")) missing
         (VStr (lit "12")) (VStr (lit "hello")))].

(** one record with a missing review, the only cell of its column: *)
Definition sample_unread : frame :=
  [(0, sample_row (VStr (lit "Lamp")) (VStr (lit "Home")) (VStr (lit "4"))
         (VStr (lit "12")) missing)].

(** and three scored rows of which the last two tie. *)
Definition sample_scored (name : string) (share : Q) : row :=
  <["product_name" := VStr (lit name)]>
    (<["positive" := VFloat (Fin share)]>
       (<["neutral" := VFloat (Fin 0)]>
          (<["negative" := VFloat (Fin 0)]> ∅))).

Definition sample_ties : frame :=
  [(0, sample_scored "low" (1 # 4)); (1, sample_scored "first" (3 # 4));
   (2, sample_scored "second" (3 # 4))].

(** One record with a review and a missing category, its numbers as
    [read_csv] parses a column of numbers: *)
Definition sample_uncategorised : frame :=
  [(0, sample_row (VStr (lit "Lamp")) missing (VFloat (Fin (9 # 2)))
         (VInt 12) (VStr (lit "hello world")))].

(** two records, the second with a missing review, which [sample_detect]
    refuses: *)
Definition sample_half_read : frame :=
  [(0, sample_row (VStr (lit "Lamp")) (VStr (lit "Home")) (VFloat (Fin (9 # 2)))
         (VInt 12) (VStr (lit "hello world")));
   (1, sample_row (VStr (lit "Kettle")) (VStr (lit "Kitchen")) (VFloat (Fin 3))
         (VInt 7) missing)].

(** and a scorer that refuses every review. *)
Definition sample_refusing_scores (x : value) : result scores :=
  Raise ExternalError.

(** An annotated frame for lines 74-78: twelve reviews with two categories
    each, whose scores (in eighths) do not come in order, so that line
    78 has twenty-four rows to sort and four to leave out. *)
Definition sample_unranked : frame :=
  (fun i : Z =>
     (i, <["category" := VList [lit "Home"; lit "Toys"]]>
           (sample_scored "Lamp" (Qred (Qmake ((3 * i) mod 8) 8)))))
    <$> seqZ 0 12.

Definition sample_ranked : globals :=
  globals_returned (reshape sample_unranked).

(* ===================================================================== *)
(** * Lemmas: rounding *)
(* ===================================================================== *)

Section Rounding.
Local Open Scope Q_scope.


Lemma round_half_even_err (q : Q) :
q - (1 # 2) <= inject_Z (round_half_even q) <= q + (1 # 2).
Proof.
unfold round_half_even.
pose proof (Qfloor_le q) as Hlo. pose proof (Qlt_floor q) as Hhi.
rewrite inject_Z_plus in Hhi. change (inject_Z 1) with 1 in Hhi.
destruct (Qcompare_spec (q - inject_Z (Qfloor q)) (1 # 2)) as [He|Hl|Hg].
- destruct (Z.even (Qfloor q)); [|rewrite inject_Z_plus; change (inject_Z 1) with 1]; lra.
- lra.
- rewrite inject_Z_plus; change (inject_Z 1) with 1; lra.
Qed.

Lemma two_pow_pos (k : Z) : 0 < 2 ^ k.
Proof. apply Qpower_0_lt; lra. Qed.

Lemma two_pow_succ (k : Z) : 2 ^ (k + 1) == 2 * 2 ^ k.
Proof. rewrite Qpower_plus by lra. change (2 ^ 1) with 2. lra. Qed.

Lemma two_pow_Z (k : Z) : (0 <= k)%Z -> inject_Z (2 ^ k) == 2 ^ k.
Proof. intros. now rewrite Zpower_Qpower. Qed.

Lemma Qlog2_lower (a : Q) : 0 < a -> 2 ^ Qlog2 a <= a.
Proof.
intros Ha. unfold Qlog2. destruct a as [n d]. cbn [Qnum Qden].
set (k := (Z.log2 n - Z.log2 (Z.pos d))%Z).
destruct (Qle_bool (2 ^ k) (n # d)) eqn:E; [now apply Qle_bool_iff|].
assert (Hn : (0 < n)%Z) by (unfold Qlt in Ha; simpl in Ha; lia).
pose proof (Z.log2_spec n Hn) as [Hn1 _].
pose proof (Z.log2_spec (Z.pos d) ltac:(lia)) as [_ Hd2].
pose proof (Z.log2_nonneg n). pose proof (Z.log2_nonneg (Z.pos d)).
(* 2^(ln) <= n, d < 2^(ld+1) *)
assert (H1 : 2 ^ Z.log2 n <= inject_Z n).
{ rewrite <- two_pow_Z by lia. now rewrite <- Zle_Qle. }
assert (H2 : inject_Z (Z.pos d) < 2 ^ (Z.log2 (Z.pos d) + 1)).
{ rewrite <- two_pow_Z by lia. rewrite <- Zlt_Qlt. replace (Z.succ (Z.log2 (Z.pos d))) with (Z.log2 (Z.pos d) + 1)%Z in Hd2 by lia. exact Hd2. }
assert (Hk : 2 ^ Z.log2 n == 2 ^ (k - 1) * 2 ^ (Z.log2 (Z.pos d) + 1)).
{ rewrite <- Qpower_plus by lra. replace (k - 1 + (Z.log2 (Z.pos d) + 1))%Z with (Z.log2 n) by (unfold k; lia). reflexivity. }
assert (Hq : n # d == inject_Z n / inject_Z (Z.pos d)) by apply Qmake_Qdiv.
rewrite Hq.
assert (Hd : 0 < inject_Z (Z.pos d)) by (rewrite <- (Zlt_Qlt 0); lia).
apply Qle_shift_div_l; [exact Hd|].
pose proof (two_pow_pos (k - 1)).
nra.
Qed.

Lemma half_ulp_bound (a : Q) :
0 < a -> 2 ^ ulp_exp a <= 2 * (a * u64 + eta64).
Proof.
intros Ha. unfold ulp_exp, u64, eta64.
pose proof (Qlog2_lower a Ha) as Hl.
pose proof (two_pow_pos (-53)) as Hu. pose proof (two_pow_pos (-1075)) as He.
destruct (Z.max_spec (Qlog2 a - 52) (-1074)) as [[_ ->]|[_ ->]].
- replace (-1074)%Z with (-1075 + 1)%Z by lia. rewrite two_pow_succ. nra.
- replace (Qlog2 a - 52)%Z with (Qlog2 a + (-53 + 1))%Z by lia.
  rewrite Qpower_plus by lra. rewrite two_pow_succ. nra.
Qed.

Lemma round_mag_err (a : Q) :
0 < a ->
a - (a * u64 + eta64) <= round_mag a <= a + (a * u64 + eta64).
Proof.
intros Ha. unfold round_mag. rewrite Qred_correct.
pose proof (half_ulp_bound a Ha) as Hb.
set (e := ulp_exp a) in *.
pose proof (two_pow_pos e) as He.
pose proof (round_half_even_err (a / 2 ^ e)) as [H1 H2].
set (m := inject_Z (round_half_even (a / 2 ^ e))) in *.
assert (Ha' : a == (a / 2 ^ e) * 2 ^ e) by (field; lra).
set (s := a / 2 ^ e) in *.
split; nra.
Qed.

Lemma overflows_false (r : Q) : r < 2 ^ 1024 -> overflows r = false.
Proof.
intros H. unfold overflows. destruct (Qle_bool (2 ^ 1024) r) eqn:E; [|reflexivity].
apply Qle_bool_iff in E. exfalso. apply (Qlt_irrefl r). eapply Qlt_le_trans; eauto.
Qed.

Lemma round64_spec (x : Q) :
Qabs x * (1 + u64) + eta64 < 2 ^ 1024 ->
exists r, round64 x = Fin r /\ Qabs (r - x) <= Qabs x * u64 + eta64.
Proof.
intros Hb. unfold round64.
destruct (Qcompare_spec x 0) as [He|Hl|Hg].
- exists 0. split; [reflexivity|].
  rewrite He. pose proof (two_pow_pos (-1075)). unfold eta64.
  change (Qabs (0 - 0)) with 0. change (Qabs 0) with 0. lra.
- assert (Hp : 0 < - x) by lra.
  pose proof (round_mag_err (- x) Hp) as [H1 H2].
  assert (Hx : Qabs x == - x) by (apply Qabs_neg; lra). rewrite Hx in Hb.
  rewrite overflows_false by (generalize dependent (2 ^ 1024); intros; nra).
  eexists; split; [reflexivity|]. rewrite Hx.
  apply Qabs_Qle_condition. split; nra.
- pose proof (round_mag_err x Hg) as [H1 H2].
  assert (Hx : Qabs x == x) by (apply Qabs_pos; lra). rewrite Hx in Hb.
  rewrite overflows_false by (generalize dependent (2 ^ 1024); intros; nra).
  eexists; split; [reflexivity|]. rewrite Hx.
  apply Qabs_Qle_condition. split; nra.
Qed.

End Rounding.

(** ** The float model on known doubles *)

(** 0.1 is 0x3FB999999999999A. *)
Example round64_tenth :
  round64 (1 # 10) = Fin (3602879701896397 # 2 ^ 55).
Proof. vm_compute. reflexivity. Qed.

(** 0.1 * 3 is 0.30000000000000004, a tie broken to the even neighbour. *)
Example fmul_tenth_three :
  fmul (round64 (1 # 10)) (float_of_Z 3) = Fin (1351079888211149 # 2 ^ 52).
Proof. vm_compute. reflexivity. Qed.

(** 2^53 + 1 and 2^53 + 3 go to their even neighbours. *)
Example round64_ties_to_even :
  float_of_Z (2 ^ 53 + 1) = Fin (inject_Z (2 ^ 53))
  /\ float_of_Z (2 ^ 53 + 3) = Fin (inject_Z (2 ^ 53 + 4)).
Proof. split; vm_compute; reflexivity. Qed.

(** The largest double, the overflow just above it, the least subnormal
    and the underflow to zero below half of it. *)
Example round64_range :
  round64 (inject_Z ((2 ^ 53 - 1) * 2 ^ 971))
  = Fin (inject_Z ((2 ^ 53 - 1) * 2 ^ 971))
  /\ round64 (inject_Z ((2 ^ 54 - 1) * 2 ^ 970)) = PInf
  /\ round64 (3 # 2 ^ 1076) = Fin (1 # 2 ^ 1074)
  /\ round64 (1 # 2 ^ 1075) = Fin 0.
Proof. split_and!; vm_compute; reflexivity. Qed.

Example float_of_str_examples (to_decimal : N -> option N) :
  float_of_str to_decimal (lit "4.2") = Some (Fin (4728779608739021 # 2 ^ 50))
  /\ float_of_str to_decimal (lit " 1_000.5e-1 ")
     = Some (Fin (7040392854975283 # 2 ^ 46))
  /\ float_of_str to_decimal (lit "1e400") = Some PInf
  /\ float_of_str to_decimal (lit "-Infinity") = Some NInf
  /\ float_of_str to_decimal (lit "NaN") = Some NaN
  /\ float_of_str to_decimal (lit "1__0") = None
  /\ float_of_str to_decimal (lit "1e") = None
  /\ float_of_str to_decimal (lit "") = None
  /\ float_of_str to_decimal (lit "|") = None.
Proof. split_and!; vm_compute; reflexivity. Qed.

Example split_examples :
  split 124 (lit "Electronics|Accessories")
  = [lit "Electronics"; lit "Accessories"]
  /\ split 124 (lit "") = [lit ""]
  /\ split 124 (lit "a||") = [lit "a"; lit ""; lit ""].
Proof. split_and!; reflexivity. Qed.

(* ===================================================================== *)
(** * Lemmas: exceptions, columns and loops *)
(* ===================================================================== *)


(** ** The error monad and [traverse] *)

Lemma bind_Ok {A B : Type} (m : result A) (f : A -> result B) (b : B) :
  m ≫= f = Ok b <-> exists a, m = Ok a /\ f a = Ok b.
Proof.
  destruct m as [a|e]; simpl; split.
  - eauto.
  - intros (a' & [= <-] & H). exact H.
  - discriminate.
  - intros (a' & [=] & _).
Qed.

Lemma fmap_Ok {A B : Type} (m : result A) (f : A -> B) (b : B) :
  f <$> m = Ok b <-> exists a, m = Ok a /\ b = f a.
Proof.
  destruct m as [a|e]; simpl; split.
  - intros [= <-]. eauto.
  - intros (a' & [= <-] & ->). reflexivity.
  - discriminate.
  - intros (a' & [=] & _).
Qed.

Ltac inv_ok :=
  repeat match goal with
    | H : _ ≫= _ = Ok _ |- _ => apply bind_Ok in H; destruct H as (? & ? & H)
    | H : _ <$> _ = Ok _ |- _ => apply fmap_Ok in H; destruct H as (? & H & ?)
    | H : Ok _ = Ok _ |- _ => injection H as H
    | H : Raise _ = Ok _ |- _ => discriminate H
    end.

Lemma traverse_Ok {A B : Type} (f : A -> result B) (l : list A) (l' : list B) :
  traverse f l = Ok l' <-> Forall2 (fun x y => f x = Ok y) l l'.
Proof.
  revert l'. induction l as [|x l IH]; intros l'; simpl.
  - split; [intros [= <-]; constructor | intros H; inversion H; reflexivity].
  - split.
    + intros H. inv_ok. subst l'. constructor; [assumption|]. now apply IH.
    + intros H. inversion H as [|? y ? ys Hx Hl]; subst.
      rewrite Hx. simpl. apply IH in Hl. rewrite Hl. reflexivity.
Qed.

Lemma traverse_Raise {A B : Type} (f : A -> result B) (l : list A) (x : A) (e : exn) :
  x ∈ l -> f x = Raise e -> exists e', traverse f l = Raise e'.
Proof.
  induction 1 as [x l|x y l Hin IH]; intros Hx; simpl.
  - rewrite Hx. eauto.
  - destruct (f y); simpl; [|eauto].
    destruct (IH Hx) as [e' ->]. eauto.
Qed.

Lemma traverse_total {A B : Type} (f : A -> result B) (l : list A) :
  Forall (fun x => exists y, f x = Ok y) l -> exists l', traverse f l = Ok l'.
Proof.
  induction 1 as [|x l [y Hy] _ [l' IH]]; simpl; [eauto|].
  rewrite Hy, IH. simpl. eauto.
Qed.

(** ** Column assignment *)

Lemma get_Ok (r : row) (c : string) (v : value) : get r c = Ok v <-> r !! c = Some v.
Proof. unfold get. destruct (r !! c); split; congruence. Qed.

Lemma assign_Ok src dst f (d d' : frame) :
  assign src dst f d = Ok d' <-> Forall2 (assigned src dst f) d d'.
Proof.
  unfold assign. rewrite traverse_Ok.
  split; intros H; (eapply Forall2_impl; [exact H|]); intros ir ir'; unfold assigned; simpl.
  - intros Hb. inv_ok. apply get_Ok in H0. subst ir'. eauto.
  - intros (v & w & Hv & Hw & ->). apply get_Ok in Hv. rewrite Hv. simpl. rewrite Hw. reflexivity.
Qed.

Lemma assign_index src dst f (d d' : frame) :
  assign src dst f d = Ok d' -> index d' = index d.
Proof.
  rewrite assign_Ok. unfold index.
  induction 1 as [|ir ir' d d' (v & w & _ & _ & ->) _ IH]; [reflexivity|].
  cbn. f_equal. exact IH.
Qed.

(** An assignment with a function that cannot fail, followed by another on
    the same column, yields what the one assignment of the composition
    yields. *)
Lemma assign_assign c (f : value -> value) (g : value -> result value) (d d' : frame) :
  assign c c (fun x => Ok (f x)) d ≫= assign c c g = Ok d'
  <-> assign c c (fun x => g (f x)) d = Ok d'.
Proof.
  rewrite bind_Ok. setoid_rewrite assign_Ok. split.
  - intros (d1 & H1 & H2). revert d' H2.
    induction H1 as [|ir ir1 d d1 (v & w & Hv & [= <-] & ->) _ IH]; intros d' H2;
      inversion H2 as [|? ir' ? d'' (v' & w' & Hv' & Hw' & ->) Hrest]; subst; constructor; auto.
    simpl in *. rewrite lookup_insert_eq in Hv'. injection Hv' as <-.
    exists v, w'. rewrite insert_insert_eq. auto.
  - induction 1 as [|ir ir' d d' (v & w & Hv & Hw & ->) _ (d1 & IH1 & IH2)].
    + exists []. split; constructor.
    + exists ((ir.1, <[c := f v]> ir.2) :: d1). split; constructor; auto.
      * exists v, (f v). auto.
      * exists (f v), w. simpl. rewrite lookup_insert_eq, insert_insert_eq. auto.
Qed.

(** ** The row-deletion loops *)

Lemma filter_none (x : Z) (l : frame) :
  x ∉ index l -> filter (fun ir : Z * row => ir.1 = x) l = [].
Proof.
  unfold index. induction l as [|[i r] l IH]; intros Hx; [reflexivity|].
  cbn in Hx. rewrite not_elem_of_cons in Hx. destruct Hx as [Hne Hx].
  rewrite filter_cons_False by (simpl; congruence). auto.
Qed.

Lemma filter_all (x : Z) (l : frame) :
  x ∉ index l -> filter (fun ir : Z * row => ir.1 ≠ x) l = l.
Proof.
  unfold index. induction l as [|[i r] l IH]; intros Hx; [reflexivity|].
  cbn in Hx. rewrite not_elem_of_cons in Hx. destruct Hx as [Hne Hx].
  rewrite filter_cons_True by (simpl; congruence). f_equal. auto.
Qed.

Lemma index_app (l1 l2 : frame) : index (l1 ++ l2) = index l1 ++ index l2.
Proof. unfold index. apply fmap_app. Qed.

Lemma unique_label (acc l : frame) (x : Z) (r : row) :
  NoDup (index (acc ++ (x, r) :: l)) ->
  filter (fun ir : Z * row => ir.1 = x) (acc ++ (x, r) :: l) = [(x, r)]
  /\ filter (fun ir : Z * row => ir.1 ≠ x) (acc ++ (x, r) :: l) = acc ++ l.
Proof.
  rewrite index_app. cbn. intros Hnd.
  apply NoDup_app in Hnd as (_ & Hdisj & Hnd').
  apply NoDup_cons in Hnd' as (Hxl & _).
  assert (Hxa : x ∉ index acc).
  { intros Hin. apply (Hdisj x Hin). left. }
  rewrite !filter_app, !filter_cons_True, !filter_cons_False by (simpl; congruence).
  rewrite (filter_none x acc), (filter_none x l), (filter_all x acc), (filter_all x l) by assumption.
  split; reflexivity.
Qed.

Lemma drop_loop_filter (test : value -> bool) (c : string) (l acc : frame) :
  NoDup (index (acc ++ l)) ->
  Forall (fun ir : Z * row => is_Some (ir.2 !! c)) l ->
  drop_loop test c (index l) (acc ++ l) = Ok (acc ++ filter_pass test c l).
Proof.
  revert acc. induction l as [|[x r] l IH]; intros acc Hnd Hcol; [reflexivity|].
  apply Forall_cons in Hcol as ([v Hv] & Hcol). simpl in Hv.
  destruct (unique_label acc l x r Hnd) as [Hsel Hrem].
  cbn [index fmap list_fmap fst drop_loop]. unfold loc. rewrite Hsel.
  cbn [snd]. unfold get. rewrite Hv. cbn [mbind result_bind].
  unfold filter_pass. 
  destruct (test v) eqn:Ht.
  - unfold drop_label. rewrite bool_decide_true.
    2:{ rewrite index_app. cbn. set_solver. }
    rewrite Hrem. cbn [mbind result_bind].
    rewrite filter_cons_False by (unfold meets; simpl; rewrite Hv, Ht; discriminate).
    apply IH; [|assumption].
    rewrite index_app in *. cbn in Hnd.
    apply NoDup_app in Hnd as (H1 & H2 & H3). apply NoDup_cons in H3 as [_ H3].
    apply NoDup_app. split_and!; auto. intros y Hy Hy'. apply (H2 y Hy). now right.
  - cbn [mbind result_bind].
    rewrite filter_cons_True by (unfold meets; simpl; rewrite Hv, Ht; reflexivity).
    specialize (IH (acc ++ [(x, r)])). rewrite <- !app_assoc in IH. apply IH; assumption.
Qed.

Lemma drop_where_filter (test : value -> bool) (c : string) (d : frame) :
  NoDup (index d) ->
  Forall (fun ir : Z * row => is_Some (ir.2 !! c)) d ->
  drop_where test c d = Ok (filter_pass test c d).
Proof. intros. apply (drop_loop_filter test c d []); assumption. Qed.

(** Without any assumption on the labels: what the loop returns is made of
    rows of the frame, and none of them meets the test. *)
Lemma drop_loop_survivors (test : value -> bool) (c : string) (labels : list Z) (d d' : frame) :
  drop_loop test c labels d = Ok d' ->
  d' ⊆ d /\
  forall ir, ir ∈ d' -> ir.1 ∈ labels -> exists v, ir.2 !! c = Some v /\ test v = false.
Proof.
  revert d. induction labels as [|x rest IH]; intros d H.
  - injection H as <-. split; [done|]. intros ir _ Hin. inversion Hin.
  - cbn [drop_loop] in H. apply bind_Ok in H as (v & Hloc & H).
    apply bind_Ok in H as (d1 & Hd1 & H).
    destruct (IH _ H) as [Hsub Hgood].
    assert (Hd1sub : d1 ⊆ d).
    { destruct (test v); [|injection Hd1 as <-; done].
      unfold drop_label in Hd1. case_bool_decide; [|discriminate].
      injection Hd1 as <-. intros ir Hir. apply list_elem_of_filter in Hir. tauto. }
    split; [intros ir Hir; apply Hd1sub, Hsub, Hir|].
    intros ir Hir Hlab.
    destruct (decide (ir.1 ∈ rest)) as [Hr|Hr]; [auto|].
    apply elem_of_cons in Hlab as [Hx|?]; [|contradiction].
    pose proof (Hsub _ Hir) as Hir1.
    destruct (test v) eqn:Ht.
    + unfold drop_label in Hd1. case_bool_decide; [|discriminate].
      injection Hd1 as <-. apply list_elem_of_filter in Hir1 as [Hne _]. contradiction.
    + injection Hd1 as <-. unfold loc in Hloc.
      assert (Hf : ir ∈ filter (fun jr : Z * row => jr.1 = x) d)
        by (apply list_elem_of_filter; auto).
      destruct (filter _ d) as [|jr [|? ?]]; [discriminate| |discriminate].
      apply list_elem_of_singleton in Hf as ->. apply get_Ok in Hloc. eauto.
Qed.

Lemma drop_where_survivors (test : value -> bool) (c : string) (d d' : frame) :
  drop_where test c d = Ok d' ->
  d' ⊆ d /\ Forall (fun ir : Z * row => exists v, ir.2 !! c = Some v /\ test v = false) d'.
Proof.
  intros H. apply drop_loop_survivors in H as [Hsub H]. split; [assumption|].
  apply Forall_forall. intros ir Hir. apply H; [assumption|].
  unfold index. apply list_elem_of_fmap. exists ir. split; [reflexivity|]. auto.
Qed.


Lemma str_eqb_eq (s t : str) : str_eqb s t = true <-> s = t.
Proof. unfold str_eqb. apply bool_decide_eq_true. Qed.


Lemma not_english_spec (x : value) : not_english x = false <-> x = VStr (lit "en").
Proof.
  unfold not_english, py_eq. rewrite negb_false_iff.
  destruct x; try (split; [discriminate|intros [=]]).
  rewrite str_eqb_eq. split; congruence.
Qed.

Lemma reset_index_index (d : frame) :
  index (reset_index d) = seqZ 0 (Z.of_nat (length d)).
Proof.
  unfold index, reset_index. apply fst_zip.
  rewrite length_seqZ, length_fmap. lia.
Qed.

Lemma reset_index_rows (d : frame) : (reset_index d).*2 = d.*2.
Proof.
  unfold reset_index. apply snd_zip.
  rewrite length_seqZ, length_fmap. lia.
Qed.

Lemma reset_index_length (d : frame) : length (reset_index d) = length d.
Proof. rewrite <- (length_fmap snd), reset_index_rows, length_fmap. reflexivity. Qed.

Lemma Forall2_in_r {A B : Type} (P : A -> B -> Prop) (l : list A) (k : list B) (y : B) :
  Forall2 P l k -> y ∈ k -> exists x, x ∈ l /\ P x y.
Proof.
  induction 1 as [|x y' l k Hxy _ IH]; intros Hin; [inversion Hin|].
  apply elem_of_cons in Hin as [->|Hin].
  - exists x. split; [left|assumption].
  - destruct (IH Hin) as (x' & Hx' & HP). exists x'. split; [now right|assumption].
Qed.

Lemma lit_0_05_value : lit_0_05 = Fin (3602879701896397 # 72057594037927936).
Proof. vm_compute. reflexivity. Qed.

Lemma Qle_bool_false (x y : Q) : Qle_bool x y = false <-> (y < x)%Q.
Proof.
  rewrite <- not_true_iff_false, Qle_bool_iff. split; [apply Qnot_le_lt|apply Qlt_not_le].
Qed.

Lemma negative_excludes_positive (c : pyfloat) :
  flt c (fneg lit_0_05) = true -> fge c lit_0_05 = false.
Proof.
  rewrite lit_0_05_value. destruct c as [x| | |]; cbn; try (intros; congruence).
  rewrite negb_true_iff, !Qle_bool_false.
  intros H. eapply Qlt_trans; [exact H|]. reflexivity.
Qed.

(** ** Following one column through the script *)

Lemma cells_from_refl (c : string) (d : frame) : cells_from c d d.
Proof. intros ir Hir. eauto. Qed.

Lemma cells_from_trans (c : string) (d1 d2 d3 : frame) :
  cells_from c d1 d2 -> cells_from c d2 d3 -> cells_from c d1 d3.
Proof.
  intros H12 H23 ir3 H3. destruct (H23 _ H3) as (ir2 & H2 & E2).
  destruct (H12 _ H2) as (ir1 & H1 & E1). exists ir1. split; [assumption|congruence].
Qed.

Lemma cells_from_subseteq (c : string) (d d' : frame) : d' ⊆ d -> cells_from c d d'.
Proof. intros Hsub ir Hir. exists ir. auto. Qed.

Lemma cells_from_Forall2 (c : string) (R : Z * row -> Z * row -> Prop) (d d' : frame) :
  (forall ir ir', R ir ir' -> ir'.2 !! c = ir.2 !! c) ->
  Forall2 R d d' -> cells_from c d d'.
Proof.
  intros HR H ir' Hir'. destruct (Forall2_in_r _ _ _ _ H Hir') as (ir & Hir & Hrel).
  exists ir. split; [assumption|]. now apply HR.
Qed.

Lemma cells_from_assign (c src dst : string) f (d d' : frame) :
  dst ≠ c -> assign src dst f d = Ok d' -> cells_from c d d'.
Proof.
  intros Hne H. apply assign_Ok in H. eapply cells_from_Forall2; [|exact H].
  intros ir ir' (v & w & _ & _ & ->). cbn. now apply lookup_insert_ne.
Qed.

Lemma cells_from_drop_where (c : string) test col (d d' : frame) :
  drop_where test col d = Ok d' -> cells_from c d d'.
Proof. intros H. apply drop_where_survivors in H as [Hsub _]. now apply cells_from_subseteq. Qed.

Lemma cells_from_reset_index (c : string) (d : frame) : cells_from c d (reset_index d).
Proof.
  intros [i r] Hir.
  assert (Hr : r ∈ d.*2).
  { rewrite <- reset_index_rows. apply list_elem_of_fmap. exists (i, r). auto. }
  apply list_elem_of_fmap in Hr as (jr & -> & Hjr). eauto.
Qed.

Lemma transfer (c : string) (P : option value -> Prop) (d d' : frame) :
  cells_from c d d' ->
  Forall (fun ir : Z * row => P (ir.2 !! c)) d ->
  Forall (fun ir : Z * row => P (ir.2 !! c)) d'.
Proof.
  intros Hfrom HP. rewrite Forall_forall in *. intros ir' Hir'.
  destruct (Hfrom _ Hir') as (ir & Hir & ->). auto.
Qed.

(** ** [split] and [explode] *)

Lemma split_nonempty (sep : N) (s : str) : split sep s ≠ [].
Proof.
  destruct s as [|c s]; cbn [split]; [discriminate|].
  destruct (N.eqb c sep); [discriminate|]. destruct (split sep s); discriminate.
Qed.

Lemma explode_row_list (ir : Z * row) (l : list str) :
  ir.2 !! "category" = Some (VList l) -> l ≠ [] ->
  exists grp, explode_row "category" ir = Ok grp /\ exploded_from ir grp.
Proof.
  intros Hl Hne. unfold explode_row. rewrite (proj2 (get_Ok _ _ _) Hl). cbn [mbind result_bind].
  destruct l as [|s l]; [contradiction|]. eexists. split; [reflexivity|].
  unfold exploded_from, category_list. rewrite Hl. split.
  - rewrite <- list_fmap_compose. apply list_fmap_ext. intros _ s' _. cbn.
    apply lookup_insert_eq.
  - apply Forall_fmap, Forall_forall. intros s' _. cbn. split; [reflexivity|].
    intros c Hc. apply lookup_insert_ne. congruence.
Qed.

Lemma explode_groups (d e : frame) :
  Forall (fun ir : Z * row =>
            exists l, ir.2 !! "category" = Some (VList l) /\ l ≠ []) d ->
  explode "category" d = Ok e ->
  exists groups, e = concat groups /\ Forall2 exploded_from d groups.
Proof.
  intros Hcat H. unfold explode in H. apply bind_Ok in H as (groups & Ht & [= <-]).
  exists groups. split; [reflexivity|]. apply traverse_Ok in Ht.
  induction Ht as [|ir grp d groups Hrow _ IH]; [constructor|].
  apply Forall_cons in Hcat as ((l & Hl & Hne) & Hcat).
  constructor; [|auto].
  destruct (explode_row_list ir l Hl Hne) as (grp' & Hrow' & Hg). congruence.
Qed.

Lemma explode_total (d : frame) :
  Forall (fun ir : Z * row => is_Some (ir.2 !! "category")) d ->
  exists e, explode "category" d = Ok e.
Proof.
  intros Hcat. unfold explode.
  destruct (traverse_total (explode_row "category") d) as [l ->]; [|cbn; eauto].
  eapply Forall_impl; [exact Hcat|]. intros ir [v Hv]. unfold explode_row.
  rewrite (proj2 (get_Ok _ _ _) Hv). cbn. eauto.
Qed.

Lemma groups_count (d : frame) (groups : list frame) :
  Forall2 exploded_from d groups ->
  length (concat groups) = sum_list ((fun ir => length (category_list ir)) <$> d).
Proof.
  induction 1 as [|ir grp d groups [Hcats _] _ IH]; [reflexivity|].
  cbn. rewrite length_app, IH. f_equal.
  rewrite <- (length_fmap (fun jr : Z * row => jr.2 !! "category")), Hcats.
  apply length_fmap.
Qed.

(** ** The descending order *)

Ltac q_cases :=
  repeat match goal with
    | |- context [Qle_bool ?x ?y] =>
        let E := fresh "E" in
        destruct (Qle_bool x y) eqn:E;
        [apply Qle_bool_iff in E | apply Qle_bool_false in E]
    | H : context [Qle_bool ?x ?y] |- _ =>
        let E := fresh "E" in
        destruct (Qle_bool x y) eqn:E;
        [apply Qle_bool_iff in E | apply Qle_bool_false in E]
    end.

Ltac float_cases :=
  unfold desc_cmp, above, tied, fgt, flt; intros;
  repeat match goal with a : pyfloat |- _ => destruct a end;
  cbn in *; q_cases; cbn in *;
  try congruence; try tauto; try (exfalso; lra); try (intuition congruence).

Lemma desc_cmp_antisym (a b : pyfloat) : desc_cmp b a = CompOpp (desc_cmp a b).
Proof. float_cases. Qed.

Lemma desc_cmp_Lt (a b : pyfloat) : desc_cmp a b = Lt <-> above a b.
Proof. float_cases. Qed.

Lemma desc_cmp_Eq (a b : pyfloat) : desc_cmp a b = Eq <-> tied a b.
Proof. float_cases. Qed.

Lemma desc_cmp_Eq_l (a b c : pyfloat) :
  desc_cmp a b = Eq -> desc_cmp a c = desc_cmp b c.
Proof. float_cases. Qed.

Lemma desc_cmp_Eq_r (a b c : pyfloat) :
  desc_cmp b c = Eq -> desc_cmp a c = desc_cmp a b.
Proof. float_cases. Qed.

Lemma desc_cmp_Lt_trans (a b c : pyfloat) :
  desc_cmp a b = Lt -> desc_cmp b c = Lt -> desc_cmp a c = Lt.
Proof. float_cases. Qed.

Lemma key_cmp_antisym (k1 k2 : list pyfloat) :
  key_cmp k2 k1 = CompOpp (key_cmp k1 k2).
Proof.
  revert k2. induction k1 as [|a k1 IH]; intros [|b k2]; cbn; try reflexivity.
  rewrite (desc_cmp_antisym a b). destruct (desc_cmp a b); cbn; auto.
Qed.

Lemma key_cmp_lex_ge (k1 k2 : list pyfloat) : key_cmp k1 k2 ≠ Gt <-> lex_ge k1 k2.
Proof.
  revert k2. induction k1 as [|a k1 IH]; intros [|b k2]; cbn; try (split; [tauto|discriminate]).
  rewrite <- desc_cmp_Lt, <- desc_cmp_Eq, <- IH.
  destruct (desc_cmp a b); split; intros H; try tauto; try discriminate;
    destruct H as [H|[H H']]; congruence.
Qed.

(** On keys of one length the order is transitive. *)
Lemma key_cmp_trans (k1 k2 k3 : list pyfloat) :
  length k1 = length k2 -> length k2 = length k3 ->
  key_cmp k1 k2 ≠ Gt -> key_cmp k2 k3 ≠ Gt -> key_cmp k1 k3 ≠ Gt.
Proof.
  revert k2 k3. induction k1 as [|a k1 IH]; intros [|b k2] [|c k3]; cbn; try discriminate; try congruence.
  intros [= L1] [= L2].
  destruct (desc_cmp a b) eqn:Eab; [| |congruence].
  - rewrite (desc_cmp_Eq_l a b c Eab).
    destruct (desc_cmp b c); [apply IH; assumption|discriminate|congruence].
  - intros _. destruct (desc_cmp b c) eqn:Ebc; [| |congruence]; intros _.
    + rewrite (desc_cmp_Eq_r a b c Ebc), Eab. discriminate.
    + rewrite (desc_cmp_Lt_trans a b c Eab Ebc). discriminate.
Qed.

(** ** The stable insertion sort *)

Section Sorting.
Context {A : Type}.
Implicit Types (x y : list pyfloat * A) (l : list (list pyfloat * A)).

Lemma insert_desc_elem x y l : y ∈ insert_desc x l <-> y = x \/ y ∈ l.
Proof.
  induction l as [|z l IH]; cbn.
  - rewrite list_elem_of_singleton, elem_of_nil. tauto.
  - destruct (key_cmp x.1 z.1); rewrite !elem_of_cons; tauto.
Qed.

Lemma sort_desc_elem y l : y ∈ sort_desc l <-> y ∈ l.
Proof.
  unfold sort_desc. induction l as [|x l IH]; cbn; [reflexivity|].
  rewrite insert_desc_elem, elem_of_cons, IH. reflexivity.
Qed.

Lemma insert_desc_length x l : length (insert_desc x l) = S (length l).
Proof.
  induction l as [|z l IH]; cbn; [reflexivity|].
  destruct (key_cmp x.1 z.1); cbn; congruence.
Qed.

Lemma sort_desc_length l : length (sort_desc l) = length l.
Proof.
  unfold sort_desc. induction l as [|x l IH]; cbn; [reflexivity|].
  rewrite insert_desc_length. congruence.
Qed.

Lemma insert_desc_sorted (n : nat) x l :
  length x.1 = n -> Forall (fun y => length y.1 = n) l ->
  StronglySorted before l -> StronglySorted before (insert_desc x l).
Proof.
  intros Hx Hlen Hs. induction Hs as [|z l Hs IH Hz]; cbn.
  - repeat constructor.
  - apply Forall_cons in Hlen as [Hzn Hlen].
    destruct (key_cmp x.1 z.1) eqn:E.
    + constructor; [constructor; assumption|].
      constructor; [unfold before; congruence|].
      rewrite Forall_forall in *. intros y Hy. unfold before in *.
      apply (key_cmp_trans _ z.1); [congruence|rewrite Hzn; symmetry; auto|congruence|auto].
    + constructor; [constructor; assumption|].
      constructor; [unfold before; congruence|].
      rewrite Forall_forall in *. intros y Hy. unfold before in *.
      apply (key_cmp_trans _ z.1); [congruence|rewrite Hzn; symmetry; auto|congruence|auto].
    + constructor; [auto|].
      apply Forall_forall. intros y Hy. apply insert_desc_elem in Hy as [->|Hy].
      * unfold before. rewrite key_cmp_antisym, E. discriminate.
      * rewrite Forall_forall in Hz. auto.
Qed.

Lemma sort_desc_sorted (n : nat) l :
  Forall (fun y => length y.1 = n) l -> StronglySorted before (sort_desc l).
Proof.
  unfold sort_desc. induction 1 as [|x l Hx Hl IH]; cbn; [constructor|].
  apply (insert_desc_sorted n).
  - assumption.
  - apply Forall_forall. intros y Hy.
    change (foldr insert_desc [] l) with (sort_desc l) in Hy.
    rewrite sort_desc_elem in Hy. rewrite Forall_forall in Hl. apply Hl, Hy.
  - exact IH.
Qed.
End Sorting.

Lemma StronglySorted_take {A : Type} (R : relation A) (n : nat) (l : list A) :
  StronglySorted R l -> StronglySorted R (take n l).
Proof.
  intros Hs. revert n. induction Hs as [|x l Hs IH Hx]; intros [|n]; cbn; try constructor; auto.
  apply Forall_forall. intros y Hy. rewrite Forall_forall in Hx. apply Hx.
  eapply subseteq_take, Hy.
Qed.

Lemma traverse_length {A B : Type} (f : A -> result B) (l : list A) (l' : list B) :
  traverse f l = Ok l' -> length l' = length l.
Proof. intros H. apply traverse_Ok in H. symmetry. eapply Forall2_length, H. Qed.

Lemma insert_desc_perm {A : Type} (x : list pyfloat * A) (l : list (list pyfloat * A)) :
  insert_desc x l ≡ₚ x :: l.
Proof.
  induction l as [|z l IH]; cbn; [reflexivity|].
  destruct (key_cmp x.1 z.1); try reflexivity.
  rewrite IH. apply Permutation_swap.
Qed.

Lemma sort_desc_perm {A : Type} (l : list (list pyfloat * A)) : sort_desc l ≡ₚ l.
Proof.
  unfold sort_desc. induction l as [|x l IH]; cbn; [reflexivity|].
  rewrite insert_desc_perm. now constructor.
Qed.

Lemma StronglySorted_fmap_Forall {A B : Type} (f : A -> B) (R1 : relation A)
  (R2 : relation B) (P : A -> Prop) (l : list A) :
  (forall x y, P x -> P y -> R1 x y -> R2 (f x) (f y)) ->
  Forall P l -> StronglySorted R1 l -> StronglySorted R2 (f <$> l).
Proof.
  intros HR HP Hs. induction Hs as [|x l Hs IH Hx]; cbn; [constructor|].
  apply Forall_cons in HP as [Px HP]. constructor; [auto|].
  apply Forall_fmap, Forall_forall. intros y Hy. rewrite Forall_forall in Hx, HP.
  cbn. apply HR; auto.
Qed.

(** What [sort_values] returns: the rows of the frame, each once, in
    non-increasing order of their keys. *)
Lemma sort_values_spec (by_ : list string) (d e : frame) :
  sort_values by_ d = Ok e ->
  e ≡ₚ d /\ StronglySorted (row_ge by_) e.
Proof.
  unfold sort_values. intros H. apply bind_Ok in H as (keyed & Hk & [= <-]).
  apply traverse_Ok in Hk.
  assert (Hkey : Forall (fun y : list pyfloat * (Z * row) =>
                           sort_key by_ y.2.2 = Ok y.1) keyed).
  { apply Forall_forall. intros y Hy.
    destruct (Forall2_in_r _ _ _ _ Hk Hy) as (ir & _ & Hrow).
    apply bind_Ok in Hrow as (k & Hkk & [= <-]). exact Hkk. }
  assert (Hrows : keyed.*2 = d).
  { clear Hkey. induction Hk as [|ir y d keyed Hrow _ IH]; [reflexivity|].
    apply bind_Ok in Hrow as (k & _ & [= <-]). cbn. now rewrite IH. }
  split.
  - rewrite <- Hrows. apply fmap_Permutation, sort_desc_perm.
  - apply (StronglySorted_fmap_Forall snd before _
             (fun y => sort_key by_ y.2.2 = Ok y.1)).
    + intros x y Hx Hy Hb. exists x.1, y.1. split_and!; [assumption..|].
      now apply key_cmp_lex_ge.
    + apply Forall_forall. intros y Hy. rewrite sort_desc_elem in Hy.
      rewrite Forall_forall in Hkey. apply Hkey, Hy.
    + apply (sort_desc_sorted (length by_)).
      eapply Forall_impl; [exact Hkey|]. intros y Hy. cbn in Hy.
      unfold sort_key in Hy. now apply traverse_length in Hy.
Qed.

Lemma Ok_inj {A : Type} (a b : A) : Ok a = Ok b -> a = b.
Proof. now intros [= ->]. Qed.

(** ** More columns followed *)

Lemma scale_row_other (cols : list string) (n : Z) (r r' : row) (c : string) :
  scale_row cols n r = Ok r' -> c ∉ cols -> r' !! c = r !! c.
Proof.
  unfold scale_row. revert r'. induction cols as [|col cols IH]; intros r' H Hc; cbn in H.
  - now injection H as <-.
  - apply not_elem_of_cons in Hc as [Hne Hc].
    apply bind_Ok in H as (r1 & H1 & H). apply bind_Ok in H as (v & _ & [= <-]).
    rewrite lookup_insert_ne by congruence. auto.
Qed.

Lemma cells_from_scale (c : string) (cols : list string) (n : Z) (d d' : frame) :
  c ∉ cols -> scale cols n d = Ok d' -> cells_from c d d'.
Proof.
  intros Hc H. unfold scale in H. apply traverse_Ok in H.
  eapply cells_from_Forall2; [|exact H]. intros ir ir' Hrow.
  apply bind_Ok in Hrow as (r' & Hr & [= <-]). cbn. eapply scale_row_other; eauto.
Qed.

Lemma cells_from_explode (c col : string) (d e : frame) :
  c ≠ col -> explode col d = Ok e -> cells_from c d e.
Proof.
  intros Hne H. unfold explode in H. apply bind_Ok in H as (groups & Ht & [= <-]).
  apply traverse_Ok in Ht. intros ir' Hir'.
  apply list_elem_of_In, in_concat in Hir' as (grp & Hgrp & Hir').
  apply list_elem_of_In in Hgrp, Hir'.
  destruct (Forall2_in_r _ _ _ _ Ht Hgrp) as (ir & Hir & Hrow).
  exists ir. split; [assumption|].
  unfold explode_row in Hrow. apply bind_Ok in Hrow as (v & _ & [= <-]).
  destruct v as [| | |[|s l]]; try (apply list_elem_of_singleton in Hir' as ->; try reflexivity).
  - cbn. rewrite lookup_insert_ne by congruence. reflexivity.
  - apply list_elem_of_fmap in Hir' as (s' & -> & _). cbn.
    rewrite lookup_insert_ne by congruence. reflexivity.
Qed.

Lemma cells_from_sort_values (c : string) (by_ : list string) (d e : frame) :
  sort_values by_ d = Ok e -> cells_from c d e.
Proof.
  intros H. apply sort_values_spec in H as [Hp _].
  apply cells_from_subseteq. intros ir Hir. now rewrite <- Hp.
Qed.

Lemma cells_from_head (c : string) (n : nat) (d : frame) : cells_from c d (head n d).
Proof. apply cells_from_subseteq, subseteq_take. Qed.

(** ** The labels *)

Lemma get_sentiment_label (x w : value) :
  get_sentiment x = Ok w -> exists s, w = VStr s /\ s ∈ labels.
Proof.
  unfold get_sentiment, labels. intros H. apply bind_Ok in H as (f & _ & H).
  destruct (fge f lit_0_05); [|destruct (flt f (fneg lit_0_05))];
    injection H as <-; eexists; (split; [reflexivity|]); set_solver.
Qed.

(** ** Rescaling a score *)

Lemma float_of_Z_100 : float_of_Z 100 = Fin 100.
Proof. vm_compute. reflexivity. Qed.

Lemma roundoff_small : (0 < u64 /\ u64 <= 1 /\ 0 < eta64 /\ eta64 <= 1)%Q.
Proof. unfold u64, eta64. repeat split; vm_compute; congruence. Qed.

Lemma no_overflow_below_402 : (402 < 2 ^ 1024)%Q.
Proof. vm_compute. reflexivity. Qed.

(** A weight times 100: the product is finite and off by at most the
    relative roundoff of the exact product, plus the subnormal term. *)
Lemma rescale_score (x : Q) :
  (0 <= x <= 2)%Q ->
  exists r, fmul (Fin x) (float_of_Z 100) = Fin r
            /\ (Qabs (r - 100 * x) <= 100 * x * u64 + eta64)%Q.
Proof.
  intros [H0 H1]. rewrite float_of_Z_100. cbn [fmul].
  destruct roundoff_small as (Hu0 & Hu1 & He0 & He1).
  pose proof no_overflow_below_402 as Hbig.
  assert (Habs : (Qabs (x * 100) == x * 100)%Q) by (apply Qabs_pos; lra).
  destruct (round64_spec (x * 100)) as (r & -> & Hr).
  - rewrite Habs. generalize dependent (2 ^ 1024)%Q. intros. nra.
  - exists r. split; [reflexivity|]. rewrite Habs in Hr.
    apply Qabs_Qle_condition in Hr as [Hr1 Hr2]. apply Qabs_Qle_condition. split; nra.
Qed.

Lemma scale_row_scores (r : row) (vn vu vp : value) :
  r !! "negative" = Some vn -> r !! "neutral" = Some vu -> r !! "positive" = Some vp ->
  scale_row score_columns 100 r
  = Ok (<["negative" := mul_int vn 100]>
          (<["neutral" := mul_int vu 100]>
             (<["positive" := mul_int vp 100]> r))).
Proof.
  intros Hn Hu Hp. unfold scale_row, score_columns, get. cbn [foldr].
  rewrite Hn, Hu, Hp. reflexivity.
Qed.

(** ** The labels stay distinct *)

Lemma read_csv_index (records : list row) :
  index (read_csv records) = seqZ 0 (Z.of_nat (length records)).
Proof. unfold index, read_csv. apply fst_zip. rewrite length_seqZ. lia. Qed.

Lemma drop_duplicates_sublist (seen : list row) (d : frame) :
  drop_duplicates_from seen d `sublist_of` d.
Proof.
  revert seen. induction d as [|ir d IH]; intros seen; cbn; [constructor|].
  case_bool_decide; [apply sublist_cons|apply sublist_skip]; apply IH.
Qed.

Lemma sublist_labels (d d' : frame) :
  d' `sublist_of` d -> NoDup (index d) -> NoDup (index d').
Proof.
  intros Hsub Hnd. eapply sublist_NoDup; [exact Hnd|]. unfold index.
  now apply fmap_sublist.
Qed.

Lemma load_labels (records : list row) : NoDup (index (load records)).
Proof.
  apply (sublist_labels (read_csv records)); [apply drop_duplicates_sublist|].
  rewrite read_csv_index. apply NoDup_seqZ.
Qed.

Lemma drop_loop_sublist test c labels (d d' : frame) :
  drop_loop test c labels d = Ok d' -> d' `sublist_of` d.
Proof.
  revert d. induction labels as [|x rest IH]; intros d H; cbn [drop_loop] in H.
  - apply Ok_inj in H as <-. reflexivity.
  - apply bind_Ok in H as (v & _ & H). apply bind_Ok in H as (d1 & Hd1 & H).
    etrans; [apply (IH _ H)|].
    destruct (test v); [|apply Ok_inj in Hd1 as <-; reflexivity].
    unfold drop_label in Hd1. case_bool_decide; [|discriminate].
    apply Ok_inj in Hd1 as <-. apply sublist_filter.
Qed.

Lemma drop_where_labels test c (d d' : frame) :
  drop_where test c d = Ok d' -> NoDup (index d) -> NoDup (index d').
Proof. intros H. apply sublist_labels. eapply drop_loop_sublist, H. Qed.

Lemma assign_labels src dst f (d d' : frame) :
  assign src dst f d = Ok d' -> NoDup (index d) -> NoDup (index d').
Proof. intros H. now rewrite (assign_index _ _ _ _ _ H). Qed.

(** ** Line 26 *)

(** When line 26 returns, it returns what the assignment of the stripped
    column returns. *)
Lemma strip_reviews_Ok (d d' : frame) :
  strip_reviews d = Ok d' ->
  assign "review_content" "review_content"
    (fun x => Ok (str_method (strip strip_chars) x)) d = Ok d'.
Proof.
  unfold strip_reviews. intros H. apply bind_Ok in H as (cells & _ & H).
  apply bind_Ok in H as (u & _ & H). exact H.
Qed.

(* ===================================================================== *)
(** * The properties of the specification *)
(* ===================================================================== *)

Section Properties.
Variable to_decimal : N -> option N.
Variable detect : value -> result value.
Variable polarity_scores : value -> result scores.
Variable repr : value -> str.
Variable html : Type.
Variable render : chart -> frame -> html.

(** C10. On a frame whose index labels are distinct and whose rows all
    have the column tested, each of the two row-deletion loops (the
    rating-sentinel loop of lines 32-34 and the language loop of lines
    48-50) returns exactly what a filter pass returns: the rows whose
    cell does not meet the drop test, in their original order.  In the
    script the labels are distinct at both loops, whatever the records of
    the file are. *)
Theorem deletion_loops_are_filter_passes :
  (forall d : frame,
      NoDup (index d) ->
      (Forall (fun ir : Z * row => is_Some (ir.2 !! "rating")) d ->
       drop_sentinel_ratings d = Ok (filter_pass is_sentinel "rating" d))
      /\ (Forall (fun ir : Z * row => is_Some (ir.2 !! "language")) d ->
          drop_non_english d = Ok (filter_pass not_english "language" d)))
  /\ (forall (records : list row) (d : frame),
        (d ← strip_reviews (load records); split_categories d) = Ok d ->
        NoDup (index d))
  /\ (forall (records : list row) (d : frame),
        (d ← strip_reviews (load records);
         d ← split_categories d;
         d ← repair_ratings to_decimal d;
         d ← format_rating_count to_decimal repr d;
         detect_language detect d) = Ok d ->
        NoDup (index d)).
Proof.
  split_and!.
  - intros d Hnd. split; intros Hcol; apply drop_where_filter; assumption.
  - intros records d H.
    apply bind_Ok in H as (d1 & H1 & H2).
    eapply assign_labels; [exact H2|].
    eapply assign_labels; [exact (strip_reviews_Ok _ _ H1)|].
    apply load_labels.
  - intros records d H. unfold repair_ratings, format_rating_count in H.
    apply bind_Ok in H as (d1 & H1 & H).
    apply bind_Ok in H as (d2 & H2 & H).
    apply bind_Ok in H as (d4 & H34 & H). apply bind_Ok in H34 as (d3 & H3 & H4).
    apply bind_Ok in H as (d7 & H57 & H8). apply bind_Ok in H57 as (d5 & H5 & H57).
    apply bind_Ok in H57 as (d6 & H6 & H7).
    eapply assign_labels; [exact H8|]. eapply assign_labels; [exact H7|].
    eapply assign_labels; [exact H6|]. eapply assign_labels; [exact H5|].
    eapply assign_labels; [exact H4|]. eapply drop_where_labels; [exact H3|].
    eapply assign_labels; [exact H2|].
    eapply assign_labels; [exact (strip_reviews_Ok _ _ H1)|].
    apply load_labels.
Qed.

(** The language filter returns when the labels are distinct and the
    language of every review is detected. *)
Lemma language_filter_returns (d : frame) :
  NoDup (index d) ->
  Forall (fun ir : Z * row =>
            exists v w, ir.2 !! "review_content" = Some v /\ detect v = Ok w) d ->
  exists d', language_filter detect d = Ok d'.
Proof.
  intros Hnd Hdet. unfold language_filter, detect_language.
  destruct (traverse_total
              (fun ir : Z * row =>
                 v ← get ir.2 "review_content"; w ← detect v;
                 Ok (ir.1, <["language" := w]> ir.2)) d) as [d1 H1].
  { eapply Forall_impl; [exact Hdet|]. intros ir (v & w & Hv & Hw).
    apply get_Ok in Hv. cbn beta. rewrite Hv. cbn. rewrite Hw. cbn. eauto. }
  fold (assign "review_content" "language" detect d) in H1. rewrite H1.
  cbn [mbind result_bind]. unfold drop_non_english.
  rewrite drop_where_filter; [cbn; eauto|..].
  - eapply assign_labels; eassumption.
  - apply assign_Ok in H1. apply Forall_forall. intros ir' Hir'.
    destruct (Forall2_in_r _ _ _ _ H1 Hir') as (ir & _ & v & w & _ & _ & ->).
    cbn. rewrite lookup_insert_eq. eauto.
Qed.

(** C5. Whenever the language filter (lines 45-52) returns, every row
    it returns has the detected language code "en", and the index labels
    of the frame are 0, 1, ..., n-1; and it does return when the labels of
    the frame are distinct and the language of every review is
    detected. *)
Theorem language_filter_english_contiguous :
  (forall d d' : frame,
      language_filter detect d = Ok d' ->
      Forall (fun ir : Z * row => ir.2 !! "language" = Some (VStr (lit "en"))) d'
      /\ index d' = seqZ 0 (Z.of_nat (length d')))
  /\ (forall d : frame,
        NoDup (index d) ->
        Forall (fun ir : Z * row =>
                  exists v w, ir.2 !! "review_content" = Some v
                              /\ detect v = Ok w) d ->
        exists d', language_filter detect d = Ok d').
Proof.
  split; [|apply language_filter_returns].
  intros d d'.
  unfold language_filter. intros H.
  apply bind_Ok in H as (tagged & _ & H).
  apply bind_Ok in H as (kept & Hloop & [= <-]).
  split; [|rewrite reset_index_index, reset_index_length; reflexivity].
  apply drop_where_survivors in Hloop as [_ Hen].
  apply Forall_forall. intros [i r] Hir.
  assert (Hr : r ∈ kept.*2).
  { rewrite <- reset_index_rows. apply list_elem_of_fmap. exists (i, r). auto. }
  apply list_elem_of_fmap in Hr as ([j r'] & -> & Hjr).
  rewrite Forall_forall in Hen. destruct (Hen _ Hjr) as (v & Hv & Ht).
  apply not_english_spec in Ht. subst v. exact Hv.
Qed.



Lemma format_ratings_Ok (d d' : frame) :
  format_ratings to_decimal d = Ok d' <-> Forall2 (coerced to_decimal) d d'.
Proof.
  unfold format_ratings. rewrite assign_Ok.
  split; intros H; (eapply Forall2_impl; [exact H|]); intros ir ir'.
  - intros (v & w & Hv & Hw & ->). apply fmap_Ok in Hw as (f & Hf & ->). exists v, f. auto.
  - intros (v & f & Hv & Hf & ->). exists v, (VFloat f). rewrite Hf. auto.
Qed.


Lemma replace_removes (c : N) (s : str) :
  replace c [] s = filter (fun a => a ≠ c) s.
Proof.
  unfold replace. induction s as [|a s IH]; [reflexivity|].
  cbn [mbind list_bind]. rewrite IH.
  destruct (N.eqb_spec a c) as [->|Hne].
  - rewrite filter_cons_False by congruence. reflexivity.
  - rewrite filter_cons_True by assumption. reflexivity.
Qed.

(** C4. The repair of a rating count (lines 40-42) maps a missing cell
    to 0.0, the string "1,234" to 1234.0, and any string to what [float]
    makes of it once its commas are removed; on the column it is this
    cell-wise repair, and every cell of the column it returns is a
    float. *)
Theorem rating_count_repair (d : frame) :
  repair_rating_count to_decimal repr missing = Ok (Fin 0)
  /\ repair_rating_count to_decimal repr (VStr (lit "1,234")) = Ok (Fin 1234)
  /\ (forall s,
        repair_rating_count to_decimal repr (VStr s)
        = py_float to_decimal (VStr (filter (fun a => a ≠ 44%N) s)))
  /\ (forall d',
        format_rating_count to_decimal repr d = Ok d'
        <-> assign "rating_count" "rating_count"
              (fun x => VFloat <$> repair_rating_count to_decimal repr x) d = Ok d')
  /\ (forall d',
        format_rating_count to_decimal repr d = Ok d' ->
        Forall (fun ir : Z * row =>
                  exists f, ir.2 !! "rating_count" = Some (VFloat f)) d').
Proof.
  assert (Hcol : forall d',
    format_rating_count to_decimal repr d = Ok d'
    <-> assign "rating_count" "rating_count"
          (fun x => VFloat <$> repair_rating_count to_decimal repr x) d = Ok d').
  { intros d'.
    set (h := fun x => str_method (replace 44 []) (VStr (py_str repr x))).
    set (g2 := fun x => VFloat <$> py_float to_decimal x).
    pose proof (assign_assign "rating_count" fillna0 (fun y => g2 (h y)) d d') as Hout.
    unfold format_rating_count. fold h. fold g2.
    change (fun x => VFloat <$> repair_rating_count to_decimal repr x)
      with (fun x => g2 (h (fillna0 x))).
    rewrite <- Hout, !bind_Ok.
    split; intros (d1 & H1 & H2); exists d1; (split; [exact H1|]);
      apply (assign_assign "rating_count" h g2 d1 d'); exact H2. }
  split_and!.
  - reflexivity.
  - reflexivity.
  - intros s. unfold repair_rating_count. cbn [fillna0 py_str str_method]. now rewrite replace_removes.
  - exact Hcol.
  - intros d' H. apply Hcol, assign_Ok in H.
    apply Forall_forall. intros ir' Hir'.
    destruct (Forall2_in_r _ _ _ _ H Hir') as (ir & _ & v & w & _ & Hw & ->).
    apply fmap_Ok in Hw as (f & _ & ->). exists f. simpl. apply lookup_insert_eq.
Qed.


Lemma annotate_labelled (d d' : frame) :
  annotate polarity_scores d = Ok d' -> Forall2 (labelled polarity_scores) d d'.
Proof.
  unfold annotate. intros H. apply bind_Ok in H as (d1 & Hs & Hl).
  assert (Hs' : traverse (score_row polarity_scores) d = Ok d1)
    by (destruct d; [discriminate|exact Hs]).
  apply traverse_Ok in Hs'. apply assign_Ok in Hl. clear Hs.
  revert d' Hl. induction Hs' as [|ir ir1 d d1 Hrow _ IH]; intros d' Hl;
    inversion Hl as [|? ir' ? d'' (c & label & Hc & Hlab & ->) Hrest]; subst; constructor; auto.
  unfold score_row in Hrow. apply bind_Ok in Hrow as (v & Hv & Hrow).
  apply bind_Ok in Hrow as (s & Hsc & [= <-]). apply get_Ok in Hv.
  cbn in Hc. rewrite lookup_insert_eq in Hc. injection Hc as <-.
  exists v, s, label. cbn. rewrite lookup_insert_eq. auto.
Qed.

(** C2. For every compound score [c]: if [c >= 0.05] the label is
    "Positivo", if [c < -0.05] the label is "Negative", and otherwise it
    is "Neutral"; and every row annotation returns carries, in its
    compound column, the label [get_sentiment] gives to the compound
    score of its review. *)
Theorem sentiment_label_thresholds :
  (forall c : pyfloat,
      (fge c lit_0_05 = true ->
       get_sentiment (VFloat c) = Ok (VStr (lit "Positivo")))
      /\ (flt c (fneg lit_0_05) = true ->
          get_sentiment (VFloat c) = Ok (VStr (lit "Negative")))
      /\ (fge c lit_0_05 = false -> flt c (fneg lit_0_05) = false ->
          get_sentiment (VFloat c) = Ok (VStr (lit "Neutral"))))
  /\ (forall d d' : frame,
        annotate polarity_scores d = Ok d' -> Forall2 (labelled polarity_scores) d d').
Proof.
  split; [|apply annotate_labelled].
  intros c. unfold get_sentiment. cbn [number mbind result_bind]. split_and!.
  - intros ->. reflexivity.
  - intros Hlt. rewrite (negative_excludes_positive c Hlt), Hlt. reflexivity.
  - intros -> ->. reflexivity.
Qed.

(** C9. The truncation of line 195 maps a name of more than 10
    characters to its first 10 characters followed by "..." (13
    characters in all) and leaves a name of at most 10 characters as it
    is; line 195 applies it to the product name of every row of the
    exploded frame, before chart 6 is drawn. *)
Theorem product_name_truncation :
  (forall x : str,
      ((10 < length x)%nat ->
       truncate x = take 10 x ++ lit "..." /\ length (truncate x) = 13%nat)
      /\ ((length x <= 10)%nat -> truncate x = x)
      /\ truncate_name (VStr x) = Ok (VStr (truncate x)))
  /\ (forall g g' : globals,
        stmt_truncate_names g = Ok g' ->
        df g' = df g
        /\ Forall2 (assigned "product_name" "product_name" truncate_name)
             (df_exploded g) (df_exploded g')).
Proof.
  split.
  - intros x. unfold truncate. split_and!.
    + intros Hlen. apply Nat.ltb_lt in Hlen as Hb. rewrite Hb.
      split; [reflexivity|]. rewrite length_app, length_take, Nat.min_l by lia. reflexivity.
    + intros Hlen. apply Nat.ltb_ge in Hlen as Hb. rewrite Hb. reflexivity.
    + reflexivity.
  - intros g g' H. unfold stmt_truncate_names in H.
    apply bind_Ok in H as (e & He & [= <-]). cbn. split; [reflexivity|].
    now apply assign_Ok.
Qed.


Lemma clean_categories (d0 d : frame) :
  clean to_decimal detect repr d0 = Ok d ->
  Forall (fun ir : Z * row => split_cell (ir.2 !! "category")) d.
Proof.
  unfold clean, repair_ratings, format_rating_count, language_filter. intros H.
  apply bind_Ok in H as (d1 & _ & H).
  apply bind_Ok in H as (d2 & Hsplit & H).
  apply bind_Ok in H as (d4 & H34 & H).
  apply bind_Ok in H34 as (d3 & H3 & H4).
  apply bind_Ok in H as (d7 & H57 & H).
  apply bind_Ok in H57 as (d5 & H5 & H57).
  apply bind_Ok in H57 as (d6 & H6 & H7).
  apply bind_Ok in H as (d8 & H8 & H).
  apply bind_Ok in H as (d9 & H9 & [= <-]).
  assert (H2 : Forall (fun ir : Z * row => split_cell (ir.2 !! "category")) d2).
  { apply assign_Ok in Hsplit. apply Forall_forall. intros ir' Hir'.
    destruct (Forall2_in_r _ _ _ _ Hsplit Hir') as (ir & _ & v & w & _ & Hw & ->).
    destruct v; try discriminate. injection Hw as <-. cbn.
    rewrite lookup_insert_eq. eexists; reflexivity. }
  eapply transfer; [|exact H2].
  repeat (eapply cells_from_trans;
          [first [ eapply cells_from_drop_where; eassumption
                 | eapply cells_from_assign; [|eassumption]; discriminate ]|]).
  apply cells_from_reset_index.
Qed.

Lemma cells_from_annotate (c : string) (d d' : frame) :
  c ∉ ["negative"; "neutral"; "positive"; "compound"] ->
  annotate polarity_scores d = Ok d' -> cells_from c d d'.
Proof.
  intros Hc H. repeat (apply not_elem_of_cons in Hc as [? Hc]).
  unfold annotate in H. apply bind_Ok in H as (d1 & Hs & Hl).
  assert (Hs' : traverse (score_row polarity_scores) d = Ok d1)
    by (destruct d; [discriminate|exact Hs]).
  apply traverse_Ok in Hs'.
  eapply cells_from_trans.
  - eapply cells_from_Forall2; [|exact Hs'].
    intros ir ir' Hrow. unfold score_row in Hrow.
    apply bind_Ok in Hrow as (v & _ & Hrow).
    apply bind_Ok in Hrow as (s & _ & [= <-]). cbn.
    rewrite !lookup_insert_ne by congruence. reflexivity.
  - eapply cells_from_assign; [|exact Hl]. congruence.
Qed.

(** C6. When the script reaches line 74, the exploded frame has as many
    rows as the category lists of the annotated frame have elements in
    total, and it is the concatenation of one group per annotated row:
    one row per category of the list, in order, under the label of the
    row and with the cells of the row in every column but category. *)
Theorem explode_counts_and_copies (d0 d1 d : frame) (g : globals) :
  clean to_decimal detect repr d0 = Ok d1 ->
  annotate polarity_scores d1 = Ok d ->
  stmt_explode d = Ok g ->
  length (df_exploded g)
  = sum_list ((fun ir => length (category_list ir)) <$> d)
  /\ exists groups,
       df_exploded g = concat groups /\ Forall2 exploded_from d groups.
Proof.
  intros Hclean Hann Hexp.
  assert (Hcat : Forall (fun ir : Z * row =>
                   exists l, ir.2 !! "category" = Some (VList l) /\ l ≠ []) d).
  { eapply Forall_impl.
    - eapply transfer; [|exact (clean_categories d0 d1 Hclean)].
      eapply cells_from_annotate; [|exact Hann].
      repeat (apply not_elem_of_cons; split; [discriminate|]). apply not_elem_of_nil.
    - intros ir [s Hs]. exists (split 124 s). split; [exact Hs|apply split_nonempty]. }
  unfold stmt_explode in Hexp. apply bind_Ok in Hexp as (e & He & [= <-]). cbn.
  destruct (explode_groups d e Hcat He) as (groups & -> & Hg).
  split; [now apply groups_count|eauto].
Qed.


Lemma annotate_labels (d d' : frame) :
  annotate polarity_scores d = Ok d' ->
  Forall (fun ir : Z * row => is_label (ir.2 !! "compound")) d'.
Proof.
  unfold annotate. intros H. apply bind_Ok in H as (d1 & _ & Hl).
  apply assign_Ok in Hl. apply Forall_forall. intros ir' Hir'.
  destruct (Forall2_in_r _ _ _ _ Hl Hir') as (ir & _ & v & w & _ & Hw & ->).
  apply get_sentiment_label in Hw as (s & -> & Hs). exists s. cbn.
  rewrite lookup_insert_eq. auto.
Qed.

Lemma cells_from_reshape (c : string) (d : frame) (g : globals) :
  c ∉ "category" :: score_columns ->
  reshape d = Ok g -> cells_from c d (df_exploded g).
Proof.
  intros Hc H. apply not_elem_of_cons in Hc as [Hcat Hc].
  unfold reshape, stmt_explode, stmt_rescale, stmt_top20 in H.
  apply bind_Ok in H as (g1 & H1 & H). apply bind_Ok in H1 as (e1 & He1 & [= <-]).
  apply bind_Ok in H as (g2 & H2 & H). apply bind_Ok in H2 as (e2 & He2 & [= <-]).
  apply bind_Ok in H as (e3 & He3 & H). apply Ok_inj in H as <-.
  eapply cells_from_trans; [eapply cells_from_explode; eassumption|].
  eapply cells_from_trans; [eapply cells_from_scale; eassumption|].
  eapply cells_from_trans; [eapply cells_from_sort_values; eassumption|].
  exact (cells_from_head c 20 e3).
Qed.

(** The fourth report of a run is the scatter plot of [scatter_input]. *)
Lemma fourth_report (d0 : frame) (c4 : html) :
  (main to_decimal detect polarity_scores repr html render d0).1 !! 3%nat = Some c4 ->
  exists e,
    scatter_input to_decimal detect polarity_scores repr d0 = Ok e
    /\ c4 = render LengthVsSentiment e.
Proof.
  unfold main, scatter_input.
  destruct (clean to_decimal detect repr d0) as [d1|?]; cbn [mbind result_bind];
    [|discriminate].
  destruct (annotate polarity_scores d1) as [d2|?]; cbn [mbind result_bind];
    [|discriminate].
  destruct (reshape d2) as [g|?]; cbn [mbind result_bind]; [|discriminate].
  unfold draw.
  destruct (stmt_review_length repr g) as [g'|?]; cbn [mbind result_bind];
    [|discriminate].
  destruct (stmt_truncate_names g') as [g''|?]; cbn; intros [= <-]; eauto.
Qed.


(** C1 (refuted by the code). When chart 4 is drawn, the compound cell
    of every row of its frame is one of the three labels "Positivo",
    "Negative", "Neutral" that line 71 has put there, and never a float:
    the numeric compound score is gone before the scatter plot reads the
    column for its y axis and its colour scale.  The fourth report of a
    run is the scatter plot of that frame. *)
Theorem scatter_compound_is_a_label :
  (forall d0 e : frame,
      scatter_input to_decimal detect polarity_scores repr d0 = Ok e ->
      Forall (fun ir : Z * row =>
                is_label (ir.2 !! "compound")
                /\ forall f : pyfloat, ir.2 !! "compound" ≠ Some (VFloat f)) e)
  /\ (forall (d0 : frame) (c4 : html),
        (main to_decimal detect polarity_scores repr html render d0).1 !! 3%nat
        = Some c4 ->
        exists e,
          scatter_input to_decimal detect polarity_scores repr d0 = Ok e
          /\ c4 = render LengthVsSentiment e).
Proof.
  split; [|apply fourth_report].
  intros d0 e.
  unfold scatter_input. intros H.
  apply bind_Ok in H as (d1 & _ & H). apply bind_Ok in H as (d2 & Hann & H).
  apply bind_Ok in H as (g & Hre & H). apply bind_Ok in H as (g' & Hlen & [= <-]).
  unfold stmt_review_length in Hlen. apply bind_Ok in Hlen as (e' & He' & [= <-]). cbn.
  assert (Hlab : Forall (fun ir : Z * row => is_label (ir.2 !! "compound")) e').
  { eapply transfer; [|exact (annotate_labels d1 d2 Hann)].
    eapply cells_from_trans; [eapply cells_from_reshape; [|eassumption]|].
    - unfold score_columns.
      repeat (apply not_elem_of_cons; split; [discriminate|]). apply not_elem_of_nil.
    - eapply cells_from_assign; [|eassumption]. discriminate. }
  eapply Forall_impl; [exact Hlab|]. intros ir Hl. split; [exact Hl|].
  intros f Hf. destruct Hl as (s & Hs & _). congruence.
Qed.

(** ** The order read off the cells *)

Lemma StronglySorted_impl {A : Type} (R R' : A -> A -> Prop) (l : list A) :
  (forall x y, R x y -> R' x y) -> StronglySorted R l -> StronglySorted R' l.
Proof.
  intros HR. induction 1 as [|x l _ IH Hx]; constructor; [exact IH|].
  eapply Forall_impl; [exact Hx|]. intros y. apply HR.
Qed.

Lemma get_float_Ok (r : row) (c : string) (f : pyfloat) :
  get_float r c = Ok f <-> r !! c = Some (VFloat f).
Proof.
  unfold get_float, get. destruct (r !! c) as [[s|f'|z|l]|]; cbn;
    split; congruence.
Qed.

Lemma rank_key_cells (r : row) (k : list pyfloat) :
  sort_key rank_columns r = Ok k ->
  exists p u n, k = [p; u; n]
                /\ r !! "positive" = Some (VFloat p)
                /\ r !! "neutral" = Some (VFloat u)
                /\ r !! "negative" = Some (VFloat n).
Proof.
  unfold sort_key, rank_columns. cbn [traverse]. intros H.
  apply bind_Ok in H as (p & Hp & H). apply bind_Ok in H as (rest & H & [= <-]).
  apply bind_Ok in H as (u & Hu & H). apply bind_Ok in H as (rest' & H & [= <-]).
  apply bind_Ok in H as (n & Hn & H). apply bind_Ok in H as (rest'' & [= <-] & [= <-]).
  apply get_float_Ok in Hp, Hu, Hn. exists p, u, n. auto.
Qed.

Lemma row_ge_tuple (r1 r2 : Z * row) : row_ge rank_columns r1 r2 -> tuple_ge r1 r2.
Proof.
  intros (k1 & k2 & H1 & H2 & Hge).
  apply rank_key_cells in H1 as (p1 & u1 & n1 & -> & Hp1 & Hu1 & Hn1).
  apply rank_key_cells in H2 as (p2 & u2 & n2 & -> & Hp2 & Hu2 & Hn2).
  exists p1, u1, n1, p2, u2, n2. split_and!; try assumption.
  cbn in Hge. tauto.
Qed.

Lemma drawn_from_refl (e : frame) : drawn_from e e.
Proof. apply Forall2_same_length_lookup. split; [reflexivity|]. intros i x y Hx Hy. rewrite Hx in Hy. injection Hy as <-. auto. Qed.

Lemma drawn_from_assign (slice e e' : frame) (src dst : string) f :
  dst = "review_length" \/ dst = "product_name" ->
  drawn_from slice e -> assign src dst f e = Ok e' -> drawn_from slice e'.
Proof.
  intros Hdst Hfrom H. apply assign_Ok in H. unfold drawn_from in *.
  revert e' H. induction Hfrom as [|ir ir1 slice e [Hl Hc] _ IH]; intros e' H;
    inversion H as [|? ir' ? e'' (v & w & _ & _ & ->) Hrest]; subst; constructor.
  - split; [exact Hl|]. intros c H1 H2. cbn.
    rewrite lookup_insert_ne by (destruct Hdst; congruence). now apply Hc.
  - now apply IH.
Qed.

(** C7. Whenever lines 74-78 return, the exploded frame they leave has
    at most 20 rows and is sorted non-increasing by the (positive,
    neutral, negative) cells of its rows under lexicographic comparison,
    which are floats in every row; it is the first 20 rows of an
    arrangement, sorted in this way, of all exploded and rescaled rows;
    and the six charts consume this slice alone: two states that agree on
    it give the same charts, and every chart is rendered from a frame
    that has the rows of the slice, in their order, under their labels
    and with their cells in every column but review_length and
    product_name. *)
Theorem top20_sorted_and_consumed (d : frame) (g : globals) :
  reshape d = Ok g ->
  (length (df_exploded g) <= 20)%nat
  /\ StronglySorted tuple_ge (df_exploded g)
  /\ (exists (g0 : globals) (sorted : frame),
        (stmt_explode d ≫= stmt_rescale) = Ok g0
        /\ sorted ≡ₚ df_exploded g0
        /\ StronglySorted tuple_ge sorted
        /\ df_exploded g = take 20 sorted)
  /\ (forall g' : globals,
        df_exploded g' = df_exploded g ->
        draw repr html render g' = draw repr html render g)
  /\ (exists frames : list frame,
        (draw repr html render g).1 = zip_with render all_charts frames
        /\ Forall (drawn_from (df_exploded g)) frames).
Proof.
  intros H. unfold reshape in H.
  apply bind_Ok in H as (g1 & H1 & H). apply bind_Ok in H as (g2 & H2 & H).
  unfold stmt_top20 in H. apply bind_Ok in H as (e3 & He3 & H).
  apply Ok_inj in H as <-.
  change (df_exploded {| df := df g2; df_exploded := head 20 e3 |})
    with (head 20 e3).
  apply sort_values_spec in He3 as [Hp Hs].
  apply (StronglySorted_impl _ tuple_ge _ row_ge_tuple) in Hs.
  split_and!.
  - unfold head. rewrite length_take. lia.
  - now apply StronglySorted_take.
  - exists g2, e3. rewrite H1. cbn. auto.
  - intros g' Hg'. unfold draw, stmt_review_length, stmt_truncate_names.
    cbn [df_exploded df]. rewrite Hg'.
    destruct (assign "review_content" "review_length" _ (head 20 e3)) as [e4|?];
      cbn [mbind result_bind df_exploded]; [|reflexivity].
    destruct (assign "product_name" "product_name" truncate_name e4) as [e5|?];
      reflexivity.
  - unfold draw, stmt_review_length, stmt_truncate_names. cbn [df_exploded df].
    pose proof (drawn_from_refl (head 20 e3)) as H0.
    destruct (assign "review_content" "review_length" _ (head 20 e3)) as [e4|?] eqn:E4;
      cbn [mbind result_bind df_exploded].
    2:{ exists [head 20 e3; head 20 e3; head 20 e3]. split; [reflexivity|].
        repeat constructor; assumption. }
    pose proof (drawn_from_assign _ _ _ _ _ _ (or_introl eq_refl) H0 E4) as H4.
    destruct (assign "product_name" "product_name" truncate_name e4) as [e5|?] eqn:E5;
      cbn [mbind result_bind df_exploded].
    + pose proof (drawn_from_assign _ _ _ _ _ _ (or_intror eq_refl) H4 E5) as H5.
      exists [head 20 e3; head 20 e3; head 20 e3; e4; e4; e5]. split; [reflexivity|].
      repeat constructor; assumption.
    + exists [head 20 e3; head 20 e3; head 20 e3; e4; e4]. split; [reflexivity|].
      repeat constructor; assumption.
Qed.


(** C8. Line 75 changes the exploded frame only: the frame [df] is the
    same before and after, each exploded row is replaced by its rescaled
    row, and [df] is still the annotated frame when lines 74-78 are
    done.  For a row whose three scores are non-negative weights that sum
    to 1 within [tol] (at most 1), the rescaled scores are finite and sum
    to 100 within [100 * tol], plus the rounding of the three products:
    at most [100 * (1 + tol) * 2^-53 + 3 * 2^-1075]. *)
Theorem rescale_view_only_and_sum :
  (forall g g' : globals,
      stmt_rescale g = Ok g' ->
      df g' = df g
      /\ Forall2 (fun ir ir' : Z * row =>
                    ir'.1 = ir.1
                    /\ scale_row score_columns 100 ir.2 = Ok ir'.2)
           (df_exploded g) (df_exploded g'))
  /\ (forall (d : frame) (g : globals), reshape d = Ok g -> df g = d)
  /\ (forall (r : row) (n u p tol : Q),
        r !! "negative" = Some (VFloat (Fin n)) ->
        r !! "neutral" = Some (VFloat (Fin u)) ->
        r !! "positive" = Some (VFloat (Fin p)) ->
        (0 <= n)%Q -> (0 <= u)%Q -> (0 <= p)%Q ->
        (Qabs (n + u + p - 1) <= tol)%Q -> (tol <= 1)%Q ->
        exists (r' : row) (n' u' p' : Q),
          scale_row score_columns 100 r = Ok r'
          /\ r' !! "negative" = Some (VFloat (Fin n'))
          /\ r' !! "neutral" = Some (VFloat (Fin u'))
          /\ r' !! "positive" = Some (VFloat (Fin p'))
          /\ (Qabs (n' + u' + p' - 100)
              <= 100 * tol + 100 * (1 + tol) * u64 + 3 * eta64)%Q).
Proof.
  split_and!.
  - intros g g' H. unfold stmt_rescale in H.
    apply bind_Ok in H as (e & He & H). apply Ok_inj in H as <-.
    split; [reflexivity|]. cbn [df_exploded]. unfold scale in He.
    apply traverse_Ok in He. eapply Forall2_impl; [exact He|].
    intros ir ir' Hrow. apply bind_Ok in Hrow as (r' & Hr & H).
    apply Ok_inj in H as <-. auto.
  - intros d g H. unfold reshape, stmt_explode, stmt_rescale, stmt_top20 in H.
    apply bind_Ok in H as (g1 & H1 & H). apply bind_Ok in H1 as (e1 & _ & H1).
    apply Ok_inj in H1 as <-.
    apply bind_Ok in H as (g2 & H2 & H). apply bind_Ok in H2 as (e2 & _ & H2).
    apply Ok_inj in H2 as <-.
    apply bind_Ok in H as (e3 & _ & H). apply Ok_inj in H as <-. reflexivity.
  - intros r n u p tol Hn Hu Hp Rn Ru Rp Hsum Htol.
    destruct roundoff_small as (Hu0 & _ & _ & _).
    apply Qabs_Qle_condition in Hsum as [Hlo Hhi].
    destruct (rescale_score n ltac:(lra)) as (n' & En & Bn).
    destruct (rescale_score u ltac:(lra)) as (u' & Eu & Bu).
    destruct (rescale_score p ltac:(lra)) as (p' & Ep & Bp).
    eexists _, n', u', p'. split; [apply (scale_row_scores r _ _ _ Hn Hu Hp)|].
    cbn [mul_int]. rewrite En, Eu, Ep.
    split_and!.
    + apply lookup_insert_eq.
    + rewrite lookup_insert_ne by discriminate. apply lookup_insert_eq.
    + rewrite !lookup_insert_ne by discriminate. apply lookup_insert_eq.
    + apply Qabs_Qle_condition in Bn as [? ?], Bu as [? ?], Bp as [? ?].
      apply Qabs_Qle_condition. split; nra.
Qed.
End Properties.

(* ===================================================================== *)
(** * Further properties of the script *)
(* ===================================================================== *)

(** ** Two lists in step *)

Lemma Forall2_in_l {A B : Type} (P : A -> B -> Prop) (l : list A) (k : list B) (x : A) :
  Forall2 P l k -> x ∈ l -> exists y, y ∈ k /\ P x y.
Proof.
  induction 1 as [|x' y l k Hxy _ IH]; intros Hin; [inversion Hin|].
  apply elem_of_cons in Hin as [->|Hin].
  - exists y. split; [left|assumption].
  - destruct (IH Hin) as (y' & Hy' & HP). exists y'. split; [now right|assumption].
Qed.

(** ** Splitting and stripping *)

Lemma split_cons (sep c : N) (s : str) :
  split sep (c :: s)
  = if N.eqb c sep then [] :: split sep s
    else match split sep s with
         | w :: ws => (c :: w) :: ws
         | [] => [[c]]
         end.
Proof. reflexivity. Qed.

Lemma join_cons_cons (sep : N) (w v : str) (ws : list str) :
  join sep (w :: v :: ws) = w ++ sep :: join sep (v :: ws).
Proof. reflexivity. Qed.

Lemma join_split (sep : N) (s : str) : join sep (split sep s) = s.
Proof.
  induction s as [|c s IH]; [reflexivity|].
  rewrite split_cons. pose proof (split_nonempty sep s) as Hne.
  destruct (N.eqb_spec c sep) as [->|Hc].
  - destruct (split sep s) as [|w ws]; [contradiction|].
    rewrite join_cons_cons, IH. reflexivity.
  - destruct (split sep s) as [|w ws]; [contradiction|].
    destruct ws as [|v ws]; cbn in IH |- *; now rewrite <- IH.
Qed.

Lemma split_parts_clean (sep : N) (s : str) :
  Forall (fun w : str => sep ∉ w) (split sep s).
Proof.
  induction s as [|c s IH]; [repeat constructor; apply not_elem_of_nil|].
  rewrite split_cons. destruct (N.eqb_spec c sep) as [->|Hc].
  - constructor; [apply not_elem_of_nil|assumption].
  - destruct (split sep s) as [|w ws].
    { repeat constructor. rewrite not_elem_of_cons. split; [congruence|apply not_elem_of_nil]. }
    apply Forall_cons in IH as [Hw Hws]. constructor; [|assumption].
    rewrite not_elem_of_cons. split; [congruence|assumption].
Qed.

Lemma split_length (sep : N) (s : str) :
  length (split sep s) = S (length (filter (fun c => c = sep) s)).
Proof.
  induction s as [|c s IH]; [reflexivity|].
  rewrite split_cons. destruct (N.eqb_spec c sep) as [->|Hc].
  - rewrite filter_cons_True by reflexivity. cbn. now rewrite IH.
  - rewrite filter_cons_False by assumption. rewrite <- IH.
    pose proof (split_nonempty sep s). destruct (split sep s); [contradiction|reflexivity].
Qed.

Lemma split_join (sep : N) (parts : list str) :
  parts ≠ [] -> Forall (fun w : str => sep ∉ w) parts ->
  split sep (join sep parts) = parts.
Proof.
  intros Hne Hclean. induction parts as [|w ws IH]; [contradiction|].
  apply Forall_cons in Hclean as [Hw Hws].
  assert (Hpre : forall rest : list str, rest ≠ [] ->
            split sep (w ++ sep :: join sep rest) = w :: split sep (join sep rest)).
  { intros rest _. clear IH Hne. induction w as [|c w IHw]; cbn [app].
    - rewrite split_cons, N.eqb_refl. reflexivity.
    - apply not_elem_of_cons in Hw as [Hc Hw]. rewrite split_cons.
      destruct (N.eqb_spec c sep) as [->|_]; [congruence|].
      rewrite (IHw Hw). reflexivity. }
  destruct ws as [|v ws].
  - cbn [join]. clear IH Hne Hpre. induction w as [|c w IHw]; [reflexivity|].
    apply not_elem_of_cons in Hw as [Hc Hw]. rewrite split_cons.
    destruct (N.eqb_spec c sep) as [->|_]; [congruence|]. now rewrite (IHw Hw).
  - rewrite join_cons_cons, Hpre by discriminate. now rewrite IH.
Qed.

Lemma drop_while_split (p : N -> bool) (s : str) :
  exists l, s = l ++ drop_while p s /\ Forall (fun c => p c = true) l.
Proof.
  induction s as [|c s (l & Hs & Hl)]; [exists []; split; [reflexivity|constructor]|].
  cbn. destruct (p c) eqn:Hc.
  - exists (c :: l). split; [cbn; congruence|constructor; assumption].
  - exists []. split; [reflexivity|constructor].
Qed.

Lemma drop_while_head (p : N -> bool) (s : str) (c : N) (r : str) :
  drop_while p s = c :: r -> p c = false.
Proof.
  induction s as [|a s IH]; [discriminate|]. cbn. destruct (p a) eqn:Ha; [exact IH|].
  intros [= -> _]. exact Ha.
Qed.

Lemma drop_while_fix (p : N -> bool) (s : str) :
  (forall c r, s = c :: r -> p c = false) -> drop_while p s = s.
Proof.
  destruct s as [|c s]; [reflexivity|]. intros H. cbn.
  now rewrite (H c s eq_refl).
Qed.

Lemma drop_while_idem (p : N -> bool) (s : str) :
  drop_while p (drop_while p s) = drop_while p s.
Proof. apply drop_while_fix. intros c r. apply drop_while_head. Qed.

Lemma trim_decompose (p : N -> bool) (s : str) :
  exists l r, s = l ++ trim p s ++ r
              /\ Forall (fun c => p c = true) l /\ Forall (fun c => p c = true) r.
Proof.
  unfold trim. destruct (drop_while_split p s) as (l & Hs & Hl).
  destruct (drop_while_split p (reverse (drop_while p s))) as (r & Hr & Hpr).
  exists l, (reverse r). split_and!; [|assumption|now apply Forall_reverse].
  apply (f_equal reverse) in Hr. rewrite reverse_involutive, reverse_app in Hr.
  rewrite <- Hr. exact Hs.
Qed.

Lemma trim_last (p : N -> bool) (s rest : str) (c : N) :
  trim p s = rest ++ [c] -> p c = false.
Proof.
  unfold trim. intros H. apply (f_equal reverse) in H.
  rewrite reverse_involutive, reverse_app in H. cbn in H.
  eapply drop_while_head, H.
Qed.

Lemma trim_first (p : N -> bool) (s rest : str) (c : N) :
  trim p s = c :: rest -> p c = false.
Proof.
  intros H. destruct (trim_decompose p s) as (l & r & Hs & Hl & Hr).
  unfold trim in *. destruct (drop_while_split p (reverse (drop_while p s))) as (r' & Hr' & _).
  apply (f_equal reverse) in Hr'. rewrite reverse_involutive, reverse_app, H in Hr'.
  eapply drop_while_head. exact Hr'.
Qed.

Lemma trim_idem (p : N -> bool) (s : str) : trim p (trim p s) = trim p s.
Proof.
  unfold trim at 1.
  rewrite (drop_while_fix p (trim p s)) by (intros c r; apply trim_first).
  unfold trim. rewrite reverse_involutive, drop_while_idem. reflexivity.
Qed.

(** ** Duplicates *)

Lemma drop_duplicates_from_rows (seen : list row) (d : frame) :
  NoDup (drop_duplicates_from seen d).*2
  /\ (forall r, r ∈ (drop_duplicates_from seen d).*2 -> r ∉ seen)
  /\ (forall r, r ∈ d.*2 -> r ∈ seen \/ r ∈ (drop_duplicates_from seen d).*2).
Proof.
  revert seen. induction d as [|[i r] d IH]; intros seen; cbn [drop_duplicates_from].
  - split_and!; [constructor|intros r Hr; inversion Hr|intros r Hr; inversion Hr].
  - cbn [snd]. case_bool_decide as Hseen.
    + destruct (IH seen) as (Hnd & Hout & Hin). split_and!; [assumption..|].
      intros r' Hr'. cbn in Hr'. apply elem_of_cons in Hr' as [->|Hr']; auto.
    + destruct (IH (r :: seen)) as (Hnd & Hout & Hin). cbn [fmap list_fmap snd]. split_and!.
      * constructor; [|assumption]. intros Hr. apply Hout in Hr. apply Hr. left.
      * intros r' Hr'. apply elem_of_cons in Hr' as [->|Hr']; [assumption|].
        intros Hs. apply (Hout r' Hr'). now right.
      * intros r' Hr'. cbn in Hr'. apply elem_of_cons in Hr' as [->|Hr'].
        { right. left. }
        destruct (Hin r' Hr') as [Hs|Hs].
        { apply elem_of_cons in Hs as [->|Hs]; [right; left|left; assumption]. }
        right. now right.
Qed.

Lemma drop_duplicates_from_first (seen : list row) (l1 l2 : frame) (ir : Z * row) :
  ir.2 ∉ seen -> ir.2 ∉ l1.*2 ->
  ir ∈ drop_duplicates_from seen (l1 ++ ir :: l2).
Proof.
  revert seen. induction l1 as [|jr l1 IH]; intros seen Hseen Hl1; cbn [app drop_duplicates_from].
  - rewrite bool_decide_false by assumption. left.
  - cbn in Hl1. apply not_elem_of_cons in Hl1 as [Hne Hl1]. case_bool_decide.
    + apply IH; assumption.
    + right. apply IH; [|assumption]. rewrite not_elem_of_cons. auto.
Qed.

Lemma drop_duplicates_from_fix (seen : list row) (d : frame) :
  NoDup d.*2 -> (forall r, r ∈ d.*2 -> r ∉ seen) ->
  drop_duplicates_from seen d = d.
Proof.
  revert seen. induction d as [|[i r] d IH]; intros seen Hnd Hout; [reflexivity|].
  cbn in Hnd. apply NoDup_cons in Hnd as [Hr Hnd]. cbn [drop_duplicates_from snd].
  rewrite bool_decide_false by (apply Hout; left). f_equal. apply IH; [assumption|].
  intros r' Hr'. rewrite not_elem_of_cons. split.
  - intros ->. contradiction.
  - apply Hout. now right.
Qed.

(** X1. Line 18 keeps the first occurrence of every row and nothing
    else: no row is left twice; the rows left are rows of the frame, in
    their order and under their labels; every row of the frame is still
    there; a row with no equal row before it is kept with its label; and
    a second [drop_duplicates] changes nothing. *)
Theorem drop_duplicates_keeps_first (d : frame) :
  NoDup (drop_duplicates d).*2
  /\ drop_duplicates d `sublist_of` d
  /\ (forall r : row, r ∈ d.*2 -> r ∈ (drop_duplicates d).*2)
  /\ (forall (l1 l2 : frame) (ir : Z * row),
        d = l1 ++ ir :: l2 -> ir.2 ∉ l1.*2 -> ir ∈ drop_duplicates d)
  /\ drop_duplicates (drop_duplicates d) = drop_duplicates d.
Proof.
  unfold drop_duplicates. destruct (drop_duplicates_from_rows [] d) as (Hnd & Hout & Hin).
  split_and!.
  - exact Hnd.
  - apply drop_duplicates_sublist.
  - intros r Hr. destruct (Hin r Hr) as [Hs|Hs]; [inversion Hs|exact Hs].
  - intros l1 l2 ir -> Hfirst. apply drop_duplicates_from_first; [apply not_elem_of_nil|assumption].
  - apply drop_duplicates_from_fix; [exact Hnd|]. intros r _. apply not_elem_of_nil.
Qed.

(** ** Running a line again *)

Lemma assign_again (c : string) (f : value -> result value) (d d' : frame) :
  (forall v w, f v = Ok w -> f w = Ok w) ->
  assign c c f d = Ok d' -> assign c c f d' = Ok d'.
Proof.
  intros Hf H. apply assign_Ok in H. apply assign_Ok.
  induction H as [|ir ir' d d' (v & w & Hv & Hw & ->) _ IH]; constructor; [|exact IH].
  exists w, w. cbn. rewrite lookup_insert_eq, insert_insert_eq. eauto.
Qed.

Lemma assign_raises_first (src dst : string) (f : value -> result value)
  (ir : Z * row) (d : frame) (v : value) (e : exn) :
  ir.2 !! src = Some v -> f v = Raise e -> assign src dst f (ir :: d) = Raise e.
Proof.
  intros Hv Hf. unfold assign. cbn [traverse]. apply get_Ok in Hv.
  rewrite Hv. cbn. rewrite Hf. reflexivity.
Qed.

Lemma assign_first_cell (src dst : string) (f : value -> result value) (d d' : frame) :
  assign src dst f d = Ok d' -> d' ≠ [] ->
  exists ir' rest v w, d' = ir' :: rest /\ f v = Ok w /\ ir'.2 !! dst = Some w.
Proof.
  intros H Hne. apply assign_Ok in H.
  destruct H as [|ir ir' d d' (v & w & Hv & Hw & ->) _]; [contradiction|].
  exists (ir.1, <[dst := w]> ir.2), d', v, w. cbn. rewrite lookup_insert_eq. auto.
Qed.

(** ** The accessor of line 26 *)

Lemma column_Ok (c : string) (d : frame) (cells : list value) :
  column c d = Ok cells <-> Forall2 (fun (ir : Z * row) v => ir.2 !! c = Some v) d cells.
Proof.
  unfold column. rewrite traverse_Ok.
  split; intros H; (eapply Forall2_impl; [exact H|]); intros ir v; apply get_Ok.
Qed.

Lemma str_accessor_Ok (cells : list value) (u : unit) :
  str_accessor cells = Ok u
  <-> cells = [] \/ Exists (fun v => is_number v = false) cells.
Proof.
  destruct u. unfold str_accessor. destruct cells as [|v cells]; [tauto|].
  destruct (forallb is_number (v :: cells)) eqn:E.
  - split; [discriminate|]. intros [?|Hex]; [discriminate|].
    apply Exists_exists in Hex as (w & Hw & Hn).
    rewrite forallb_forall in E. apply list_elem_of_In in Hw.
    rewrite (E w Hw) in Hn. discriminate.
  - split; [intros _; right|reflexivity].
    apply Exists_exists.
    destruct (forallb_forall is_number (v :: cells)) as [_ Hall].
    destruct (decide (Exists (fun w => is_number w = false) (v :: cells))) as [Hex|Hno];
      [now apply Exists_exists in Hex|].
    rewrite Hall in E; [discriminate|]. intros w Hw. apply list_elem_of_In in Hw.
    destruct (is_number w) eqn:Ew; [reflexivity|].
    exfalso. apply Hno, Exists_exists. eauto.
Qed.

Lemma str_accessor_Raise (cells : list value) :
  cells ≠ [] -> Forall (fun v => is_number v = true) cells ->
  str_accessor cells = Raise AttributeError.
Proof.
  intros Hne Hall. unfold str_accessor. destruct cells as [|v cells]; [contradiction|].
  replace (forallb is_number (v :: cells)) with true; [reflexivity|].
  symmetry. apply forallb_forall. intros w Hw. apply list_elem_of_In in Hw.
  rewrite Forall_forall in Hall. auto.
Qed.

(** Line 26 returns exactly when the assignment of the stripped column
    returns and the accessor is handed out: the frame has no row, or a
    review that is no number. *)
Lemma strip_reviews_returns (d d' : frame) :
  strip_reviews d = Ok d'
  <-> assign "review_content" "review_content"
        (fun x => Ok (str_method (strip strip_chars) x)) d = Ok d'
      /\ (d = []
          \/ Exists (fun ir : Z * row =>
                       exists v, ir.2 !! "review_content" = Some v
                                 /\ is_number v = false) d).
Proof.
  unfold strip_reviews. split.
  - intros H. apply bind_Ok in H as (cells & Hc & H).
    apply bind_Ok in H as (u & Hu & H). split; [exact H|].
    apply column_Ok in Hc. apply str_accessor_Ok in Hu as [->|Hex].
    + left. now inversion Hc.
    + right. apply Exists_exists in Hex as (v & Hv & Hn).
      destruct (Forall2_in_r _ _ _ _ Hc Hv) as (ir & Hir & Hcell).
      apply Exists_exists. eauto.
  - intros [H Hacc].
    assert (Hc : exists cells, column "review_content" d = Ok cells).
    { apply traverse_total. apply assign_Ok in H. apply Forall_forall. intros ir Hir.
      destruct (Forall2_in_l _ _ _ _ H Hir) as (ir' & _ & v & w & Hv & _).
      apply get_Ok in Hv. eauto. }
    destruct Hc as [cells Hc]. rewrite Hc. cbn [mbind result_bind].
    apply column_Ok in Hc.
    assert (Hu : str_accessor cells = Ok tt).
    { apply str_accessor_Ok. destruct Hacc as [->|Hex].
      - left. now inversion Hc.
      - right. apply Exists_exists in Hex as (ir & Hir & v & Hv & Hn).
        destruct (Forall2_in_l _ _ _ _ Hc Hir) as (w & Hw & Hcell).
        apply Exists_exists. exists w. split; [exact Hw|]. congruence. }
    rewrite Hu. exact H.
Qed.

(** On a frame with rows whose reviews are all numbers the accessor is
    refused. *)
Lemma strip_reviews_refused (d : frame) :
  d ≠ [] ->
  Forall (fun ir : Z * row =>
            exists v, ir.2 !! "review_content" = Some v /\ is_number v = true) d ->
  strip_reviews d = Raise AttributeError.
Proof.
  intros Hne Hall. unfold strip_reviews.
  destruct (traverse_total (fun ir : Z * row => get ir.2 "review_content") d)
    as [cells Hc].
  { eapply Forall_impl; [exact Hall|]. intros ir (v & Hv & _).
    apply get_Ok in Hv. eauto. }
  unfold column. rewrite Hc. cbn [mbind result_bind].
  apply (proj1 (column_Ok _ _ _)) in Hc.
  rewrite str_accessor_Raise; [reflexivity| |].
  - intros ->. inversion Hc. now subst.
  - apply Forall_forall. intros w Hw.
    destruct (Forall2_in_r _ _ _ _ Hc Hw) as (ir & Hir & Hcell).
    rewrite Forall_forall in Hall. destruct (Hall ir Hir) as (v & Hv & Hn).
    congruence.
Qed.

(** X2. Line 26 removes characters of [strip_chars] from the two ends
    of a review and nothing else: the review is the stripped text between
    a prefix and a suffix made of these characters, the stripped text
    neither begins nor ends with one of them, and stripping it again
    changes nothing.  On the column: when line 26 has returned on a frame
    with no list among its reviews, line 26 run again returns the frame
    it was given; and on a frame with rows whose reviews are all numbers
    (missing values among them) the accessor is refused and line 26
    raises AttributeError. *)
Theorem strip_reviews_ends :
  (forall s : str,
      (exists l r : str,
          s = l ++ strip strip_chars s ++ r
          /\ Forall (fun c => c ∈ strip_chars) l
          /\ Forall (fun c => c ∈ strip_chars) r)
      /\ (forall c rest, strip strip_chars s = c :: rest -> c ∉ strip_chars)
      /\ (forall c rest, strip strip_chars s = rest ++ [c] -> c ∉ strip_chars)
      /\ strip strip_chars (strip strip_chars s) = strip strip_chars s)
  /\ (forall d d' : frame,
        strip_reviews d = Ok d' ->
        Forall (fun ir : Z * row =>
                  forall l, ir.2 !! "review_content" ≠ Some (VList l)) d ->
        strip_reviews d' = Ok d')
  /\ (forall d : frame,
        d ≠ [] ->
        Forall (fun ir : Z * row =>
                  exists v, ir.2 !! "review_content" = Some v
                            /\ is_number v = true) d ->
        strip_reviews d = Raise AttributeError).
Proof.
  split_and!.
  - intros s. unfold strip. split_and!.
    + destruct (trim_decompose (fun c => bool_decide (c ∈ strip_chars)) s)
        as (l & r & Hs & Hl & Hr).
      exists l, r. split_and!; [exact Hs|..];
        (eapply Forall_impl; [eassumption|]); intros c Hc; now apply bool_decide_eq_true in Hc.
    + intros c rest H. apply trim_first in H. now apply bool_decide_eq_false in H.
    + intros c rest H. apply trim_last in H. now apply bool_decide_eq_false in H.
    + apply trim_idem.
  - intros d d' H Hnolist. apply strip_reviews_returns in H as [H Hacc].
    apply strip_reviews_returns. split.
    + apply (assign_again _ _ d); [|exact H]. intros v w [= <-]. f_equal.
      destruct v; cbn; try reflexivity. f_equal. apply trim_idem.
    + apply assign_Ok in H. destruct Hacc as [->|Hex]; [left; now inversion H|right].
      apply Exists_exists in Hex as (ir & Hir & v & Hv & Hn).
      destruct (Forall2_in_l _ _ _ _ H Hir) as (ir' & Hir' & v' & w & Hv' & [= <-] & ->).
      rewrite Hv in Hv'. injection Hv' as <-.
      apply Exists_exists. eexists. split; [exact Hir'|]. cbn.
      rewrite lookup_insert_eq. eexists. split; [reflexivity|].
      destruct v as [s|f|z|l]; try discriminate; [reflexivity|].
      rewrite Forall_forall in Hnolist. now destruct (Hnolist ir Hir l).
  - exact strip_reviews_refused.
Qed.

(** X4. Line 29 loses nothing of a category: the parts it puts in the
    cell, joined by the separator, give the string back; no part holds
    the separator; and there is one part more than the string has
    separators.  The label and the other cells of the row are as they
    were. *)
Theorem split_categories_round_trip (d d' : frame) :
  split_categories d = Ok d' ->
  Forall2 (fun ir ir' : Z * row =>
             exists (s : str) (parts : list str),
               ir.2 !! "category" = Some (VStr s)
               /\ ir' = (ir.1, <["category" := VList parts]> ir.2)
               /\ join 124 parts = s
               /\ Forall (fun w : str => 124%N ∉ w) parts
               /\ length parts = S (length (filter (fun c => c = 124%N) s))) d d'.
Proof.
  intros H. apply assign_Ok in H. eapply Forall2_impl; [exact H|].
  intros ir ir' (v & w & Hv & Hw & ->). destruct v as [s| | |]; try discriminate.
  injection Hw as <-. exists s, (split 124 s). split_and!; auto.
  - apply join_split.
  - apply split_parts_clean.
  - apply split_length.
Qed.

(** X6. Lines 29 and 71 cannot be run twice: on the frame either has
    returned, if it has a row, line 29 raises AttributeError (a list has
    no [split]) and line 71 raises TypeError (a label is compared with a
    float). *)
Theorem split_and_label_run_once :
  (forall d d' : frame,
      split_categories d = Ok d' -> d' ≠ [] ->
      split_categories d' = Raise AttributeError)
  /\ (forall d d' : frame,
        label_compound d = Ok d' -> d' ≠ [] ->
        label_compound d' = Raise TypeError).
Proof.
  split; intros d d' H Hne.
  - destruct (assign_first_cell _ _ _ _ _ H Hne) as (ir' & rest & v & w & -> & Hw & Hc).
    eapply assign_raises_first; [exact Hc|].
    destruct v; try discriminate. injection Hw as <-. reflexivity.
  - destruct (assign_first_cell _ _ _ _ _ H Hne) as (ir' & rest & v & w & -> & Hw & Hc).
    eapply assign_raises_first; [exact Hc|].
    apply get_sentiment_label in Hw as (s & -> & _). reflexivity.
Qed.

(** ** Truncated names *)

(** X15. A truncated name has at most 13 characters and begins as the
    name does (the same first 10 characters); truncating twice is
    truncating once; and two names of more than 10 characters get the
    same truncated name exactly when their first 10 characters agree. *)
Theorem truncate_collapses :
  (forall x : str, (length (truncate x) <= 13)%nat)
  /\ (forall x : str, take 10 (truncate x) = take 10 x)
  /\ (forall x : str, truncate (truncate x) = truncate x)
  /\ (forall x y : str,
        (10 < length x)%nat -> (10 < length y)%nat ->
        (truncate x = truncate y <-> take 10 x = take 10 y)).
Proof.
  assert (Hlong : forall x : str, (10 < length x)%nat ->
                    truncate x = take 10 x ++ lit "...").
  { intros x Hx. unfold truncate. apply Nat.ltb_lt in Hx. now rewrite Hx. }
  assert (Hshort : forall x : str, (length x <= 10)%nat -> truncate x = x).
  { intros x Hx. unfold truncate. apply Nat.ltb_ge in Hx. now rewrite Hx. }
  assert (Hpre : forall x : str, take 10 (truncate x) = take 10 x).
  { intros x. destruct (decide (10 < length x)%nat) as [Hx|Hx].
    - rewrite (Hlong x Hx). rewrite take_app_le by (rewrite length_take; lia).
      rewrite take_take. f_equal.
    - now rewrite Hshort by lia. }
  split_and!.
  - intros x. destruct (decide (10 < length x)%nat) as [Hx|Hx].
    + rewrite (Hlong x Hx), length_app, length_take, Nat.min_l by lia.
      change (length (lit "...")) with 3%nat. lia.
    + rewrite Hshort by lia. lia.
  - exact Hpre.
  - intros x. destruct (decide (10 < length x)%nat) as [Hx|Hx].
    + assert (Hlen : (10 < length (truncate x))%nat).
      { rewrite (Hlong x Hx), length_app, length_take, Nat.min_l by lia.
        change (length (lit "...")) with 3%nat. lia. }
      rewrite (Hlong _ Hlen), Hpre. symmetry. now apply Hlong.
    + rewrite (Hshort x) by lia. apply Hshort. lia.
  - intros x y Hx Hy. rewrite (Hlong x Hx), (Hlong y Hy). split.
    + intros H. apply app_inj_2 in H; [tauto|reflexivity].
    + intros ->. reflexivity.
Qed.

(** ** The label as a function of the score *)

Lemma get_sentiment_float (c : pyfloat) :
  get_sentiment (VFloat c)
  = Ok (VStr (if fge c lit_0_05 then lit "Positivo"
              else if flt c (fneg lit_0_05) then lit "Negative"
              else lit "Neutral")).
Proof.
  unfold get_sentiment. cbn [number mbind result_bind].
  destruct (fge c lit_0_05); [reflexivity|]. destruct (flt c (fneg lit_0_05)); reflexivity.
Qed.

Lemma threshold_positive : exists t : Q, lit_0_05 = Fin t /\ (0 < t)%Q.
Proof. eexists. split; [apply lit_0_05_value|reflexivity]. Qed.

(** X10. The label is monotone in the score: for [a <= b], if [a] is
    labelled Positivo then so is [b], and if [b] is labelled Negative
    then so is [a].  NaN is labelled Neutral; a score that is a string or
    a list raises TypeError. *)
Theorem get_sentiment_monotone :
  (forall a b : pyfloat,
      fle a b = true ->
      (get_sentiment (VFloat a) = Ok (VStr (lit "Positivo")) ->
       get_sentiment (VFloat b) = Ok (VStr (lit "Positivo")))
      /\ (get_sentiment (VFloat b) = Ok (VStr (lit "Negative")) ->
          get_sentiment (VFloat a) = Ok (VStr (lit "Negative"))))
  /\ get_sentiment (VFloat NaN) = Ok (VStr (lit "Neutral"))
  /\ (forall s : str, get_sentiment (VStr s) = Raise TypeError)
  /\ (forall l : list str, get_sentiment (VList l) = Raise TypeError).
Proof.
  split_and!; try reflexivity.
  intros a b Hab. rewrite !get_sentiment_float.
  destruct threshold_positive as (t & -> & Ht).
  unfold fge, flt, fle, fneg in *.
  destruct a as [x| | |], b as [y| | |]; cbn in *; try discriminate;
    q_cases; cbn; split; intros [=]; try reflexivity; exfalso; lra.
Qed.

(** ** Missing cells and missing columns *)

Lemma traverse_raise_only {A B : Type} (f : A -> result B) (e : exn) (l : list A) :
  Forall (fun x => (exists y, f x = Ok y) \/ f x = Raise e) l ->
  Exists (fun x => f x = Raise e) l ->
  traverse f l = Raise e.
Proof.
  induction l as [|x l IH]; intros Hall Hex; [inversion Hex|].
  apply Forall_cons in Hall as [Hx Hall]. cbn [traverse].
  destruct Hx as [[y Hy]|Hx]; [|now rewrite Hx].
  rewrite Hy. cbn [mbind result_bind].
  inversion Hex as [? ? Hx'|? ? Hex']; subst; [congruence|].
  now rewrite (IH Hall Hex').
Qed.

Lemma load_cons (r : row) (records : list row) :
  exists rest, load (r :: records) = (0, r) :: rest.
Proof.
  unfold load, read_csv, drop_duplicates. cbn [length].
  rewrite Nat2Z.inj_succ, seqZ_cons by lia. cbn [zip zip_with drop_duplicates_from snd].
  rewrite bool_decide_false by apply not_elem_of_nil. eauto.
Qed.

(** ** Rounding of small integers and of bounded values *)

Section Exact.
Local Open Scope Q_scope.

Lemma Qlog2_lt (a : Q) (k : Z) : 0 < a -> a < 2 ^ k -> (Qlog2 a < k)%Z.
Proof.
intros Ha Hk. pose proof (Qlog2_lower a Ha) as Hl.
destruct (Z_lt_le_dec (Qlog2 a) k) as [|Hge]; [assumption|].
apply (Qpower_le_compat_l 2) in Hge; lra.
Qed.

Lemma ulp_exp_nonpos (a : Q) : 0 < a -> a < 2 ^ 53 -> (ulp_exp a <= 0)%Z.
Proof. intros Ha Hk. pose proof (Qlog2_lt a 53 Ha Hk). unfold ulp_exp. lia. Qed.

Lemma two_pow_opp (e : Z) : (e <= 0)%Z -> 2 ^ e * inject_Z (2 ^ (- e)) == 1.
Proof.
intros He. rewrite two_pow_Z by lia. rewrite <- Qpower_plus by lra.
replace (e + - e)%Z with 0%Z by lia. reflexivity.
Qed.

Lemma round_half_even_Z (q : Q) (m : Z) : q == inject_Z m -> round_half_even q = m.
Proof.
intros Hq. unfold round_half_even. rewrite (Qfloor_comp _ _ Hq), Qfloor_Z.
destruct (Qcompare_spec (q - inject_Z m) (1 # 2)); [lra|reflexivity|lra].
Qed.

Lemma round_half_even_le (q : Q) (m : Z) :
q <= inject_Z m -> (round_half_even q <= m)%Z.
Proof.
intros Hq. unfold round_half_even.
pose proof (Qfloor_le q) as Hlo.
assert (Hf : (Qfloor q <= m)%Z).
{ rewrite <- (Qfloor_Z m). now apply Qfloor_resp_le. }
assert (Hstep : 0 < q - inject_Z (Qfloor q) -> (Qfloor q + 1 <= m)%Z).
{ intros Hpos. assert (Hlt : inject_Z (Qfloor q) < inject_Z m) by lra.
  rewrite <- Zlt_Qlt in Hlt. lia. }
destruct (Qcompare_spec (q - inject_Z (Qfloor q)) (1 # 2)) as [He|Hl|Hg].
- destruct (Z.even (Qfloor q)); [assumption|apply Hstep; lra].
- assumption.
- apply Hstep; lra.
Qed.

Lemma round_half_even_nonneg (q : Q) : 0 <= q -> (0 <= round_half_even q)%Z.
Proof.
intros Hq. unfold round_half_even.
assert (Hf : (0 <= Qfloor q)%Z).
{ change 0%Z with (Qfloor 0). now apply Qfloor_resp_le. }
destruct (Qcompare (q - inject_Z (Qfloor q)) (1 # 2)); [destruct (Z.even _)| |]; lia.
Qed.

Lemma round_mag_nonneg (a : Q) : 0 < a -> 0 <= round_mag a.
Proof.
intros Ha. unfold round_mag. rewrite Qred_correct.
pose proof (two_pow_pos (ulp_exp a)) as He.
assert (Hq : 0 <= a / 2 ^ ulp_exp a).
{ apply Qle_shift_div_l; [exact He|]. lra. }
apply round_half_even_nonneg in Hq. rewrite (Zle_Qle 0) in Hq.
change (inject_Z 0) with 0 in Hq. nra.
Qed.

(** A magnitude below [2^53] that is at most an integer is rounded to at
    most this integer. *)
Lemma round_mag_le (a : Q) (n : Z) :
0 < a -> a <= inject_Z n -> inject_Z n < 2 ^ 53 -> round_mag a <= inject_Z n.
Proof.
intros Ha Hn Hb. unfold round_mag. rewrite Qred_correct.
pose proof (ulp_exp_nonpos a Ha ltac:(lra)) as He.
set (e := ulp_exp a) in *.
pose proof (two_pow_pos e) as Hp. pose proof (two_pow_opp e He) as Ho.
assert (Hq : a / 2 ^ e <= inject_Z (n * 2 ^ (- e))).
{ rewrite inject_Z_mult. apply Qle_shift_div_r; [exact Hp|]. nra. }
apply round_half_even_le in Hq. rewrite Zle_Qle, inject_Z_mult in Hq.
set (m := inject_Z (round_half_even (a / 2 ^ e))) in *.
set (w := inject_Z (2 ^ (- e))) in *. nra.
Qed.

(** An integer below [2^53] is a float. *)
Lemma round_mag_Z (a : Q) (n : Z) :
a == inject_Z n -> (0 < n)%Z -> inject_Z n < 2 ^ 53 -> round_mag a = inject_Z n.
Proof.
intros Hq Hn Hb.
assert (Ha : 0 < a) by (rewrite Hq; now rewrite <- (Zlt_Qlt 0)).
unfold round_mag.
pose proof (ulp_exp_nonpos a Ha ltac:(lra)) as He.
set (e := ulp_exp a) in *.
pose proof (two_pow_pos e) as Hp. pose proof (two_pow_opp e He) as Ho.
rewrite (round_half_even_Z _ (n * 2 ^ (- e))).
- rewrite <- (Qcanon.Qred_identity (inject_Z n)) by (cbn; apply Z.gcd_1_r).
  apply Qred_complete. rewrite inject_Z_mult.
  set (w := inject_Z (2 ^ (- e))) in *. 
  transitivity (inject_Z n * (2 ^ e * w)); [ring|]. rewrite Ho. ring.
- rewrite inject_Z_mult, Hq. 
  set (w := inject_Z (2 ^ (- e))) in *.
  transitivity (inject_Z n * (2 ^ e * w) / 2 ^ e); [rewrite Ho; field; lra|field; lra].
Qed.

Lemma round64_Z (x : Q) (n : Z) :
x == inject_Z n -> (0 <= n < 2 ^ 53)%Z -> round64 x = Fin (inject_Z n).
Proof.
intros Hx [Hn Hb].
assert (Hb' : inject_Z n < 2 ^ 53).
{ rewrite <- two_pow_Z by lia. now rewrite <- Zlt_Qlt. }
unfold round64. destruct (Qcompare_spec x 0) as [He|Hl|Hg].
- rewrite Hx in He. assert (n = 0%Z) as -> by (unfold Qeq in He; cbn in He; lia).
  reflexivity.
- rewrite Hx in Hl. change 0 with (inject_Z 0) in Hl. rewrite <- Zlt_Qlt in Hl. lia.
- assert (Hpos : (0 < n)%Z).
  { rewrite Hx in Hg. change 0 with (inject_Z 0) in Hg. now rewrite <- Zlt_Qlt in Hg. }
  rewrite (round_mag_Z x n Hx Hpos Hb').
  rewrite overflows_false; [reflexivity|].
  eapply Qlt_trans; [exact Hb'|]. reflexivity.
Qed.

Lemma round64_bounded (x : Q) (n : Z) :
0 <= x -> x <= inject_Z n -> (n < 2 ^ 53)%Z ->
exists r, round64 x = Fin r /\ 0 <= r <= inject_Z n.
Proof.
intros Hx Hn Hb.
assert (Hb' : inject_Z n < 2 ^ 53).
{ rewrite <- two_pow_Z by lia. now rewrite <- Zlt_Qlt. }
unfold round64. destruct (Qcompare_spec x 0) as [He|Hl|Hg].
- exists 0. split; [reflexivity|]. lra.
- lra.
- pose proof (round_mag_le x n Hg Hn Hb') as Hle.
  pose proof (round_mag_nonneg x Hg) as Hge.
  rewrite overflows_false; [eauto|].
  eapply Qle_lt_trans; [exact Hle|]. eapply Qlt_trans; [exact Hb'|]. reflexivity.
Qed.

Lemma round64_nonneg (x : Q) :
0 <= x -> round64 x = PInf \/ exists r, round64 x = Fin r /\ 0 <= r.
Proof.
intros Hx. unfold round64. destruct (Qcompare_spec x 0) as [He|Hl|Hg].
- right. exists 0. split; [reflexivity|lra].
- lra.
- destruct (overflows (round_mag x)); [now left|right].
  eexists; split; [reflexivity|]. now apply round_mag_nonneg.
Qed.

End Exact.

(** ** [float] on a string of digits *)

Lemma is_digit_range (c : N) : is_digit c = true <-> (48 <= c <= 57)%N.
Proof. unfold is_digit. rewrite andb_true_iff, !N.leb_le. reflexivity. Qed.

Lemma drop_while_none (p : N -> bool) (s : str) :
  Forall (fun c => p c = false) s -> drop_while p s = s.
Proof. destruct 1 as [|c s Hc _]; [reflexivity|]. cbn. now rewrite Hc. Qed.

Lemma trim_none (p : N -> bool) (s : str) :
  Forall (fun c => p c = false) s -> trim p s = s.
Proof.
  intros H. unfold trim. rewrite (drop_while_none p s H).
  rewrite drop_while_none by now apply Forall_reverse.
  apply reverse_involutive.
Qed.

Lemma parse_sign_none (c : N) (r : str) :
  c ≠ 43%N -> c ≠ 45%N -> parse_sign (c :: r) = (false, c :: r).
Proof.
  intros H1 H2. unfold parse_sign. destruct c as [|p]; [reflexivity|].
  do 7 (try (destruct p as [p|p|]; try reflexivity; try congruence)).
Qed.

Lemma span_digits_all (s : str) :
  Forall (fun c => is_digit c = true) s ->
  span_digits s = ((fun c => Z.of_N (c - 48)) <$> s, []).
Proof.
  induction 1 as [|c s Hc _ IH]; [reflexivity|].
  cbn [span_digits]. rewrite Hc, IH. reflexivity.
Qed.

Lemma strip_underscores_digits (prev : N) (s : str) :
  prev ≠ 95%N -> Forall (fun c => is_digit c = true) s ->
  strip_underscores prev s = Some s.
Proof.
  intros Hp H. revert prev Hp. induction H as [|c s Hc _ IH]; intros prev Hp; cbn.
  - apply N.eqb_neq in Hp. now rewrite Hp.
  - assert (Hne : c ≠ 95%N) by (apply is_digit_range in Hc; lia).
    apply N.eqb_neq in Hne as Hb. rewrite Hb, Hc, andb_false_r.
    now rewrite (IH c Hne).
Qed.

Section Digits.
Variable to_decimal : N -> option N.

Lemma to_ascii_digits (s : str) :
  Forall (fun c => is_digit c = true) s -> to_ascii to_decimal <$> s = s.
Proof.
  induction 1 as [|c s Hc _ IH]; [reflexivity|]. cbn. rewrite IH. f_equal.
  unfold to_ascii. apply is_digit_range in Hc.
  destruct (N.ltb_spec c 127); [reflexivity|lia].
Qed.

(** A string of ASCII digits is read as the integer it writes. *)
Lemma float_of_str_digits (s : str) :
  s ≠ [] -> Forall (fun c => is_digit c = true) s ->
  exists x : Q,
    float_of_str to_decimal s = Some (round64 x)
    /\ (x == inject_Z (digits_value ((fun c => Z.of_N (c - 48)) <$> s)))%Q.
Proof.
  intros Hne H. unfold float_of_str.
  rewrite (to_ascii_digits s H), (strip_underscores_digits 0 s) by (discriminate || assumption).
  cbn [mbind option_bind].
  rewrite trim_none.
  2:{ eapply Forall_impl; [exact H|]. intros c Hc. apply is_digit_range in Hc.
      unfold is_ascii_space.
      destruct (N.eqb_spec c 32); [lia|]. destruct (N.leb_spec c 13); [lia|].
      now rewrite andb_false_r. }
  destruct s as [|c r]; [done|]. clear Hne.
  assert (Hc : (48 <= c <= 57)%N) by (apply is_digit_range; now inversion H).
  assert (Hsign : parse_sign (c :: r) = (false, c :: r)) by (apply parse_sign_none; lia).
  assert (Hlow : to_lower c = c).
  { unfold to_lower. destruct (N.leb_spec 65 c); [lia|reflexivity]. }
  assert (Hinf : parse_inf_or_nan (c :: r) = None).
  { unfold parse_inf_or_nan. rewrite Hsign. cbn [fmap list_fmap]. rewrite Hlow.
    destruct (str_eqb _ (lit "inf")) eqn:E1.
    { apply str_eqb_eq in E1. injection E1 as E1 _. lia. }
    destruct (str_eqb _ (lit "infinity")) eqn:E2.
    { apply str_eqb_eq in E2. injection E2 as E2 _. lia. }
    destruct (str_eqb _ (lit "nan")) eqn:E3.
    { apply str_eqb_eq in E3. injection E3 as E3 _. lia. }
    reflexivity. }
  rewrite Hinf. unfold parse_decimal. rewrite Hsign, (span_digits_all _ H).
  rewrite app_nil_r. cbn [fmap list_fmap option_fmap option_map length].
  eexists. split; [reflexivity|].
  change (10 ^ (0 - Z.of_nat 0))%Q with 1%Q. ring.
Qed.
End Digits.

(** ** Ties keep their order *)

Lemma filter_fmap {A B : Type} (f : A -> B) (P : B -> Prop)
  `{forall y, Decision (P y)} (l : list A) :
  filter P (f <$> l) = f <$> filter (fun x => P (f x)) l.
Proof.
  induction l as [|x l IH]; [reflexivity|]. cbn [fmap list_fmap].
  destruct (decide (P (f x))).
  - rewrite !filter_cons_True by assumption. cbn. now rewrite IH.
  - rewrite !filter_cons_False by assumption. exact IH.
Qed.

Lemma filter_ext_in {A : Type} (P Q : A -> Prop)
  `{forall x, Decision (P x)} `{forall x, Decision (Q x)} (l : list A) :
  (forall x, x ∈ l -> P x <-> Q x) -> filter P l = filter Q l.
Proof.
  induction l as [|x l IH]; intros Hl; [reflexivity|].
  assert (Hx : P x <-> Q x) by (apply Hl; left).
  assert (Hrest : filter P l = filter Q l).
  { apply IH. intros y Hy. apply Hl. now right. }
  destruct (decide (P x)) as [Hp|Hp].
  - rewrite !filter_cons_True by tauto. now rewrite Hrest.
  - rewrite !filter_cons_False by tauto. exact Hrest.
Qed.

Lemma filter_sublist {A : Type} (P : A -> Prop) `{forall x, Decision (P x)}
  (l1 l2 : list A) :
  l1 `sublist_of` l2 -> filter P l1 `sublist_of` filter P l2.
Proof.
  induction 1 as [|x l1 l2 _ IH|x l1 l2 _ IH]; [constructor| |].
  - destruct (decide (P x)).
    + rewrite !filter_cons_True by assumption. now constructor.
    + now rewrite !filter_cons_False by assumption.
  - destruct (decide (P x)).
    + rewrite filter_cons_True by assumption. now constructor.
    + now rewrite filter_cons_False by assumption.
Qed.

Lemma key_cmp_tied (k1 k2 : list pyfloat) :
  Forall2 tied k1 k2 -> key_cmp k1 k2 = Eq.
Proof.
  induction 1 as [|a b k1 k2 Hab _ IH]; [reflexivity|].
  cbn. apply desc_cmp_Eq in Hab. now rewrite Hab.
Qed.

Lemma key_cmp_Eq_r (k1 k2 k3 : list pyfloat) :
  length k2 = length k3 -> key_cmp k2 k3 = Eq -> key_cmp k1 k3 = key_cmp k1 k2.
Proof.
  revert k2 k3. induction k1 as [|a k1 IH]; intros [|b k2] [|c k3]; cbn;
    try discriminate; try reflexivity.
  intros [= L] H. destruct (desc_cmp b c) eqn:Ebc; try discriminate.
  rewrite (desc_cmp_Eq_r a b c Ebc).
  destruct (desc_cmp a b); [now apply IH|reflexivity..].
Qed.

Section Stable.
Context {A : Type}.
Implicit Types (x y : list pyfloat * A) (l : list (list pyfloat * A)).

Lemma insert_desc_stable (k : list pyfloat) x l :
  length x.1 = length k ->
  Forall (fun y => length y.1 = length k) l ->
  filter (fun y => key_cmp y.1 k = Eq) (insert_desc x l)
  = filter (fun y => key_cmp y.1 k = Eq) (x :: l).
Proof.
  intros Lx. induction 1 as [|y l Ly _ IH]; [reflexivity|].
  cbn [insert_desc]. destruct (key_cmp x.1 y.1) eqn:E; try reflexivity.
  destruct (decide (key_cmp y.1 k = Eq)) as [Hy|Hy].
  - destruct (decide (key_cmp x.1 k = Eq)) as [Hx|Hx].
    + rewrite <- (key_cmp_Eq_r x.1 y.1 k Ly Hy) in E. congruence.
    + rewrite (filter_cons_True _ y) by assumption. rewrite IH.
      rewrite !(filter_cons_False _ x) by assumption.
      now rewrite filter_cons_True by assumption.
  - rewrite (filter_cons_False _ y) by assumption. rewrite IH.
    destruct (decide (key_cmp x.1 k = Eq)) as [Hx|Hx].
    + rewrite !(filter_cons_True _ x) by assumption.
      now rewrite filter_cons_False by assumption.
    + rewrite !(filter_cons_False _ x) by assumption.
      now rewrite filter_cons_False by assumption.
Qed.

Lemma sort_desc_stable (k : list pyfloat) l :
  Forall (fun y => length y.1 = length k) l ->
  filter (fun y => key_cmp y.1 k = Eq) (sort_desc l)
  = filter (fun y => key_cmp y.1 k = Eq) l.
Proof.
  induction 1 as [|x l Lx Hl IH]; [reflexivity|].
  change (sort_desc (x :: l)) with (insert_desc x (sort_desc l)).
  rewrite insert_desc_stable.
  - destruct (decide (key_cmp x.1 k = Eq)).
    + rewrite !filter_cons_True by assumption. now rewrite IH.
    + now rewrite !filter_cons_False by assumption.
  - exact Lx.
  - apply Forall_forall. intros y Hy. rewrite sort_desc_elem in Hy.
    rewrite Forall_forall in Hl. now apply Hl.
Qed.
End Stable.

Lemma sort_values_keyed (by_ : list string) (d e : frame) :
  sort_values by_ d = Ok e ->
  exists keyed : list (list pyfloat * (Z * row)),
    d = keyed.*2 /\ e = (sort_desc keyed).*2
    /\ Forall (fun y => sort_key by_ y.2.2 = Ok y.1) keyed.
Proof.
  unfold sort_values. intros H. apply bind_Ok in H as (keyed & Hk & [= <-]).
  apply traverse_Ok in Hk. exists keyed. split_and!; [|reflexivity|].
  - induction Hk as [|ir y d keyed Hrow _ IH]; [reflexivity|].
    apply bind_Ok in Hrow as (k & _ & [= <-]). cbn. now rewrite <- IH.
  - apply Forall_forall. intros y Hy.
    destruct (Forall2_in_r _ _ _ _ Hk Hy) as (ir & _ & Hrow).
    apply bind_Ok in Hrow as (k & Hkk & [= <-]). exact Hkk.
Qed.

(** X12. The sort of line 78 is stable: two rows whose (positive,
    neutral, negative) keys tie come out in the order they had in the
    frame that was sorted. *)
Theorem sort_values_stable (by_ : list string) (d e : frame) :
  sort_values by_ d = Ok e ->
  forall (x y : Z * row) (k1 k2 : list pyfloat),
    sort_key by_ x.2 = Ok k1 -> sort_key by_ y.2 = Ok k2 ->
    Forall2 tied k1 k2 ->
    [x; y] `sublist_of` d -> [x; y] `sublist_of` e.
Proof.
  intros H x y k1 k2 Hx Hy Ht Hsub.
  destruct (sort_values_keyed by_ d e H) as (keyed & -> & -> & Hkey).
  assert (Hlen : forall (ir : Z * row) k, sort_key by_ ir.2 = Ok k -> length k = length by_).
  { intros ir k Hk. unfold sort_key in Hk. now apply traverse_length in Hk. }
  set (Q := fun ir : Z * row => sort_key by_ ir.2 ≫= (fun k => Ok (key_cmp k k2)) = Ok Eq).
  assert (Hfilter : filter Q (sort_desc keyed).*2 = filter Q keyed.*2).
  { rewrite !filter_fmap.
    rewrite (filter_ext_in _ (fun y => key_cmp y.1 k2 = Eq) (sort_desc keyed)).
    2:{ intros z Hz. rewrite sort_desc_elem in Hz. rewrite Forall_forall in Hkey.
        unfold Q. rewrite (Hkey z Hz). cbn. split; congruence. }
    rewrite (filter_ext_in (fun x0 => Q x0.2) (fun y => key_cmp y.1 k2 = Eq) keyed).
    2:{ intros z Hz. rewrite Forall_forall in Hkey.
        unfold Q. rewrite (Hkey z Hz). cbn. split; congruence. }
    f_equal. apply sort_desc_stable.
    eapply Forall_impl; [exact Hkey|]. intros z Hz. cbn in Hz.
    rewrite (Hlen _ _ Hz). symmetry. exact (Hlen _ _ Hy). }
  assert (Qx : Q x).
  { unfold Q. rewrite Hx. cbn. f_equal. now apply key_cmp_tied. }
  assert (Qy : Q y).
  { unfold Q. rewrite Hy. cbn. f_equal.
    rewrite (key_cmp_Eq_r k2 k1 k2).
    - rewrite key_cmp_antisym. now rewrite (key_cmp_tied k1 k2 Ht).
    - rewrite (Hlen _ _ Hx). symmetry. exact (Hlen _ _ Hy).
    - now apply key_cmp_tied. }
  apply (filter_sublist Q) in Hsub.
  rewrite filter_cons_True, filter_cons_True, filter_nil in Hsub by assumption.
  etrans; [exact Hsub|]. rewrite <- Hfilter. apply sublist_filter.
Qed.

(** ** The long frames *)






Section Further.
Variable to_decimal : N -> option N.
Variable detect : value -> result value.
Variable polarity_scores : value -> result scores.
Variable repr : value -> str.
Variable html : Type.
Variable render : chart -> frame -> html.

(** X5. In a frame whose rows all have a review and a category cell,
    one category that is not a string (a missing one, say) ends the run
    with AttributeError and without a report.  The exception is that of
    line 29 whenever line 26 returns, and line 26 does return when one
    review is no number; otherwise it is line 26 that raises it. *)
Theorem missing_category_raises (d : frame) :
  Forall (fun ir : Z * row =>
            is_Some (ir.2 !! "review_content") /\ is_Some (ir.2 !! "category")) d ->
  Exists (fun ir : Z * row => forall s, ir.2 !! "category" ≠ Some (VStr s)) d ->
  clean to_decimal detect repr d = Raise AttributeError
  /\ main to_decimal detect polarity_scores repr html render d
     = ([], Some AttributeError)
  /\ (forall d1 : frame,
        strip_reviews d = Ok d1 -> split_categories d1 = Raise AttributeError)
  /\ (Exists (fun ir : Z * row =>
                exists v, ir.2 !! "review_content" = Some v
                          /\ is_number v = false) d ->
      exists d1 : frame,
        strip_reviews d = Ok d1 /\ split_categories d1 = Raise AttributeError)
  /\ (Forall (fun ir : Z * row =>
                exists v, ir.2 !! "review_content" = Some v
                          /\ is_number v = true) d ->
      strip_reviews d = Raise AttributeError).
Proof.
  intros Hcols Hbad.
  assert (Hne : d ≠ []) by (intros ->; inversion Hbad).
  destruct (traverse_total
              (fun ir : Z * row =>
                 v ← get ir.2 "review_content";
                 w ← Ok (str_method (strip strip_chars) v);
                 Ok (ir.1, <["review_content" := w]> ir.2)) d) as [d0 H0].
  { eapply Forall_impl; [exact Hcols|]. intros ir [[v Hv] _]. apply get_Ok in Hv.
    cbn beta. rewrite Hv. cbn. eauto. }
  fold (assign "review_content" "review_content"
          (fun x => Ok (str_method (strip strip_chars) x)) d) in H0.
  assert (Hsplit : forall d1 : frame,
             strip_reviews d = Ok d1 -> split_categories d1 = Raise AttributeError).
  { intros d1 H1. apply strip_reviews_Ok, assign_Ok in H1.
    unfold split_categories, assign. apply traverse_raise_only.
    - apply Forall_forall. intros ir' Hir'.
      destruct (Forall2_in_r _ _ _ _ H1 Hir') as (ir & Hir & v & w & _ & _ & ->).
      rewrite Forall_forall in Hcols. destruct (Hcols _ Hir) as [_ [c Hc]].
      cbn. unfold get. rewrite lookup_insert_ne by discriminate. rewrite Hc. cbn.
      destruct c; cbn; eauto.
    - apply Exists_exists in Hbad as (ir & Hir & Hb).
      destruct (Forall2_in_l _ _ _ _ H1 Hir) as (ir' & Hir' & v & w & _ & _ & ->).
      apply Exists_exists. eexists. split; [exact Hir'|].
      rewrite Forall_forall in Hcols. destruct (Hcols _ Hir) as [_ [c Hc]].
      cbn. unfold get. rewrite lookup_insert_ne by discriminate. rewrite Hc. cbn.
      destruct c as [s| | |]; cbn; try reflexivity. now destruct (Hb s). }
  assert (Hclean : clean to_decimal detect repr d = Raise AttributeError).
  { unfold clean. destruct (strip_reviews d) as [d1|e] eqn:H1; cbn [mbind result_bind].
    - now rewrite (Hsplit d1 eq_refl).
    - unfold strip_reviews in H1.
      destruct (column "review_content" d) as [cells|e'] eqn:Hc; cbn [mbind result_bind] in H1.
      + destruct (str_accessor cells) as [u|e''] eqn:Hu; cbn [mbind result_bind] in H1;
          [congruence|].
        injection H1 as <-. unfold str_accessor in Hu.
        destruct cells; [discriminate|]. destruct (forallb _ _); congruence.
      + exfalso. apply assign_Ok in H0.
        assert (Hcol : exists cells, column "review_content" d = Ok cells).
        { apply traverse_total. apply Forall_forall. intros ir Hir.
          destruct (Forall2_in_l _ _ _ _ H0 Hir) as (ir' & _ & v & w & Hv & _).
          apply get_Ok in Hv. eauto. }
        destruct Hcol as [cells Hcells]. congruence. }
  split_and!.
  - exact Hclean.
  - unfold main. now rewrite Hclean.
  - exact Hsplit.
  - intros Hstr. exists d0. assert (H1 : strip_reviews d = Ok d0).
    { apply strip_reviews_returns. split; [exact H0|now right]. }
    split; [exact H1|now apply Hsplit].
  - intros Hnum. now apply strip_reviews_refused.
Qed.

(** X3. A frame whose first row has no review_content cell, and so a
    file whose first record has none, ends the run at line 26 with
    KeyError, before any report is written. *)
Theorem missing_review_column_raises :
  (forall (ir : Z * row) (d : frame),
      ir.2 !! "review_content" = None ->
      main to_decimal detect polarity_scores repr html render (ir :: d)
      = ([], Some KeyError))
  /\ (forall (r : row) (records : list row),
        r !! "review_content" = None ->
        script to_decimal detect polarity_scores repr html render (r :: records)
        = ([], Some KeyError)).
Proof.
  assert (Hmain : forall (ir : Z * row) (d : frame),
             ir.2 !! "review_content" = None ->
             main to_decimal detect polarity_scores repr html render (ir :: d)
             = ([], Some KeyError)).
  { intros ir d Hnone.
    assert (Hs : strip_reviews (ir :: d) = Raise KeyError).
    { unfold strip_reviews, column. cbn [traverse]. unfold get.
      rewrite Hnone. reflexivity. }
    unfold main, clean. rewrite Hs. reflexivity. }
  split; [exact Hmain|].
  intros r records Hnone. unfold script.
  destruct (load_cons r records) as [rest ->]. now apply Hmain.
Qed.

(** X7. A missing rating is not the sentinel: with distinct labels and
    a rating in every row, a row whose rating is missing survives lines
    32-37 under its label, with NaN as its rating; and on the frame the
    repair returns, line 37 run again returns the same frame. *)
Theorem missing_rating_stays (d d' : frame) :
  NoDup (index d) ->
  Forall (fun ir : Z * row => is_Some (ir.2 !! "rating")) d ->
  repair_ratings to_decimal d = Ok d' ->
  (forall ir : Z * row,
      ir ∈ d -> ir.2 !! "rating" = Some missing ->
      (ir.1, <["rating" := missing]> ir.2) ∈ d')
  /\ format_ratings to_decimal d' = Ok d'.
Proof.
  intros Hnd Hcol H. unfold repair_ratings, drop_sentinel_ratings in H.
  rewrite (drop_where_filter is_sentinel "rating" d Hnd Hcol) in H.
  cbn [mbind result_bind] in H. split.
  - intros ir Hir Hmiss. apply format_ratings_Ok in H.
    assert (Hkept : ir ∈ filter_pass is_sentinel "rating" d).
    { unfold filter_pass. apply list_elem_of_filter. split; [|exact Hir].
      unfold meets. now rewrite Hmiss. }
    destruct (Forall2_in_l _ _ _ _ H Hkept) as (ir' & Hir' & v & f & Hv & Hf & ->).
    rewrite Hmiss in Hv. injection Hv as <-. injection Hf as <-. exact Hir'.
  - unfold format_ratings in *. eapply assign_again; [|exact H].
    intros v w Hw. apply fmap_Ok in Hw as (f & _ & ->). reflexivity.
Qed.

Lemma digits_value_nonneg (ds : list Z) :
  Forall (fun d => 0 <= d) ds -> 0 <= digits_value ds.
Proof.
  unfold digits_value. intros H.
  enough (forall acc, 0 <= acc -> 0 <= foldl (fun acc d => 10 * acc + d) acc ds)
    as Hacc by (apply Hacc; lia).
  induction H as [|d ds Hd _ IH]; intros acc Hacc; cbn; [assumption|].
  apply IH. lia.
Qed.

Lemma format_rating_count_cells (d d' : frame) :
  format_rating_count to_decimal repr d = Ok d'
  <-> assign "rating_count" "rating_count"
        (fun x => VFloat <$> repair_rating_count to_decimal repr x) d = Ok d'.
Proof.
  set (h := fun x => str_method (replace 44 []) (VStr (py_str repr x))).
  set (g2 := fun x => VFloat <$> py_float to_decimal x).
  pose proof (assign_assign "rating_count" fillna0 (fun y => g2 (h y)) d d') as Hout.
  unfold format_rating_count. fold h. fold g2.
  change (fun x => VFloat <$> repair_rating_count to_decimal repr x)
    with (fun x => g2 (h (fillna0 x))).
  rewrite <- Hout, !bind_Ok.
  split; intros (d1 & H1 & H2); exists d1; (split; [exact H1|]);
    apply (assign_assign "rating_count" h g2 d1 d'); exact H2.
Qed.

(** X8. A rating count written with ASCII digits and commas, with at
    least one digit, always repairs (lines 40-42): the integer its digits
    write is not negative, the repair returns a float that is at least 0,
    and when the integer is below 2^53 the float is this integer exactly.
    A column of such counts and of missing cells is repaired without an
    exception, every cell to a float that is at least 0. *)
Theorem rating_count_of_digits :
  let digits (s : str) : list Z :=
    (fun c => Z.of_N (c - 48)) <$> filter (fun c => c ≠ 44%N) s in
  let written (s : str) : Prop :=
    Forall (fun c => is_digit c = true \/ c = 44%N) s
    /\ Exists (fun c => is_digit c = true) s in
  (forall s : str,
      written s ->
      0 <= digits_value (digits s)
      /\ (exists f, repair_rating_count to_decimal repr (VStr s) = Ok f
                    /\ fle (Fin 0) f = true)
      /\ (digits_value (digits s) < 2 ^ 53 ->
          repair_rating_count to_decimal repr (VStr s)
          = Ok (Fin (inject_Z (digits_value (digits s))))))
  /\ (forall d : frame,
        Forall (fun ir : Z * row =>
                  ir.2 !! "rating_count" = Some missing
                  \/ exists s, ir.2 !! "rating_count" = Some (VStr s) /\ written s) d ->
        exists d',
          format_rating_count to_decimal repr d = Ok d'
          /\ Forall (fun ir : Z * row =>
                       exists f, ir.2 !! "rating_count" = Some (VFloat f)
                                 /\ fle (Fin 0) f = true) d').
Proof.
  intros digits written.
  assert (Hcell : forall s : str,
      written s ->
      0 <= digits_value (digits s)
      /\ (exists f, repair_rating_count to_decimal repr (VStr s) = Ok f
                    /\ fle (Fin 0) f = true)
      /\ (digits_value (digits s) < 2 ^ 53 ->
          repair_rating_count to_decimal repr (VStr s)
          = Ok (Fin (inject_Z (digits_value (digits s)))))).
  { intros s [Hall Hex].
    set (t := filter (fun c => c ≠ 44%N) s).
    assert (Ht : Forall (fun c => is_digit c = true) t).
    { apply Forall_forall. intros c Hc. apply list_elem_of_filter in Hc as [Hne Hc].
      rewrite Forall_forall in Hall. destruct (Hall c Hc); [assumption|contradiction]. }
    assert (Hne : t ≠ []).
    { apply Exists_exists in Hex as (c & Hc & Hd).
      assert (c ∈ t).
      { apply list_elem_of_filter. split; [|exact Hc].
        apply is_digit_range in Hd. lia. }
      intros E. rewrite E in H. now apply not_elem_of_nil in H. }
    assert (Hrep : repair_rating_count to_decimal repr (VStr s)
                   = py_float to_decimal (VStr t)).
    { unfold repair_rating_count. cbn [fillna0 py_str str_method].
      now rewrite replace_removes. }
    destruct (float_of_str_digits to_decimal t Hne Ht) as (x & Hx & Hq).
    fold (digits s) in Hq.
    assert (Hn : 0 <= digits_value (digits s)).
    { apply digits_value_nonneg. apply Forall_fmap, Forall_forall. intros c _. cbn. lia. }
    rewrite Hrep. cbn [py_float]. rewrite Hx. split_and!.
    - exact Hn.
    - assert (Hx0 : (0 <= x)%Q).
      { rewrite Hq. now rewrite <- (Zle_Qle 0). }
      destruct (round64_nonneg x Hx0) as [->|(r & -> & Hr)].
      + eauto.
      + exists (Fin r). split; [reflexivity|]. cbn. now apply Qle_bool_iff.
    - intros Hb. now rewrite (round64_Z x _ Hq (conj Hn Hb)). }
  split; [exact Hcell|].
  intros d Hd.
  assert (Hok : Forall (fun ir : Z * row =>
            exists f, (v ← get ir.2 "rating_count";
                       w ← VFloat <$> repair_rating_count to_decimal repr v;
                       Ok (ir.1, <["rating_count" := w]> ir.2))
                      = Ok (ir.1, <["rating_count" := VFloat f]> ir.2)
                      /\ fle (Fin 0) f = true) d).
  { eapply Forall_impl; [exact Hd|]. intros ir [Hm|(s & Hs & Hw)].
    - exists (Fin 0). apply get_Ok in Hm. rewrite Hm. split; reflexivity.
    - destruct (Hcell s Hw) as (_ & (f & Hf & Hpos) & _).
      exists f. apply get_Ok in Hs. rewrite Hs. cbn [mbind result_bind].
      rewrite Hf. split; [reflexivity|exact Hpos]. }
  destruct (traverse_total
              (fun ir : Z * row =>
                 v ← get ir.2 "rating_count";
                 w ← VFloat <$> repair_rating_count to_decimal repr v;
                 Ok (ir.1, <["rating_count" := w]> ir.2)) d) as [d' Hd'].
  { eapply Forall_impl; [exact Hok|]. intros ir (f & Hf & _). eauto. }
  exists d'. split; [now apply format_rating_count_cells|].
  apply traverse_Ok in Hd'. apply Forall_forall. intros ir' Hir'.
  destruct (Forall2_in_r _ _ _ _ Hd' Hir') as (ir & Hir & Heq).
  rewrite Forall_forall in Hok. destruct (Hok ir Hir) as (f & Hf & Hpos).
  rewrite Hf in Heq. injection Heq as <-. exists f. cbn.
  rewrite lookup_insert_eq. auto.
Qed.

Lemma scale_row_cell (cols : list string) (n : Z) (r r' : row) (c : string) :
  scale_row cols n r = Ok r' -> c ∈ cols ->
  exists v, r !! c = Some v /\ r' !! c = Some (mul_int v n).
Proof.
  unfold scale_row. revert r'. induction cols as [|col cols IH]; intros r' H Hc; cbn in H.
  - now apply elem_of_nil in Hc.
  - apply bind_Ok in H as (r1 & H1 & H). apply bind_Ok in H as (v & Hv & [= <-]).
    apply get_Ok in Hv. destruct (decide (c = col)) as [->|Hne].
    + exists v. now rewrite lookup_insert_eq.
    + apply elem_of_cons in Hc as [?|Hc]; [contradiction|].
      rewrite lookup_insert_ne by congruence. eauto.
Qed.

Lemma percentage (x : Q) :
  (0 <= x <= 1)%Q ->
  exists y, mul_int (VFloat (Fin x)) 100 = VFloat (Fin y) /\ (0 <= y <= 100)%Q.
Proof.
  intros [H0 H1]. cbn [mul_int]. rewrite float_of_Z_100. cbn [fmul].
  destruct (round64_bounded (x * 100) 100) as (y & -> & Hy).
  - lra.
  - change (inject_Z 100) with 100%Q. lra.
  - reflexivity.
  - exists y. split; [reflexivity|]. change (inject_Z 100) with 100%Q in Hy. exact Hy.
Qed.

(** X11. Line 75 keeps percentages in range in spite of the rounding:
    a score between 0 and 1, times 100, is a finite float between 0 and
    100; 0 gives 0 and 1 gives 100 exactly; so when line 75 returns, a
    score column that held a float between 0 and 1 in an exploded row
    holds a float between 0 and 100 in the rescaled row. *)
Theorem percentages_in_range :
  (forall x : Q,
      (0 <= x <= 1)%Q ->
      exists y, mul_int (VFloat (Fin x)) 100 = VFloat (Fin y) /\ (0 <= y <= 100)%Q)
  /\ mul_int (VFloat (Fin 0)) 100 = VFloat (Fin 0)
  /\ mul_int (VFloat (Fin 1)) 100 = VFloat (Fin 100)
  /\ (forall g g' : globals,
        stmt_rescale g = Ok g' ->
        Forall2 (fun ir ir' : Z * row =>
                   forall (c : string) (x : Q),
                     c ∈ score_columns ->
                     ir.2 !! c = Some (VFloat (Fin x)) -> (0 <= x <= 1)%Q ->
                     exists y, ir'.2 !! c = Some (VFloat (Fin y))
                               /\ (0 <= y <= 100)%Q)
          (df_exploded g) (df_exploded g')).
Proof.
  split_and!.
  - exact percentage.
  - reflexivity.
  - reflexivity.
  - intros g g' H. unfold stmt_rescale in H.
    apply bind_Ok in H as (e & He & H). apply Ok_inj in H as <-.
    cbn [df_exploded]. unfold scale in He. apply traverse_Ok in He.
    eapply Forall2_impl; [exact He|]. intros ir ir' Hrow c x Hc Hx Hr.
    apply bind_Ok in Hrow as (r' & Hr' & H). apply Ok_inj in H as <-.
    destruct (scale_row_cell _ _ _ _ c Hr' Hc) as (v & Hv & Hv').
    rewrite Hx in Hv. injection Hv as <-.
    destruct (percentage x Hr) as (y & Hy & Hb).
    exists y. cbn. rewrite Hv', Hy. auto.
Qed.

Lemma traverse_Raise_inv {A B : Type} (f : A -> result B) (l : list A) (e : exn) :
  traverse f l = Raise e -> exists x, x ∈ l /\ f x = Raise e.
Proof.
  induction l as [|x l IH]; cbn; [discriminate|].
  destruct (f x) as [y|e'] eqn:E; cbn.
  - destruct (traverse f l) as [l'|e'']; cbn; [discriminate|]. intros [= <-].
    destruct IH as (x' & Hx' & Hf); [reflexivity|].
    exists x'. split; [now right|assumption].
  - intros [= <-]. exists x. split; [left|assumption].
Qed.

Lemma annotate_reviews (d d' : frame) :
  annotate polarity_scores d = Ok d' ->
  Forall (fun ir : Z * row => is_Some (ir.2 !! "review_content")) d'.
Proof.
  intros H. unfold annotate in H. apply bind_Ok in H as (d1 & Hs & Hl).
  assert (Hs' : traverse (score_row polarity_scores) d = Ok d1)
    by (destruct d; [discriminate|exact Hs]).
  apply traverse_Ok in Hs'.
  assert (H1 : Forall (fun ir : Z * row => is_Some (ir.2 !! "review_content")) d1).
  { apply Forall_forall. intros ir' Hir'.
    destruct (Forall2_in_r _ _ _ _ Hs' Hir') as (ir & _ & Hrow).
    unfold score_row in Hrow. apply bind_Ok in Hrow as (v & Hv & Hrow).
    apply bind_Ok in Hrow as (s & _ & [= <-]). apply get_Ok in Hv. cbn.
    rewrite !lookup_insert_ne by discriminate. eauto. }
  eapply (transfer "review_content" is_Some); [|exact H1].
  eapply cells_from_assign; [|exact Hl]. discriminate.
Qed.

Lemma review_length_returns (d : frame) (g : globals) :
  Forall (fun ir : Z * row => is_Some (ir.2 !! "review_content")) d ->
  reshape d = Ok g ->
  exists g', stmt_review_length repr g = Ok g'
             /\ cells_from "product_name" (df_exploded g) (df_exploded g').
Proof.
  intros Hrev Hre.
  assert (Hslice : Forall (fun ir : Z * row => is_Some (ir.2 !! "review_content"))
                     (df_exploded g)).
  { eapply (transfer "review_content" is_Some); [|exact Hrev].
    eapply cells_from_reshape; [|exact Hre]. unfold score_columns.
    repeat (apply not_elem_of_cons; split; [discriminate|]). apply not_elem_of_nil. }
  unfold stmt_review_length.
  destruct (traverse_total
              (fun ir : Z * row =>
                 v ← get ir.2 "review_content";
                 w ← Ok (VInt (Z.of_nat (length (py_str repr v))));
                 Ok (ir.1, <["review_length" := w]> ir.2)) (df_exploded g)) as [e He].
  { eapply Forall_impl; [exact Hslice|]. intros ir [v Hv]. apply get_Ok in Hv.
    rewrite Hv. cbn. eauto. }
  unfold assign. rewrite He. cbn. eexists. split; [reflexivity|]. cbn.
  eapply (cells_from_assign "product_name" "review_content" "review_length");
    [discriminate|exact He].
Qed.

Lemma truncate_name_raises (v : value) (e : exn) :
  truncate_name v = Raise e -> e = TypeError.
Proof.
  unfold truncate_name. destruct v as [s|f|z|l]; try destruct (10 <? length l)%nat;
    intros [=]; congruence.
Qed.

(** X16. A run writes no report, five reports or six.  None when lines
    26-78 raise, with their exception.  Otherwise the first five are
    written and the run ends either after the sixth, without an
    exception, or after the fifth, with KeyError or TypeError from line
    195: all six are written when every product name of the slice is a
    string; when every row of the slice has a product name and one of
    them is a float (a missing name), five are written and the run ends
    with TypeError. *)
Theorem reports_none_five_or_six (d0 : frame) :
  let run := main to_decimal detect polarity_scores repr html render d0 in
  (run.1 = []
   /\ exists e,
        run.2 = Some e
        /\ ((clean to_decimal detect repr d0 ≫= annotate polarity_scores) ≫= reshape)
           = Raise e)
  \/ (exists g,
        ((clean to_decimal detect repr d0 ≫= annotate polarity_scores) ≫= reshape) = Ok g
        /\ ((length run.1 = 6%nat /\ run.2 = None)
            \/ (length run.1 = 5%nat
                /\ (run.2 = Some KeyError \/ run.2 = Some TypeError)))
        /\ (Forall (fun ir : Z * row =>
                      exists s, ir.2 !! "product_name" = Some (VStr s))
              (df_exploded g) ->
            length run.1 = 6%nat /\ run.2 = None)
        /\ (Forall (fun ir : Z * row => is_Some (ir.2 !! "product_name"))
              (df_exploded g) ->
            Exists (fun ir : Z * row =>
                      exists f, ir.2 !! "product_name" = Some (VFloat f))
              (df_exploded g) ->
            length run.1 = 5%nat /\ run.2 = Some TypeError)).
Proof.
  intros run. unfold run, main.
  destruct (clean to_decimal detect repr d0) as [d1|e] eqn:Hclean;
    cbn [mbind result_bind]; [|left; split; [reflexivity|eauto]].
  destruct (annotate polarity_scores d1) as [d2|e] eqn:Hann;
    cbn [mbind result_bind]; [|left; split; [reflexivity|eauto]].
  destruct (reshape d2) as [g|e] eqn:Hre; [|left; split; [reflexivity|eauto]].
  right. exists g. split; [reflexivity|].
  destruct (review_length_returns d2 g (annotate_reviews d1 d2 Hann) Hre)
    as (g' & Hlen & Hnames).
  unfold draw. rewrite Hlen. unfold stmt_truncate_names.
  split_and!.
  - destruct (assign "product_name" "product_name" truncate_name (df_exploded g'))
      as [e|e] eqn:Hnm; cbn [mbind result_bind]; [left; split; reflexivity|right].
    split; [reflexivity|]. unfold assign in Hnm.
    apply traverse_Raise_inv in Hnm as (ir & _ & Hir).
    unfold get in Hir. destruct (ir.2 !! "product_name") as [v|]; cbn in Hir.
    + destruct (truncate_name v) as [w|e'] eqn:Hv; cbn in Hir; [discriminate|].
      injection Hir as <-. apply truncate_name_raises in Hv as ->. now right.
    + injection Hir as <-. now left.
  - intros Hstr.
    destruct (traverse_total
                (fun ir : Z * row =>
                   v ← get ir.2 "product_name"; w ← truncate_name v;
                   Ok (ir.1, <["product_name" := w]> ir.2)) (df_exploded g'))
      as [e He].
    { eapply Forall_impl.
      - eapply (transfer "product_name"
                  (fun o => exists s, o = Some (VStr s))); [exact Hnames|exact Hstr].
      - intros ir [s Hs]. apply get_Ok in Hs. rewrite Hs. cbn. eauto. }
    unfold assign. rewrite He. cbn. split; reflexivity.
  - intros Hall Hex.
    assert (Hraise : assign "product_name" "product_name" truncate_name (df_exploded g')
                     = Raise TypeError).
    { unfold assign. apply traverse_raise_only.
      - eapply Forall_impl.
        + eapply (transfer "product_name" is_Some); [exact Hnames|exact Hall].
        + intros ir [v Hv]. apply get_Ok in Hv. rewrite Hv. cbn.
          destruct (truncate_name v) as [w|e] eqn:E; cbn; [left; eauto|right].
          now rewrite (truncate_name_raises v e E).
      - unfold stmt_review_length in Hlen. apply bind_Ok in Hlen as (e & He & Hg).
        apply Ok_inj in Hg as <-. cbn [df_exploded] in *.
        apply assign_Ok in He.
        apply Exists_exists in Hex as (ir & Hir & f & Hf).
        destruct (Forall2_in_l _ _ _ _ He Hir) as (ir' & Hir' & v & w & _ & _ & ->).
        apply Exists_exists. eexists. split; [exact Hir'|]. unfold get. cbn.
        rewrite lookup_insert_ne by discriminate. rewrite Hf. reflexivity. }
    rewrite Hraise. cbn. split; reflexivity.
Qed.

(** X9. An exception of a collaborator is not caught: if the language
    detector raises on the review of one row that reaches line 45, or the
    sentiment scorer on the review of one cleaned row at line 67, the run
    ends with an exception and no report is written. *)
Theorem collaborator_failure_writes_nothing :
  (forall d d4 : frame,
      (((strip_reviews d ≫= split_categories) ≫= repair_ratings to_decimal)
         ≫= format_rating_count to_decimal repr) = Ok d4 ->
      Exists (fun ir : Z * row =>
                exists v e, ir.2 !! "review_content" = Some v /\ detect v = Raise e) d4 ->
      exists e, main to_decimal detect polarity_scores repr html render d = ([], Some e))
  /\ (forall d d1 : frame,
        clean to_decimal detect repr d = Ok d1 ->
        Exists (fun ir : Z * row =>
                  exists v e, ir.2 !! "review_content" = Some v
                              /\ polarity_scores v = Raise e) d1 ->
        exists e, main to_decimal detect polarity_scores repr html render d
                  = ([], Some e)).
Proof.
  split.
  - intros d d4 H Hex.
    apply bind_Ok in H as (d3 & H & H4). apply bind_Ok in H as (d2 & H & H3).
    apply bind_Ok in H as (d1 & H1 & H2).
    apply Exists_exists in Hex as (ir & Hir & v & e & Hv & He).
    destruct (traverse_Raise
                (fun ir : Z * row =>
                   v ← get ir.2 "review_content"; w ← detect v;
                   Ok (ir.1, <["language" := w]> ir.2)) d4 ir e Hir) as [e' He'].
    { apply get_Ok in Hv. rewrite Hv. cbn. now rewrite He. }
    exists e'. unfold main, clean. rewrite H1. cbn [mbind result_bind].
    rewrite H2. cbn [mbind result_bind]. rewrite H3. cbn [mbind result_bind].
    rewrite H4. cbn [mbind result_bind].
    unfold language_filter, detect_language, assign. rewrite He'. reflexivity.
  - intros d d1 Hclean Hex.
    apply Exists_exists in Hex as (ir & Hir & v & e & Hv & He).
    destruct (traverse_Raise (score_row polarity_scores) d1 ir e Hir) as [e' He'].
    { unfold score_row. apply get_Ok in Hv. rewrite Hv. cbn. now rewrite He. }
    exists e'. unfold main. rewrite Hclean. cbn [mbind result_bind].
    unfold annotate, score_reviews.
    destruct d1 as [|ir1 d1]; [now apply elem_of_nil in Hir|].
    rewrite He'. reflexivity.
Qed.

(** X14. The review length of line 145 is that of the review as line
    26 left it: in every row of the frame chart 4 is drawn from, the
    review is the stripped review of a row of the loaded frame and
    review_length is the number of characters of [str] of it; for a
    review that is a string, the number of characters of the stripped
    string. *)
Theorem review_length_of_stripped_text (d0 e : frame) :
  scatter_input to_decimal detect polarity_scores repr d0 = Ok e ->
  Forall (fun ir : Z * row =>
            exists (ir0 : Z * row) (v0 : value),
              ir0 ∈ d0
              /\ ir0.2 !! "review_content" = Some v0
              /\ ir.2 !! "review_content" = Some (str_method (strip strip_chars) v0)
              /\ ir.2 !! "review_length"
                 = Some (VInt (Z.of_nat
                                 (length (py_str repr
                                            (str_method (strip strip_chars) v0)))))
              /\ forall s : str,
                   v0 = VStr s ->
                   ir.2 !! "review_length"
                   = Some (VInt (Z.of_nat (length (strip strip_chars s))))) e.
Proof.
  unfold scatter_input. intros H.
  apply bind_Ok in H as (d1 & Hclean & H). apply bind_Ok in H as (d2 & Hann & H).
  apply bind_Ok in H as (g & Hre & H). apply bind_Ok in H as (g' & Hlen & [= <-]).
  set (P := fun o : option value =>
              exists (ir0 : Z * row) (v0 : value),
                ir0 ∈ d0 /\ ir0.2 !! "review_content" = Some v0
                /\ o = Some (str_method (strip strip_chars) v0)).
  assert (Hslice : Forall (fun ir : Z * row => P (ir.2 !! "review_content"))
                     (df_exploded g)).
  { unfold clean, repair_ratings, format_rating_count, language_filter in Hclean.
    apply bind_Ok in Hclean as (da & Hstrip & Hclean).
    apply bind_Ok in Hclean as (db & Hsplit & Hclean).
    apply bind_Ok in Hclean as (dd & H34 & Hclean).
    apply bind_Ok in H34 as (dc & H3 & H4).
    apply bind_Ok in Hclean as (dg & H57 & Hclean).
    apply bind_Ok in H57 as (de & H5 & H57).
    apply bind_Ok in H57 as (df' & H6 & H7).
    apply bind_Ok in Hclean as (dh & H8 & Hclean).
    apply bind_Ok in Hclean as (di & H9 & [= <-]).
    assert (Ha : Forall (fun ir : Z * row => P (ir.2 !! "review_content")) da).
    { apply strip_reviews_Ok, assign_Ok in Hstrip. apply Forall_forall. intros ir' Hir'.
      destruct (Forall2_in_r _ _ _ _ Hstrip Hir') as (ir & Hir & v & w & Hv & [= <-] & ->).
      exists ir, v. cbn. rewrite lookup_insert_eq. auto. }
    eapply transfer; [|exact Ha].
    repeat (eapply cells_from_trans;
            [first [ eapply cells_from_drop_where; eassumption
                   | eapply cells_from_assign; [|eassumption]; discriminate ]|]).
    eapply cells_from_trans; [apply cells_from_reset_index|].
    eapply cells_from_trans.
    - eapply cells_from_annotate; [|exact Hann].
      repeat (apply not_elem_of_cons; split; [discriminate|]). apply not_elem_of_nil.
    - eapply cells_from_reshape; [|exact Hre]. unfold score_columns.
      repeat (apply not_elem_of_cons; split; [discriminate|]). apply not_elem_of_nil. }
  unfold stmt_review_length in Hlen. apply bind_Ok in Hlen as (e & He & Hg).
  apply Ok_inj in Hg as <-. cbn [df_exploded]. apply assign_Ok in He.
  apply Forall_forall. intros ir' Hir'.
  destruct (Forall2_in_r _ _ _ _ He Hir') as (ir & Hir & v & w & Hv & [= <-] & ->).
  rewrite Forall_forall in Hslice. destruct (Hslice ir Hir) as (ir0 & v0 & Hin & Hv0 & Hs).
  rewrite Hv in Hs. injection Hs as ->.
  exists ir0, v0. cbn. rewrite lookup_insert_ne by discriminate. rewrite lookup_insert_eq.
  split_and!; [assumption..|reflexivity|].
  intros s ->. reflexivity.
Qed.



End Further.


(* ===================================================================== *)
(** * The properties on the sample run *)
(* ===================================================================== *)

(** A closed decidable statement, by evaluation. *)
Ltac decided :=
  match goal with
  | |- ?P => apply (bool_decide_unpack P); vm_compute; exact I
  end.

Lemma scatter_compound_is_a_label_witness :
  Forall (fun ir : Z * row =>
            is_label (ir.2 !! "compound")
            /\ forall f : pyfloat, ir.2 !! "compound" ≠ Some (VFloat f))
    sample_scatter.
Proof.
  destruct (scatter_compound_is_a_label sample_decimal sample_detect
              sample_scores sample_repr unit (fun _ _ => tt)) as [Hlabel _].
  refine (Hlabel sample_frame sample_scatter _). decided.
Defined.

Lemma sentiment_label_thresholds_witness :
  get_sentiment (VFloat (Fin (1 # 2))) = Ok (VStr (lit "Positivo"))
  /\ get_sentiment (VFloat (Fin (- 1 # 2))) = Ok (VStr (lit "Negative"))
  /\ get_sentiment (VFloat (Fin 0)) = Ok (VStr (lit "Neutral"))
  /\ Forall2 (labelled sample_scores) sample_clean sample_annotated.
Proof.
  destruct (sentiment_label_thresholds sample_scores) as [Hcell Hcol].
  split_and!.
  - apply (Hcell (Fin (1 # 2))). reflexivity.
  - apply (Hcell (Fin (- 1 # 2))). reflexivity.
  - apply (Hcell (Fin 0)); reflexivity.
  - apply Hcol. decided.
Defined.


Lemma rating_count_repair_witness :
  Forall (fun ir : Z * row => exists f, ir.2 !! "rating_count" = Some (VFloat f))
    sample_counted.
Proof.
  destruct (rating_count_repair sample_decimal sample_repr sample_frame)
    as (_ & _ & _ & _ & Hfloat).
  apply Hfloat. decided.
Defined.

Lemma language_filter_english_contiguous_witness :
  Forall (fun ir : Z * row => ir.2 !! "language" = Some (VStr (lit "en")))
    sample_english
  /\ index sample_english = seqZ 0 (Z.of_nat (length sample_english)).
Proof.
  destruct (language_filter_english_contiguous sample_detect) as [Hen _].
  refine (Hen sample_frame sample_english _). decided.
Defined.

Lemma explode_counts_and_copies_witness :
  length (df_exploded sample_exploded)
  = sum_list ((fun ir => length (category_list ir)) <$> sample_annotated)
  /\ exists groups,
       df_exploded sample_exploded = concat groups
       /\ Forall2 exploded_from sample_annotated groups.
Proof.
  apply (explode_counts_and_copies sample_decimal sample_detect sample_scores
           sample_repr sample_frame sample_clean); decided.
Defined.

Lemma top20_sorted_and_consumed_witness :
  index (df_exploded (globals_returned (stmt_explode sample_unranked ≫= stmt_rescale)))
  = [0; 0; 1; 1; 2; 2; 3; 3; 4; 4; 5; 5; 6; 6; 7; 7; 8; 8; 9; 9; 10; 10; 11; 11]
  /\ index (df_exploded sample_ranked)
     = [5; 5; 2; 2; 10; 10; 7; 7; 4; 4; 1; 1; 9; 9; 6; 6; 3; 3; 11; 11]
  /\ (length (df_exploded sample_ranked) <= 20)%nat
  /\ StronglySorted tuple_ge (df_exploded sample_ranked)
  /\ exists frames : list frame,
       (draw sample_repr (chart * frame)%type pair sample_ranked).1
       = zip_with pair all_charts frames
       /\ Forall (drawn_from (df_exploded sample_ranked)) frames.
Proof.
  destruct (top20_sorted_and_consumed sample_repr (chart * frame)%type pair
              sample_unranked sample_ranked) as (Hlen & Hsorted & _ & _ & Hdrawn).
  - decided.
  - split_and!; [decided|decided|assumption..].
Defined.

Lemma rescale_view_only_and_sum_witness :
  df sample_rescaled = df sample_exploded
  /\ exists (r' : row) (n' u' p' : Q),
       scale_row score_columns 100
         (<["negative" := VFloat (Fin 0)]>
            (<["neutral" := VFloat (Fin (1 # 4))]>
               (<["positive" := VFloat (Fin (3 # 4))]> ∅))) = Ok r'
       /\ r' !! "negative" = Some (VFloat (Fin n'))
       /\ r' !! "neutral" = Some (VFloat (Fin u'))
       /\ r' !! "positive" = Some (VFloat (Fin p'))
       /\ (Qabs (n' + u' + p' - 100)
           <= 100 * 0 + 100 * (1 + 0) * u64 + 3 * eta64)%Q.
Proof.
  destruct rescale_view_only_and_sum as (Hview & _ & Hsum).
  split.
  - apply (Hview sample_exploded sample_rescaled). decided.
  - apply (Hsum _ 0%Q (1 # 4)%Q (3 # 4)%Q 0%Q);
      first [reflexivity | split; discriminate | vm_compute; discriminate].
Defined.

Lemma product_name_truncation_witness :
  truncate (lit "A very long product name") = lit "A very lon..."
  /\ truncate (lit "Lamp") = lit "Lamp"
  /\ Forall2 (assigned "product_name" "product_name" truncate_name)
       (df_exploded sample_top) (df_exploded sample_named).
Proof.
  destruct product_name_truncation as [Hcell Hcol].
  split_and!.
  - destruct (Hcell (lit "A very long product name")) as (Hlong & _ & _).
    destruct Hlong as [-> _]; [vm_compute; lia|reflexivity].
  - destruct (Hcell (lit "Lamp")) as (_ & Hshort & _).
    apply Hshort. vm_compute. lia.
  - apply (Hcol sample_top sample_named). decided.
Defined.

Lemma deletion_loops_are_filter_passes_witness :
  drop_sentinel_ratings sample_frame
  = Ok (filter_pass is_sentinel "rating" sample_frame)
  /\ drop_non_english sample_tagged
     = Ok (filter_pass not_english "language" sample_tagged)
  /\ NoDup (index sample_tagged).
Proof.
  destruct (deletion_loops_are_filter_passes sample_decimal sample_detect
              sample_repr) as (Hloops & _ & Hlabels).
  assert (Hfile : NoDup (index sample_frame)) by decided.
  assert (Hrun : NoDup (index sample_tagged)).
  { refine (Hlabels sample_records sample_tagged _). decided. }
  destruct (Hloops sample_frame Hfile) as [Hrating _].
  destruct (Hloops sample_tagged Hrun) as [_ Hlanguage].
  split_and!.
  - refine (Hrating _). decided.
  - refine (Hlanguage _). decided.
  - exact Hrun.
Defined.

(** ** The further properties on the sample run *)

Lemma drop_duplicates_keeps_first_witness :
  NoDup (drop_duplicates (read_csv sample_records)).*2
  /\ (0, sample_row (VStr (lit "Lamp")) missing missing (VStr (lit "12")) missing)
     ∈ drop_duplicates sample_gaps
  /\ drop_duplicates (drop_duplicates (read_csv sample_records))
     = drop_duplicates (read_csv sample_records).
Proof.
  destruct (drop_duplicates_keeps_first (read_csv sample_records)) as (Hn & _ & _ & _ & Hid).
  destruct (drop_duplicates_keeps_first sample_gaps) as (_ & _ & _ & Hfirst & _).
  split_and!; [exact Hn| |exact Hid].
  apply (Hfirst [] []); [reflexivity|apply not_elem_of_nil].
Defined.

Lemma strip_reviews_ends_witness :
  strip_reviews (returned (strip_reviews sample_frame))
  = Ok (returned (strip_reviews sample_frame))
  /\ strip_reviews sample_unread = Raise AttributeError.
Proof.
  destruct strip_reviews_ends as (_ & Hcol & Hraise).
  split.
  - refine (Hcol sample_frame _ _ _); [decided|].
    assert (Hstr : Forall (fun ir : Z * row =>
                             is_Some (ir.2 !! "review_content"
                                        ≫= fun v => match v with
                                                    | VStr s => Some s
                                                    | _ => None
                                                    end)) sample_frame) by decided.
    eapply Forall_impl; [exact Hstr|]. intros ir [s Hs] l Hl.
    rewrite Hl in Hs. discriminate Hs.
  - apply Hraise; [decided|].
    assert (Hnan : Forall (fun ir : Z * row =>
                             ir.2 !! "review_content" = Some missing) sample_unread)
      by decided.
    eapply Forall_impl; [exact Hnan|]. intros ir Hir. exists missing.
    split; [exact Hir|reflexivity].
Defined.

Lemma split_categories_round_trip_witness :
  Forall2 (fun ir ir' : Z * row =>
             exists (s : str) (parts : list str),
               ir.2 !! "category" = Some (VStr s)
               /\ ir' = (ir.1, <["category" := VList parts]> ir.2)
               /\ join 124 parts = s
               /\ Forall (fun w : str => 124%N ∉ w) parts
               /\ length parts = S (length (filter (fun c => c = 124%N) s)))
    sample_frame (returned (split_categories sample_frame)).
Proof.
  refine (split_categories_round_trip sample_frame _ _). decided.
Defined.

Lemma split_and_label_run_once_witness :
  split_categories (returned (split_categories sample_frame)) = Raise AttributeError
  /\ label_compound sample_annotated = Raise TypeError.
Proof.
  destruct split_and_label_run_once as [Hsplit Hlabel].
  split.
  - refine (Hsplit sample_frame _ _ _); decided.
  - refine (Hlabel (returned (score_reviews sample_scores sample_clean)) _ _ _); decided.
Defined.

Lemma truncate_collapses_witness :
  truncate (lit "A very long product name") = truncate (lit "A very long story").
Proof.
  destruct truncate_collapses as (_ & _ & _ & Hsame).
  apply Hsame; [vm_compute; lia|vm_compute; lia|reflexivity].
Defined.

Lemma get_sentiment_monotone_witness :
  get_sentiment (VFloat (Fin (1 # 2))) = Ok (VStr (lit "Positivo"))
  /\ get_sentiment (VFloat (Fin (- 1 # 2))) = Ok (VStr (lit "Negative")).
Proof.
  destruct get_sentiment_monotone as (Hmono & _).
  split.
  - refine (proj1 (Hmono (Fin (1 # 10)) (Fin (1 # 2)) _) _); reflexivity.
  - refine (proj2 (Hmono (Fin (- 1 # 2)) (Fin (- 1 # 10)) _) _); reflexivity.
Defined.

Lemma sort_values_stable_witness :
  [(1, sample_scored "first" (3 # 4)); (2, sample_scored "second" (3 # 4))]
    `sublist_of` returned (sort_values rank_columns sample_ties).
Proof.
  refine (sort_values_stable rank_columns sample_ties _ _ _ _
            [Fin (3 # 4); Fin 0; Fin 0] [Fin (3 # 4); Fin 0; Fin 0] _ _ _ _).
  - decided.
  - decided.
  - decided.
  - repeat constructor.
  - apply sublist_cons_r. left. reflexivity.
Defined.

Lemma missing_category_raises_witness :
  (exists d1 : frame,
      strip_reviews sample_uncategorised = Ok d1
      /\ split_categories d1 = Raise AttributeError)
  /\ main sample_decimal sample_detect sample_scores sample_repr unit
       (fun _ _ => tt) sample_uncategorised = ([], Some AttributeError)
  /\ strip_reviews sample_gaps = Raise AttributeError.
Proof.
  assert (Hbad : forall d : frame,
             Forall (fun ir : Z * row => ir.2 !! "category" = Some missing) d ->
             d ≠ [] ->
             Exists (fun ir : Z * row =>
                       forall s, ir.2 !! "category" ≠ Some (VStr s)) d).
  { intros d Hd Hne. destruct Hd as [|ir d Hir _]; [contradiction|].
    left. intros s Hs. rewrite Hir in Hs. discriminate Hs. }
  destruct (missing_category_raises sample_decimal sample_detect sample_scores
              sample_repr unit (fun _ _ => tt) sample_uncategorised)
    as (_ & Hmain & _ & Hline & _); [decided|apply Hbad; decided|].
  destruct (missing_category_raises sample_decimal sample_detect sample_scores
              sample_repr unit (fun _ _ => tt) sample_gaps)
    as (_ & _ & _ & _ & Hnum); [decided|apply Hbad; decided|].
  split_and!.
  - apply Hline.
    assert (Hstr : Exists (fun ir : Z * row =>
                             ir.2 !! "review_content"
                             = Some (VStr (lit "hello world")))
                     sample_uncategorised) by decided.
    eapply Exists_impl; [exact Hstr|]. intros ir Hir.
    exists (VStr (lit "hello world")). split; [exact Hir|reflexivity].
  - exact Hmain.
  - apply Hnum.
    assert (Hnan : Forall (fun ir : Z * row =>
                             ir.2 !! "review_content" = Some missing) sample_gaps)
      by decided.
    eapply Forall_impl; [exact Hnan|]. intros ir Hir. exists missing.
    split; [exact Hir|reflexivity].
Defined.

Lemma missing_review_column_raises_witness :
  main sample_decimal sample_detect sample_scores sample_repr unit
    (fun _ _ => tt) [(0, ∅)] = ([], Some KeyError).
Proof.
  destruct (missing_review_column_raises sample_decimal sample_detect sample_scores
              sample_repr unit (fun _ _ => tt)) as [Hmain _].
  apply (Hmain (0, ∅) []). reflexivity.
Defined.

Lemma missing_rating_stays_witness :
  (0, <["rating" := missing]>
        (sample_row (VStr (lit "Lamp")) (VStr (lit "Home")) missing
          (VStr (lit "12")) (VStr (lit "hello"))))
    ∈ returned (repair_ratings sample_decimal sample_unrated)
  /\ format_ratings sample_decimal (returned (repair_ratings sample_decimal sample_unrated))
     = Ok (returned (repair_ratings sample_decimal sample_unrated)).
Proof.
  destruct (missing_rating_stays sample_decimal sample_unrated
              (returned (repair_ratings sample_decimal sample_unrated)))
    as [Hnan Hagain]; [decided..|].
  split; [|exact Hagain].
  apply (Hnan (0, sample_row (VStr (lit "Lamp")) (VStr (lit "Home")) missing
                    (VStr (lit "12")) (VStr (lit "hello")))); decided.
Defined.

Lemma rating_count_of_digits_witness :
  repair_rating_count sample_decimal sample_repr (VStr (lit "1,000,000"))
  = Ok (Fin (inject_Z 1000000)).
Proof.
  destruct (rating_count_of_digits sample_decimal sample_repr) as [Hcell _].
  destruct (Hcell (lit "1,000,000")) as (_ & _ & Hexact); [split; decided|].
  apply Hexact. reflexivity.
Defined.

Lemma percentages_in_range_witness :
  (exists y, mul_int (VFloat (Fin (3 # 4))) 100 = VFloat (Fin y) /\ (0 <= y <= 100)%Q)
  /\ Forall2 (fun ir ir' : Z * row =>
                forall (c : string) (x : Q),
                  c ∈ score_columns ->
                  ir.2 !! c = Some (VFloat (Fin x)) -> (0 <= x <= 1)%Q ->
                  exists y, ir'.2 !! c = Some (VFloat (Fin y)) /\ (0 <= y <= 100)%Q)
       (df_exploded sample_exploded) (df_exploded sample_rescaled).
Proof.
  destruct percentages_in_range as (Hcell & _ & _ & Hcol).
  split.
  - apply Hcell. split; discriminate.
  - apply Hcol. decided.
Defined.

Lemma reports_none_five_or_six_witness :
  length (main sample_decimal sample_detect sample_scores sample_repr unit
            (fun _ _ => tt) sample_frame).1 = 6%nat
  /\ (main sample_decimal sample_detect sample_scores sample_repr unit
        (fun _ _ => tt) sample_frame).2 = None.
Proof.
  assert (Hrun : ((clean sample_decimal sample_detect sample_repr sample_frame
                     ≫= annotate sample_scores) ≫= reshape) = Ok sample_top)
    by decided.
  assert (Hnames : Forall (fun ir : Z * row =>
                             exists s, ir.2 !! "product_name" = Some (VStr s))
                     (df_exploded sample_top)).
  { assert (Hstr : Forall (fun ir : Z * row =>
                             is_Some (ir.2 !! "product_name"
                                        ≫= fun v => match v with
                                                    | VStr s => Some s
                                                    | _ => None
                                                    end))
                     (df_exploded sample_top)) by decided.
    eapply Forall_impl; [exact Hstr|]. intros ir [s Hs].
    destruct (ir.2 !! "product_name") as [[s'|f|z|l]|];
      [exists s'; reflexivity|discriminate Hs..]. }
  destruct (reports_none_five_or_six sample_decimal sample_detect sample_scores
              sample_repr unit (fun _ _ => tt) sample_frame)
    as [(_ & e & _ & Hraise)|(g & Hg & _ & Hsix & _)].
  - discriminate (eq_trans (eq_sym Hrun) Hraise).
  - pose proof (Ok_inj _ _ (eq_trans (eq_sym Hrun) Hg)) as <-. exact (Hsix Hnames).
Defined.

Lemma collaborator_failure_writes_nothing_witness :
  (exists e, main sample_decimal sample_detect sample_scores sample_repr unit
               (fun _ _ => tt) sample_half_read = ([], Some e))
  /\ (exists e, main sample_decimal sample_detect sample_refusing_scores sample_repr
                  unit (fun _ _ => tt) sample_frame = ([], Some e)).
Proof.
  split.
  - destruct (collaborator_failure_writes_nothing sample_decimal sample_detect
                sample_scores sample_repr unit (fun _ _ => tt)) as [Hdetect _].
    refine (Hdetect sample_half_read
              (returned (((strip_reviews sample_half_read ≫= split_categories)
                            ≫= repair_ratings sample_decimal)
                           ≫= format_rating_count sample_decimal sample_repr)) _ _).
    + decided.
    + assert (Exists (fun ir : Z * row => ir.2 !! "review_content" = Some missing)
                (returned (((strip_reviews sample_half_read ≫= split_categories)
                              ≫= repair_ratings sample_decimal)
                             ≫= format_rating_count sample_decimal sample_repr)))
        as Hnan by decided.
      eapply Exists_impl; [exact Hnan|].
      intros ir Hir. exists missing, TypeError. split; [exact Hir|reflexivity].
  - destruct (collaborator_failure_writes_nothing sample_decimal sample_detect
                sample_refusing_scores sample_repr unit (fun _ _ => tt))
      as [_ Hscores].
    refine (Hscores sample_frame sample_clean _ _).
    + decided.
    + assert (Exists (fun ir : Z * row => is_Some (ir.2 !! "review_content"))
                sample_clean) as Hrev by decided.
      eapply Exists_impl; [exact Hrev|].
      intros ir [v Hv]. exists v, ExternalError. split; [exact Hv|reflexivity].
Defined.

Lemma review_length_of_stripped_text_witness :
  Forall (fun ir : Z * row =>
            exists (ir0 : Z * row) (v0 : value),
              ir0 ∈ sample_frame
              /\ ir0.2 !! "review_content" = Some v0
              /\ ir.2 !! "review_content" = Some (str_method (strip strip_chars) v0)
              /\ ir.2 !! "review_length"
                 = Some (VInt (Z.of_nat
                                 (length (py_str sample_repr
                                            (str_method (strip strip_chars) v0)))))
              /\ forall s : str,
                   v0 = VStr s ->
                   ir.2 !! "review_length"
                   = Some (VInt (Z.of_nat (length (strip strip_chars s)))))
    sample_scatter.
Proof.
  refine (review_length_of_stripped_text sample_decimal sample_detect sample_scores
            sample_repr sample_frame sample_scatter _).
  decided.
Defined.

